(** * DACSynthformer data-pipeline scripts: shallow embedding and properties

    The repository is a set of independent command-line scripts.  Each
    script is embedded below in a module bearing its file name; the
    definitions keep the names of the Python functions they translate.

    Conventions of the embedding.
    - A Python [float] is modelled by its exact value: a rational for a
      finite float, and three constants for the infinities and NaN.
      Comparison, [min], [max], [int(...)] and the [%05.2f] formatting
      are exact functions of that value.  Arithmetic on floats is taken
      exactly (no binary64 rounding).
    - Scripts are programs in a small state-and-trace monad: the state
      is whatever the script mutates (a directory, a counter of random
      draws), the trace lists the observable events in order (log
      records, probes, calls into external libraries).
    - A log record keeps the format string of the source verbatim and
      the interpolated values as a list of arguments. *)

From Stdlib Require Import Ascii ZArith QArith Qround Qabs Qminmax Lia Lqa.
From stdpp Require Import gmap strings list pretty.

Local Open Scope string_scope.
Local Open Scope list_scope.

(** ** Programs with state and an event trace *)

Definition prog (S E A : Type) : Type := S → A * S * list E.

Global Instance prog_ret {S E} : MRet (prog S E) :=
  λ A a s, (a, s, []).

Global Instance prog_bind {S E} : MBind (prog S E) :=
  λ A B k m s,
    let '(a, s1, t1) := m s in
    let '(b, s2, t2) := k a s1 in
    (b, s2, t1 ++ t2).

Definition emit {S E} (e : E) : prog S E unit := λ s, (tt, s, [e]).
Definition get_state {S E} : prog S E S := λ s, (s, s, []).
Definition put_state {S E} (s' : S) : prog S E unit := λ _, (tt, s', []).

Definition result_of {S E A} (r : A * S * list E) : A := r.1.1.
Definition state_of {S E A} (r : A * S * list E) : S := r.1.2.
Definition trace_of {S E A} (r : A * S * list E) : list E := r.2.

(** [follows P Q m]: from every state, each event of [m] satisfies [P]
    and its result satisfies [Q]. *)
Definition follows {S E A} (P : E → Prop) (Q : A → Prop) (m : prog S E A) : Prop :=
  ∀ s, Forall P (trace_of (m s)) ∧ Q (result_of (m s)).

(** ** Python builtins shared by the scripts *)

Module py.

(** [float]: finite values are identified with their exact rational
    value (the sign of a zero is not represented). *)
Inductive float : Type :=
  | Finite (q : Q)
  | PosInf
  | NegInf
  | NaN.

Definition Qltb (x y : Q) : bool := negb (Qle_bool y x).

(** [a < b] on floats: every comparison with NaN is false. *)
Definition lt (a b : float) : bool :=
  match a, b with
  | NaN, _ | _, NaN => false
  | Finite x, Finite y => Qltb x y
  | NegInf, Finite _ | NegInf, PosInf | Finite _, PosInf => true
  | _, _ => false
  end.

Definition gt (a b : float) : bool := lt b a.
Definition le (a b : float) : bool :=
  match a, b with
  | NaN, _ | _, NaN => false
  | Finite x, Finite y => Qle_bool x y
  | NegInf, _ | _, PosInf => true
  | _, _ => false
  end.

(** [min(a, b)] and [max(a, b)] with two positional arguments: the
    first argument is kept unless the second compares strictly below
    (resp. above) it. *)
Definition min2 (a b : float) : float := if lt b a then b else a.
Definition max2 (a b : float) : float := if gt b a then b else a.

(** [int(x)] on a finite float: truncation toward zero. *)
Definition int (q : Q) : Z := Z.quot (Qnum q) (Z.pos (Qden q)).

(** [str.lower()], on the ASCII letters. *)
Definition lower_char (c : ascii) : ascii :=
  let n := nat_of_ascii c in
  if (65 <=? n)%nat && (n <=? 90)%nat then ascii_of_nat (n + 32) else c.

Fixpoint lower (s : string) : string :=
  match s with
  | "" => ""
  | String c s' => String (lower_char c) (lower s')
  end.

(** [s.endswith(suffix)] and [s.startswith(prefix)]. *)
Definition startswith (s pre : string) : bool := String.prefix pre s.
Definition endswith (s suf : string) : bool :=
  String.prefix (String.rev suf) (String.rev s).

(** Round to the nearest integer, ties to the even one: the rounding
    of the decimal conversions. *)
Definition round_half_even (x : Q) : Z :=
  let f := Qfloor x in
  match (x - inject_Z f ?= 1 # 2)%Q with
  | Lt => f
  | Gt => (f + 1)%Z
  | Eq => if Z.even f then f else (f + 1)%Z
  end.

Definition two_digits (n : Z) : string :=
  if (n <? 10)%Z then "0" +:+ pretty n else pretty n.

(** The decimal notation of [n] hundredths, two digits after the point. *)
Definition hundredths (n : Z) : string :=
  pretty (n / 100)%Z +:+ "." +:+ two_digits (n mod 100)%Z.

(** ["%.2f" % a] for a magnitude [a >= 0]. *)
Definition fixed_2f (a : Q) : string :=
  hundredths (round_half_even (a * 100)).

Fixpoint zeros (k : nat) : string :=
  match k with
  | O => ""
  | S k' => String "0" (zeros k')
  end.

(** Zero padding of a signed number up to [width] characters. *)
Definition zero_pad (width : nat) (sign body : string) : string :=
  sign +:+ zeros (width - String.length sign - String.length body) +:+ body.

(** [f"{v:05.2f}"]: sign, then zeros up to a minimum width of five,
    then the digits. *)
Definition format_05_2f (v : float) : string :=
  let '(sign, body) :=
    match v with
    | Finite q => if Qltb q 0 then ("-", fixed_2f (- q)) else ("", fixed_2f q)
    | PosInf => ("", "inf")
    | NegInf => ("-", "inf")
    | NaN => ("", "nan")
    end in
  zero_pad 5 sign body.

(** [s[:n]] *)
Definition take (n : nat) (s : string) : string := String.substring 0 n s.

(** [pathlib]'s [a / b] on path strings: an absolute right operand
    replaces the left one. *)
Definition joinpath (a b : string) : string :=
  if startswith b "/" then b else a +:+ "/" +:+ b.

(** [Path.stem]: the name without its last suffix; a name whose only
    dot is its first or its last character has no suffix. *)
Definition stem (name : string) : string :=
  match String.index 0 "." (String.rev name) with
  | Some j =>
      let i := (String.length name - 1 - j)%nat in
      if (0 <? i)%nat && (0 <? j)%nat then String.substring 0 i name else name
  | None => name
  end.

End py.

(** ** scripts/dac_encode.py *)

Module dac_encode.

Inductive level := INFO | WARNING | ERROR.

Inductive arg :=
  | AStr (s : string)
  | AInt (z : Z)
  | AFloat (f : py.float).

Record encode_call := {
  input : string;
  output : string;
  model_bitrate : string;
  n_quantizers : Z;
  device : string;
  batch_size : Z
}.

Inductive event :=
  | Log (lv : level) (fmt : string) (args : list arg)
  | IsAvailable (backend : string)
  | ZerosTo (dev : string)
  | Mkdir (path : string)
  | Encode (c : encode_call).

Inductive exn :=
  | AssertionError (msg : string)
  | Exception (msg : string).

Inductive node :=
  | Directory (entries : list string)
  | RegularFile.

(** What the script observes of its environment: the accelerator
    backends of torch, the path given as input, the values returned by
    [random.random()] in order, and the outcome of each call of the
    codec's [encode]. *)
Record world := {
  mps_is_available : bool;
  cuda_is_available : bool;
  zeros_to : string → option string;
  lookup_path : string → option node;
  random_random : nat → Q;
  encode_raises : encode_call → option exn
}.

Record arguments := {
  arg_input_dir : string;
  arg_output_dir : string;
  arg_model_bitrate : string;
  arg_n_quantizers : Z;
  arg_device : string;
  arg_batch_size : Z;
  arg_class_name : string;
  arg_param1 : py.float;
  arg_randomize_param1 : bool
}.

(** The state is the number of random draws made so far. *)
Abbreviation script := (prog nat event).

Definition log (lv : level) (fmt : string) (args : list arg) : script unit :=
  emit (Log lv fmt args).

Definition is_available (w : world) (backend : string) : script bool :=
  emit (IsAvailable backend);;
  mret (if String.eqb backend "mps" then mps_is_available w
        else cuda_is_available w).

(** [torch.zeros(1).to(dev)]: [None] when the allocation works, the
    text of the exception otherwise. *)
Definition test_tensor (w : world) (dev : string) : script (option string) :=
  emit (ZerosTo dev);; mret (zeros_to w dev).

Definition try_mps (w : world) : script (option string) :=
  avail ← is_available w "mps";
  if (avail : bool) then
    log INFO "MPS (Apple Silicon) device detected, attempting to use it..." [];;
    r ← test_tensor w "mps";
    match r with
    | None => log INFO "MPS device is working properly" [];; mret (Some "mps")
    | Some e =>
        log WARNING "MPS device failed initialization: {e}" [AStr e];;
        mret None
    end
  else mret None.

Definition try_cuda (w : world) : script (option string) :=
  avail ← is_available w "cuda";
  if (avail : bool) then
    r ← test_tensor w "cuda";
    match r with
    | None => log INFO "CUDA device is working properly" [];; mret (Some "cuda")
    | Some e =>
        log WARNING "CUDA device failed initialization: {e}" [AStr e];;
        mret None
    end
  else mret None.

Definition get_available_device (w : world) (requested_device : string)
    : script string :=
  if negb (String.eqb (py.lower requested_device) "auto") then
    log INFO "Using user-specified device: {requested_device}"
      [AStr requested_device];;
    mret requested_device
  else
    m ← try_mps w;
    match m with
    | Some d => mret d
    | None =>
        c ← try_cuda w;
        match c with
        | Some d => mret d
        | None => log INFO "Using CPU as fallback device" [];; mret "cpu"
        end
    end.

Definition format_param_value (value : py.float) : string :=
  let value := py.max2 (py.Finite 0) (py.min2 (py.Finite 1) value) in
  py.take 5 (py.format_05_2f value).

Definition generate_output_filename
    (original_name class_name : string) (param1 : py.float) : string :=
  let formatted_param1 := format_param_value param1 in
  class_name +:+ "--param1-" +:+ formatted_param1 +:+ ".dac".

(** [random.random()] *)
Definition random (w : world) : script py.float :=
  i ← get_state;
  put_state (S i);;
  mret (py.Finite (random_random w i)).

(** [encode(input=..., output=..., ...)] of the codec library. *)
Definition encode (w : world) (c : encode_call) : script (option exn) :=
  emit (Encode c);; mret (encode_raises w c).

Definition pick_param1 (w : world) (args : arguments) (param1 : py.float)
    : script py.float :=
  if arg_randomize_param1 args then random w else mret param1.

(** The body of [for audio_file in audio_files]; the result is the
    exception that left the loop, if any. *)
Fixpoint encode_each (w : world) (args : arguments) (param1 : py.float)
    (device : string) (audio_files : list string) : script (option exn) :=
  match audio_files with
  | [] => mret None
  | name :: rest =>
      let audio_file := py.joinpath (arg_input_dir args) name in
      p ← pick_param1 w args param1;
      let output_filename :=
        generate_output_filename (py.stem name) (arg_class_name args) p in
      let output_file := py.joinpath (arg_output_dir args) output_filename in
      log INFO "Processing {audio_file.name} -> {output_filename}"
        [AStr name; AStr output_filename];;
      r ← encode w {| input := audio_file;
                      output := output_file;
                      model_bitrate := arg_model_bitrate args;
                      n_quantizers := arg_n_quantizers args;
                      device := device;
                      batch_size := arg_batch_size args |};
      match r with
      | Some e => mret (Some e)
      | None => encode_each w args param1 device rest
      end
  end.

(** [input_dir.glob(pattern)] for the patterns ["*.wav"] and ["*.mp3"]. *)
Definition glob_suffix (entries : list string) (suffix : string) : list string :=
  filter (λ name, py.endswith name suffix = true) entries.

Definition encode_single (w : world) (args : arguments) (param1 : py.float)
    (device : string) : script (option exn) :=
  p ← pick_param1 w args param1;
  let output_filename :=
    generate_output_filename (py.stem (arg_input_dir args))
      (arg_class_name args) p in
  let output_file := py.joinpath (arg_output_dir args) output_filename in
  r ← encode w {| input := arg_input_dir args;
                  output := output_file;
                  model_bitrate := arg_model_bitrate args;
                  n_quantizers := arg_n_quantizers args;
                  device := device;
                  batch_size := arg_batch_size args |};
  match r with
  | Some e => mret (Some e)
  | None =>
      log INFO "Encoded single file to: {output_file}" [AStr output_file];;
      mret None
  end.

Definition main (w : world) (args : arguments) : script unit :=
  let param1 := py.max2 (py.Finite 0) (py.min2 (py.Finite 1) (arg_param1 args)) in
  let input_dir := arg_input_dir args in
  let output_dir := arg_output_dir args in
  emit (Mkdir output_dir);;
  match lookup_path w input_dir with
  | None =>
      log ERROR "Input directory {input_dir} does not exist" [AStr input_dir]
  | Some nd =>
      device ← get_available_device w (arg_device args);
      log INFO "Encoding files from {input_dir} to {output_dir}"
        [AStr input_dir; AStr output_dir];;
      log INFO "Using device: {device}" [AStr device];;
      log INFO "Model bitrate: {args.model_bitrate}"
        [AStr (arg_model_bitrate args)];;
      log INFO "Number of quantizers: {args.n_quantizers}"
        [AInt (arg_n_quantizers args)];;
      log INFO "Class name: {args.class_name}" [AStr (arg_class_name args)];;
      (if arg_randomize_param1 args
       then log INFO "Randomizing param1 values between 0.0 and 1.0" []
       else log INFO "Using param1 value: {args.param1}" [AFloat param1]);;
      r ← match nd with
          | Directory entries =>
              let audio_files :=
                glob_suffix entries ".wav" ++ glob_suffix entries ".mp3" in
              log INFO "Found {len(audio_files)} audio files in directory: {input_dir}"
                [AInt (Z.of_nat (length audio_files)); AStr input_dir];;
              r ← encode_each w args param1 device audio_files;
              match r with
              | Some e => mret (Some e)
              | None =>
                  log INFO "All files encoded to: {output_dir}" [AStr output_dir];;
                  mret None
              end
          | RegularFile => encode_single w args param1 device
          end;
      match r with
      | None => log INFO "Encoding completed successfully!" []
      | Some (AssertionError e) =>
          log ERROR "Assertion error: {e}" [AStr e];;
          if negb (String.eqb device "cpu")
          then log INFO "If {device} error, try again with --device cpu"
                 [AStr device]
          else mret tt
      | Some (Exception e) =>
          log ERROR "Error during encoding: {e}" [AStr e];;
          log ERROR "{traceback.format_exc()}" []
      end
  end.

(** The encode calls of a trace, in order. *)
Definition encode_calls (t : list event) : list encode_call :=
  omap (λ e, match e with Encode c => Some c | _ => None end) t.

(** The capability probes of a trace, in order. *)
Definition is_probe (e : event) : bool :=
  match e with
  | IsAvailable _ | ZerosTo _ => true
  | _ => false
  end.

Definition probes (t : list event) : list event :=
  filter (λ e, is_probe e = true) t.

(** The device the probing order of the specification selects: MPS when
    it is available and its test allocation works, else CUDA likewise,
    else the CPU. *)
Definition expected_device (w : world) : string :=
  if mps_is_available w && bool_decide (zeros_to w "mps" = None) then "mps"
  else if cuda_is_available w && bool_decide (zeros_to w "cuda" = None) then "cuda"
  else "cpu".

Definition probe_order : list event :=
  [IsAvailable "mps"; ZerosTo "mps"; IsAvailable "cuda"; ZerosTo "cuda"].

(** The selector's contract with the request compared literally with
    ["auto"]. *)
Definition selects_literally (w : world) (requested_device : string) : Prop :=
  let r := get_available_device w requested_device 0%nat in
  (requested_device = "auto" → result_of r = expected_device w)
  ∧ (requested_device ≠ "auto" →
     result_of r = requested_device ∧ probes (trace_of r) = []).

(** A machine without accelerator, an empty input directory. *)
Definition cpu_only : world := {|
  mps_is_available := false;
  cuda_is_available := false;
  zeros_to := λ _, Some "no such device";
  lookup_path := λ p, if String.eqb p "in" then Some (Directory []) else None;
  random_random := λ _, 0%Q;
  encode_raises := λ _, None
|}.

(** A machine whose MPS backend is reported but fails, with CUDA
    working, and an input directory of three entries. *)
Definition cuda_box : world := {|
  mps_is_available := true;
  cuda_is_available := true;
  zeros_to := λ d, if String.eqb d "cuda" then None else Some "MPS backend out of memory";
  lookup_path := λ p,
    if String.eqb p "in" then Some (Directory ["a.wav"; "notes.txt"; "b.mp3"])
    else None;
  random_random := λ i, (1 # Pos.of_nat (i + 2))%Q;
  encode_raises := λ _, None
|}.

Definition sample_args : arguments := {|
  arg_input_dir := "in";
  arg_output_dir := "out";
  arg_model_bitrate := "8kbps";
  arg_n_quantizers := 4;
  arg_device := "auto";
  arg_batch_size := 1;
  arg_class_name := "Zelda";
  arg_param1 := py.Finite (1 # 2);
  arg_randomize_param1 := false
|}.

(** An event is compatible with [path] being the only output path. *)
Definition writes_to (path : string) (e : event) : Prop :=
  match e with
  | Encode c => output c = path
  | _ => True
  end.

(** The path every file is encoded to when [param1] is fixed. *)
Definition fixed_output (args : arguments) : string :=
  py.joinpath (arg_output_dir args)
    (generate_output_filename "" (arg_class_name args)
       (py.max2 (py.Finite 0) (py.min2 (py.Finite 1) (arg_param1 args)))).

(** The clamp of a real number to the unit interval, as the
    specification words it. *)
Definition clamp01 (x : Q) : Q := Qmax 0 (Qmin 1 x).

(** The text [d1 d2 . d3 d4] and the number it denotes. *)
Definition digit (d : nat) : ascii := ascii_of_nat (48 + d).

Definition NN_NN (d1 d2 d3 d4 : nat) : string :=
  String (digit d1) (String (digit d2)
    (String "." (String (digit d3) (String (digit d4) "")))).

Definition NN_NN_value (d1 d2 d3 d4 : nat) : Q :=
  inject_Z (Z.of_nat (10 * d1 + d2))
  + inject_Z (Z.of_nat (10 * d3 + d4)) / 100.

(** Checked on every [k] from 0 to 100: the formatted text of [k]
    hundredths is [0 d2 . d3 d4] with the decimal digits of [k]. *)
Definition hundredths_shape_ok (k : nat) : bool :=
  String.eqb (py.take 5 (py.zero_pad 5 "" (py.hundredths (Z.of_nat k))))
             (NN_NN 0 (k / 100) (k mod 100 / 10) (k mod 10))
  && (k / 100 <? 10)%nat && (k mod 100 / 10 <? 10)%nat && (k mod 10 <? 10)%nat
  && (100 * (k / 100) + (10 * (k mod 100 / 10) + k mod 10) =? k)%nat.

End dac_encode.

(** ** split_excel_data.py *)

Module split_excel_data.

(** A spreadsheet row.  An empty [Class Name] cell is read as NaN,
    which is [None] here: it is equal to no label, itself included. *)
Record row := {
  Full_File_Name : string;
  Class_Name : option string
}.

(** A [DataFrame]: the rows with their index labels. *)
Abbreviation frame := (list (nat * row)).

(** [pd.read_excel] and [ignore_index=True] label the rows 0, 1, 2, ... *)
Definition range_index (rows : list row) : frame := imap (λ i r, (i, r)) rows.

Definition label_eqb (a b : option string) : bool :=
  match a, b with
  | Some x, Some y => String.eqb x y
  | _, _ => false
  end.

(** [df[df['Class Name'] == cls]] *)
Definition select_class (df : frame) (cls : option string) : frame :=
  filter (λ ir, label_eqb (Class_Name ir.2) cls = true) df.

(** [Series.unique()]: the distinct values in order of first appearance
    (all NaN count as one value). *)
Fixpoint unique (l : list (option string)) : list (option string) :=
  match l with
  | [] => []
  | x :: l' => x :: filter (λ y, y ≠ x) (unique l')
  end.

Inductive exn :=
  | ValueError (msg : string)
  | FileNotFoundError (msg : string).

Inductive outcome (A : Type) :=
  | Ok (a : A)
  | Raise (e : exn).
Arguments Ok {A} a.
Arguments Raise {A} e.

(** numpy's generators.  [RandomState seed] is the generator state a
    seed initialises; [permutation g n] is the first permutation of
    [0 .. n-1] drawn from the state [g].  The seeds are those numpy
    accepts. *)
Class numpy_random := {
  seed : Type;
  rng : Type;
  RandomState : seed → rng;
  permutation : rng → nat → list nat;
  permutation_Permutation : ∀ g n, permutation g n ≡ₚ seq 0 n
}.

Inductive arg :=
  | AStr (s : string)
  | AInt (z : Z)
  | ALabel (l : option string).

Inductive event :=
  | Print (fmt : string) (args : list arg)
  | Makedirs (path : string)
  | ToExcel (path : string) (rows : list row).

Section script.
Context `{numpy_random}.

(** The state is numpy's global generator. *)
Abbreviation script := (prog rng event).

Definition print (fmt : string) (args : list arg) : script unit :=
  emit (Print fmt args).

(** [df.sample(n=n, random_state=random_state)]: a fresh generator is
    made from the seed; without replacement the rows at the first [n]
    positions of its permutation are taken; a negative [n] and an [n]
    above the number of rows are errors. *)
Definition sample (df : frame) (n : Z) (random_state : seed) : outcome frame :=
  if (n <? 0)%Z then
    Raise (ValueError "A negative number of rows requested. Please provide `n` >= 0.")
  else if (Z.of_nat (length df) <? n)%Z then
    Raise (ValueError "Cannot take a larger sample than population when 'replace=False'")
  else
    Ok (omap (λ i, df !! i)
          (take (Z.to_nat n) (permutation (RandomState random_state) (length df)))).

(** [df.drop(index)] *)
Definition drop (df : frame) (index : list nat) : frame :=
  filter (λ ir, ir.1 ∉ index) df.

(** [for cls in unique_classes: ...], with the two lists the loop
    appends to. *)
Fixpoint for_each_class (df : frame) (samples_per_class : Z) (train_ratio : Q)
    (random_seed : seed) (train_count val_count : Z)
    (unique_classes : list (option string))
    (train_samples val_samples : list frame)
    : script (outcome (list frame * list frame)) :=
  match unique_classes with
  | [] => mret (Ok (train_samples, val_samples))
  | cls :: rest =>
      let continue := for_each_class df samples_per_class train_ratio
                        random_seed train_count val_count rest in
      let split (sampled_data : frame) (adjusted_train : Z) :=
        match sample sampled_data adjusted_train random_seed with
        | Raise e => mret (Raise e)
        | Ok train_data =>
            let val_data := drop sampled_data train_data.*1 in
            continue (train_samples ++ [train_data]) (val_samples ++ [val_data])
        end in
      let class_samples := select_class df cls in
      let len := Z.of_nat (length class_samples) in
      if (len <? samples_per_class)%Z then
        print "Warning: Class {cls} has only {len(class_samples)} samples, fewer than the requested {samples_per_class}"
          [ALabel cls; AInt len; AInt samples_per_class];;
        if (len =? 0)%Z then
          print "Skipping class {cls} as it has no samples" [ALabel cls];;
          continue train_samples val_samples
        else
          let adjusted_train := Z.max 1 (py.int (inject_Z len * train_ratio)) in
          split class_samples adjusted_train
      else
        match sample class_samples samples_per_class random_seed with
        | Raise e => mret (Raise e)
        | Ok sampled_data => split sampled_data train_count
        end
  end.

(** [pd.concat(frames, ignore_index=True)] *)
Definition concat (frames : list frame) : outcome (list row) :=
  match frames with
  | [] => Raise (ValueError "No objects to concatenate")
  | _ => Ok (mjoin frames).*2
  end.

(** [os.path.dirname], [os.path.join] and [os.makedirs(exist_ok=True)]. *)
Fixpoint dirname_rev (r : string) : string :=
  match r with
  | "" => ""
  | String c r' => if Ascii.eqb c "/" then r else dirname_rev r'
  end.

Fixpoint lstrip_slashes (r : string) : string :=
  match r with
  | String "/" r' => lstrip_slashes r'
  | _ => r
  end.

(** The head up to the last slash; trailing slashes of the head are
    stripped unless it consists of slashes only. *)
Definition dirname (p : string) : string :=
  let head_rev := dirname_rev (String.rev p) in
  match lstrip_slashes head_rev with
  | "" => String.rev head_rev
  | stripped => String.rev stripped
  end.

Definition join (a b : string) : string :=
  if py.startswith b "/" then b
  else if String.eqb a "" || py.endswith a "/" then a +:+ b
  else a +:+ "/" +:+ b.

Definition makedirs (path : string) : script (outcome unit) :=
  if String.eqb path "" then
    mret (Raise (FileNotFoundError "[Errno 2] No such file or directory: ''"))
  else emit (Makedirs path);; mret (Ok tt).

Definition count_class (rows : list row) (cls : option string) : Z :=
  Z.of_nat (length (filter (λ r, label_eqb (Class_Name r) cls = true) rows)).

(** The closing report, [for cls in unique_classes: ...]. *)
Fixpoint report (train_df val_df : list row) (unique_classes : list (option string))
    : script unit :=
  match unique_classes with
  | [] => mret tt
  | cls :: rest =>
      let train_count := count_class train_df cls in
      let val_count := count_class val_df cls in
      let total := (train_count + val_count)%Z in
      (if (0 <? total)%Z then
         print "Class {cls}: {train_count} train ({train_count/total:.1%}), {val_count} val ({val_count/total:.1%})"
           [ALabel cls; AInt train_count; AInt val_count; AInt total]
       else print "Class {cls}: No samples" [ALabel cls]);;
      report train_df val_df rest
  end.

(** The function, from the rows [pd.read_excel] returns. *)
Definition create_train_val_split (input_excel_path : string) (sheet : list row)
    (output_dir : option string) (samples_per_class : Z) (train_ratio : Q)
    (random_seed : seed) : script (outcome unit) :=
  put_state (RandomState random_seed);;
  let df := range_index sheet in
  let unique_classes := unique (Class_Name <$> sheet) in
  let train_count := py.int (inject_Z samples_per_class * train_ratio) in
  let val_count := (samples_per_class - train_count)%Z in
  print "For each class: {train_count} samples for training, {val_count} samples for validation"
    [AInt train_count; AInt val_count];;
  r ← for_each_class df samples_per_class train_ratio random_seed
         train_count val_count unique_classes [] [];
  match r with
  | Raise e => mret (Raise e)
  | Ok (train_samples, val_samples) =>
      match concat train_samples, concat val_samples with
      | Raise e, _ | Ok _, Raise e => mret (Raise e)
      | Ok train_df, Ok val_df =>
          let output_dir := default (dirname input_excel_path) output_dir in
          m ← makedirs output_dir;
          match m with
          | Raise e => mret (Raise e)
          | Ok _ =>
              let train_path := join output_dir "dac-train.xlsx" in
              let val_path := join output_dir "dac-val.xlsx" in
              emit (ToExcel train_path train_df);;
              emit (ToExcel val_path val_df);;
              print "\nCreated training set with {len(train_df)} samples at {train_path}"
                [AInt (Z.of_nat (length train_df)); AStr train_path];;
              print "Created validation set with {len(val_df)} samples at {val_path}"
                [AInt (Z.of_nat (length val_df)); AStr val_path];;
              print "\nClass distribution:" [];;
              report train_df val_df unique_classes;;
              mret (Ok tt)
          end
      end
  end.

(** The rows the loop has assigned to each set, once it is over. *)
Definition assigned (df : frame) (samples_per_class : Z) (train_ratio : Q)
    (random_seed : seed) (g : rng) : outcome (list row * list row) :=
  let train_count := py.int (inject_Z samples_per_class * train_ratio) in
  let val_count := (samples_per_class - train_count)%Z in
  let unique_classes := unique ((λ ir, Class_Name ir.2) <$> df) in
  match result_of (for_each_class df samples_per_class train_ratio random_seed
                     train_count val_count unique_classes [] [] g) with
  | Raise e => Raise e
  | Ok (train_samples, val_samples) =>
      Ok ((mjoin train_samples).*2, (mjoin val_samples).*2)
  end.





End script.

(** A generator for the examples: the permutation drawn is the
    reversal, whatever the seed. *)
Global Instance reversing : numpy_random := {|
  seed := Z;
  rng := Z;
  RandomState := λ s, s;
  permutation := λ _ n, reverse (seq 0 n);
  permutation_Permutation := λ _ n, reverse_Permutation (seq 0 n)
|}.

Definition zelda_sheet : list row := [
  {| Full_File_Name := "a--param1-00.10.dac"; Class_Name := Some "a" |};
  {| Full_File_Name := "b--param1-00.20.dac"; Class_Name := Some "b" |};
  {| Full_File_Name := "a--param1-00.30.dac"; Class_Name := Some "a" |};
  {| Full_File_Name := "a--param1-00.40.dac"; Class_Name := Some "a" |};
  {| Full_File_Name := "orphan.dac"; Class_Name := None |};
  {| Full_File_Name := "a--param1-00.50.dac"; Class_Name := Some "a" |};
  {| Full_File_Name := "a--param1-00.60.dac"; Class_Name := Some "a" |}
].


End split_excel_data.

(** ** wav-extract.py *)

Module wav_extract.

Inductive arg :=
  | AFloat (q : Q).

(** The samples are integers here; nothing below looks into them. *)
Abbreviation audio := (list Z).

Inductive event :=
  | Print (fmt : string) (args : list arg)
  | SfWrite (path : string) (data : audio) (samplerate : positive).

(** The environment: what [librosa.load(path, sr=None)] returns (the
    decoded signal and its sample rate), and the 53 random bits behind
    each call of [random.random()]. *)
Record world := {
  load : string → audio * positive;
  random_bits : nat → N
}.

(** The state is the number of random draws made so far. *)
Abbreviation script := (prog nat event).

Definition print (fmt : string) (args : list arg) : script unit :=
  emit (Print fmt args).

(** [librosa.get_duration(y=y, sr=sr)] *)
Definition get_duration (y : audio) (sr : positive) : Q :=
  (inject_Z (Z.of_nat (length y)) / inject_Z (Z.pos sr))%Q.

(** [random.random()]: a 53-bit integer over [2^53], in [[0, 1)]. *)
Definition random (w : world) : script Q :=
  i ← get_state;
  put_state (S i);;
  mret (inject_Z (Z.of_N (random_bits w i) mod 2 ^ 53) / inject_Z (2 ^ 53))%Q.

(** [random.uniform(a, b)] is [a + (b - a) * random()]. *)
Definition uniform (w : world) (a b : Q) : script Q :=
  r ← random w;
  mret (a + (b - a) * r)%Q.

(** A slice bound as Python normalises it: a negative bound counts
    from the end, and the result is clipped to the length. *)
Definition slice_bound (i len : Z) : Z :=
  if (i <? 0)%Z then Z.max (i + len) 0 else Z.min i len.

(** [y[start:stop]] *)
Definition slice (y : audio) (start stop : Z) : audio :=
  let len := Z.of_nat (length y) in
  let a := slice_bound start len in
  let b := slice_bound stop len in
  take (Z.to_nat (b - a)) (drop (Z.to_nat a) y).

Definition extract_random_segment (w : world) (input_wav output_wav : string)
    (segment_duration : Q) : script unit :=
  let '(y, sr) := load w input_wav in
  let total_duration := get_duration y sr in
  if Qle_bool total_duration segment_duration then
    print "Audio file is too short for a random segment. Copying entire file." [];;
    emit (SfWrite output_wav y sr)
  else
    let max_start_time := (total_duration - segment_duration)%Q in
    start_time ← uniform w 0 max_start_time;
    let start_sample := py.int (start_time * inject_Z (Z.pos sr))%Q in
    let end_sample :=
      (start_sample + py.int (segment_duration * inject_Z (Z.pos sr))%Q)%Z in
    let segment := slice y start_sample end_sample in
    emit (SfWrite output_wav segment sr);;
    print "Extracted segment from {start_time:.2f} to {start_time + segment_duration:.2f} seconds."
      [AFloat start_time; AFloat (start_time + segment_duration)%Q].




End wav_extract.

(** ** scripts/rename_dac_files.py *)

Module rename_dac_files.

(** The directory: its regular files by name, with their contents. *)
Abbreviation directory := (gmap string string).

Inductive arg :=
  | AStr (s : string).

(** [Rename old new replaced]: [os.rename(old, new)]; [replaced] tells
    whether an entry named [new] existed when the call was made. *)
Inductive event :=
  | Print (fmt : string) (args : list arg)
  | Rename (old new : string) (replaced : bool).

Inductive outcome :=
  | Returned
  | FileNotFoundError (path : string).

Abbreviation script := (prog directory event).

Definition print (fmt : string) (args : list arg) : script unit :=
  emit (Print fmt args).

Definition is_digit (c : ascii) : bool :=
  let n := nat_of_ascii c in (48 <=? n)%nat && (n <=? 57)%nat.

(** The longest prefix of digits, and what follows it. *)
Fixpoint span_digits (s : string) : string * string :=
  match s with
  | "" => ("", "")
  | String c s' =>
      if is_digit c then
        let '(d, r) := span_digits s' in (String c d, r)
      else ("", s)
  end.

Fixpoint strip_prefix (pre s : string) : option string :=
  match pre, s with
  | "", _ => Some s
  | String a pre', String b s' =>
      if Ascii.eqb a b then strip_prefix pre' s' else None
  | String _ _, "" => None
  end.

(** Does [.*?(\.dac)] match at the start of [s]: the text [.dac]
    occurs, with no line feed before it. *)
Fixpoint lazy_then_dac (s : string) : bool :=
  match s with
  | "" => false
  | String c s' =>
      if String.prefix ".dac" s then true
      else if Ascii.eqb c "010" then false
      else lazy_then_dac s'
  end.

(** [re.match(r"(Zelda--param1-\d+\.\d+).*?(\.dac)", filename)]: the
    two groups of the match.  Both digit runs are greedy, and giving
    digits back cannot turn a failure into a match, so the groups are
    those of the longest runs. *)
Definition re_match (filename : string) : option (string * string) :=
  rest ← strip_prefix "Zelda--param1-" filename;
  let '(d1, r1) := span_digits rest in
  if String.eqb d1 "" then None else
  r2 ← strip_prefix "." r1;
  let '(d2, r3) := span_digits r2 in
  if String.eqb d2 "" then None else
  if lazy_then_dac r3
  then Some ("Zelda--param1-" +:+ d1 +:+ "." +:+ d2, ".dac")
  else None.

(** [os.rename(old, new)] inside the directory. *)
Definition os_rename (old new : string) : script outcome :=
  d ← get_state;
  match d !! old with
  | None => mret (FileNotFoundError old)
  | Some c =>
      emit (Rename old new (bool_decide (is_Some (d !! new))));;
      put_state (<[new := c]> (delete old d));;
      mret Returned
  end.

Definition os_path_exists (name : string) : script bool :=
  d ← get_state;
  mret (bool_decide (is_Some (d !! name))).

(** [for old_path in dac_files: ...] on the file names. *)
Fixpoint for_each_file (dac_files : list string) : script outcome :=
  match dac_files with
  | [] => mret Returned
  | filename :: rest =>
      match re_match filename with
      | Some (base, ext) =>
          let new_filename := base +:+ ext in
          if negb (String.eqb filename new_filename) then
            taken ← os_path_exists new_filename;
            if (taken : bool) then
              print "Warning: {new_filename} already exists, skipping {filename}"
                [AStr new_filename; AStr filename];;
              for_each_file rest
            else
              print "Renaming {filename} -> {new_filename}"
                [AStr filename; AStr new_filename];;
              r ← os_rename filename new_filename;
              match r with
              | Returned => for_each_file rest
              | FileNotFoundError p => mret (FileNotFoundError p)
              end
          else for_each_file rest
      | None =>
          print "Warning: {filename} does not match the expected pattern, skipping"
            [AStr filename];;
          for_each_file rest
      end
  end.

(** [glob.glob(os.path.join(directory, "*.dac"))]: the names ending
    in [.dac] that do not start with a dot, in the order in which the
    directory lists them. *)
Definition glob_dac (d : directory) : list string :=
  filter (λ name, py.endswith name ".dac" = true ∧ py.startswith name "." = false)
    (map_to_list d).*1.

Definition rename_dac_files : script outcome :=
  d ← get_state;
  for_each_file (glob_dac d).

(** The body of [if __name__ == "__main__"], for a directory that
    exists ([Some d]) or not ([None]). *)
Definition main (directory_name : string) (d : option directory)
    : outcome * option directory * list event :=
  match d with
  | Some d =>
      let '(r, d', t) := rename_dac_files d in
      match r with
      | Returned =>
          (Returned, Some d',
           t ++ [Print "Successfully processed files in {directory}" [AStr directory_name]])
      | FileNotFoundError p => (FileNotFoundError p, Some d', t)
      end
  | None =>
      (Returned, None,
       [Print "Error: Directory {directory} does not exist" [AStr directory_name]])
  end.

(** The destinations of the renames of a trace and whether each
    replaced an entry. *)
Definition renames (t : list event) : list (string * string * bool) :=
  omap (λ e, match e with Rename o n b => Some (o, n, b) | _ => None end) t.

(** The contents of the files of a directory, with multiplicity. *)
Definition contents (d : directory) : list string := (map_to_list d).*2.

(** What the specification says of a file whose intended name is
    taken: it is moved to the intended name followed by [_k] for some
    number [k]. *)
Definition suffixed_on_collision (d : directory) (dac_files : list string) : Prop :=
  ∀ filename base ext,
    filename ∈ dac_files →
    re_match filename = Some (base, ext) →
    filename ≠ base +:+ ext →
    is_Some (d !! (base +:+ ext)) →
    ∃ (k : nat) (b : bool),
      (filename, (base +:+ ext) +:+ "_" +:+ pretty k, b)
        ∈ renames (trace_of (for_each_file dac_files d)).

(** A run from [d] that lost no content and replaced no entry. *)
Definition safe_run (d : directory) (r : outcome * directory * list event) : Prop :=
  contents (state_of r) ≡ₚ contents d
  ∧ Forall (λ m : string * string * bool, m.2 = false) (renames (trace_of r)).

Definition zelda_dir : directory :=
  list_to_map [
    ("Zelda--param1-00.50.dac", "first take");
    ("Zelda--param1-00.50_v2.dac", "second take");
    ("Zelda--param1-00.75-raw.dac", "third take");
    ("notes.dac", "not a sample")
  ].

End rename_dac_files.

(** ** scripts/rename_files.py *)

Module rename_files.

Inductive level := INFO | WARNING | ERROR.

(** An entry of a [.dac] sub-directory: a regular file with its
    contents, or something else (a nested directory). *)
Inductive entry :=
  | EFile (content : string)
  | EOther.

(** An entry of the target directory. *)
Inductive node :=
  | File (content : string)
  | Dir (entries : gmap string entry).

Abbreviation directory := (gmap string node).

Inductive arg :=
  | AStr (s : string)
  | AInt (z : Z).

(** [Move src dst replaced]: [shutil.move] of the file [src] (a
    sub-directory and a name in it) to the name [dst] of the target
    directory; [replaced] tells whether [dst] existed at that time. *)
Inductive event :=
  | Log (lv : level) (fmt : string) (args : list arg)
  | Move (src : string * string) (dst : string) (replaced : bool)
  | Rmdir (name : string).

(** [None] stands for a [while] loop that has not ended within its
    fuel. *)
Abbreviation script := (prog directory event).

Definition log (lv : level) (fmt : string) (args : list arg) : script unit :=
  emit (Log lv fmt args).

(** [f"{name}_{suffix}"] *)
Definition suffixed (name : string) (suffix : nat) : string :=
  name +:+ "_" +:+ pretty suffix.

(** [while new_dest.exists(): suffix += 1; new_dest = ...], entered
    with the candidate of [suffix]; each unit of fuel pays for one test
    of the loop condition. *)
Fixpoint while_exists (base : directory) (name : string) (suffix fuel : nat)
    : option string :=
  match fuel with
  | O => None
  | S fuel' =>
      if bool_decide (is_Some (base !! suffixed name suffix))
      then while_exists base name (S suffix) fuel'
      else Some (suffixed name suffix)
  end.

(** The destination chosen for the intended [name]; the fuel given to
    the loop is one more than the number of entries of the directory. *)
Definition free_destination (base : directory) (name : string) : option string :=
  if bool_decide (is_Some (base !! name))
  then while_exists base name 1 (S (size base))
  else Some name.

(** [shutil.move(str(src), str(dest))] for a regular file of the
    sub-directory [subdir], followed by nothing else. *)
Definition shutil_move (subdir file : string) (content : string) (dest : string)
    : script unit :=
  base ← get_state;
  emit (Move (subdir, file) dest (bool_decide (is_Some (base !! dest))));;
  let base := match base !! subdir with
              | Some (Dir entries) => <[subdir := Dir (delete file entries)]> base
              | _ => base
              end in
  put_state (<[dest := File content]> base).

(** [subdir.rmdir()] on an empty sub-directory. *)
Definition rmdir (subdir : string) : script unit :=
  base ← get_state;
  emit (Rmdir subdir);;
  put_state (delete subdir base).

(** [list(subdir.glob("*"))] *)
Definition glob_all (base : directory) (subdir : string) : list (string * entry) :=
  match base !! subdir with
  | Some (Dir entries) => map_to_list entries
  | _ => []
  end.

(** [for file in files: if file.is_file(): ...] of the branch for
    several files; [false] when a destination search ran out of fuel. *)
Fixpoint move_each (subdir : string) (files : list (string * entry)) : script bool :=
  match files with
  | [] => mret true
  | (name, EOther) :: rest => move_each subdir rest
  | (name, EFile content) :: rest =>
      base ← get_state;
      let new_filename := py.stem subdir +:+ "--" +:+ name in
      match free_destination base new_filename with
      | None => mret false
      | Some dest_file =>
          log INFO "Moving {file} to {dest_file}"
            [AStr (py.joinpath subdir name); AStr dest_file];;
          shutil_move subdir name content dest_file;;
          move_each subdir rest
      end
  end.

(** The [else] branch: several entries, or a single one that is not a
    regular file. *)
Definition move_all (subdir : string) (files : list (string * entry)) : script bool :=
  log INFO "Directory {subdir} contains {len(files)} files, processing each file"
    [AStr subdir; AInt (Z.of_nat (length files))];;
  ok ← move_each subdir files;
  if (ok : bool) then
    base ← get_state;
    let remaining_files := glob_all base subdir in
    match remaining_files with
    | [] =>
        log INFO "Removing now-empty directory {subdir}" [AStr subdir];;
        rmdir subdir;;
        mret true
    | _ =>
        log WARNING "Directory {subdir} still contains {len(remaining_files)} items, not removing"
          [AStr subdir; AInt (Z.of_nat (length remaining_files))];;
        mret true
    end
  else mret false.

(** The body of [for subdir in base_dir.iterdir()] for one name. *)
Definition process (subdir : string) : script bool :=
  base ← get_state;
  match base !! subdir with
  | Some (Dir _) =>
      if py.endswith subdir ".dac" then
        let files := glob_all base subdir in
        match files with
        | [] =>
            log INFO "Directory {subdir} is empty, removing it" [AStr subdir];;
            rmdir subdir;;
            mret true
        | [(name, EFile content)] =>
            match free_destination base subdir with
            | None => mret false
            | Some dest_file =>
                log INFO "Renaming {src_file} to {dest_file}"
                  [AStr (py.joinpath subdir name); AStr dest_file];;
                shutil_move subdir name content dest_file;;
                rmdir subdir;;
                mret true
            end
        | _ => move_all subdir files
        end
      else mret true
  | _ => mret true
  end.

Fixpoint for_each_subdir (names : list string) : script bool :=
  match names with
  | [] => mret true
  | subdir :: rest =>
      ok ← process subdir;
      if (ok : bool) then for_each_subdir rest else mret false
  end.

(** [main], for a target directory that exists ([Some base]) or not
    ([None]).  [base_dir.iterdir()] lists the names once, before the
    loop body runs. *)
Definition main (target_dir : string) (base : option directory)
    : bool * option directory * list event :=
  match base with
  | None =>
      (true, None,
       [Log ERROR "Target directory {base_dir} does not exist." [AStr target_dir]])
  | Some base =>
      let '(ok, base', t) := for_each_subdir (map_to_list base).*1 base in
      (ok, Some base', t)
  end.

(** The moves of a trace. *)
Definition moves (t : list event) : list (string * string * string * bool) :=
  omap (λ e, match e with
             | Move (d, f) dst b => Some (d, f, dst, b)
             | _ => None
             end) t.

Definition no_replacement (e : event) : Prop :=
  match e with
  | Move _ _ replaced => replaced = false
  | _ => True
  end.

(** Every regular file of [base] is still in [base'], unchanged. *)
Definition keeps_files (base base' : directory) : Prop :=
  ∀ name content, base !! name = Some (File content) →
                  base' !! name = Some (File content).

(** A run from [base] in which every loop ended, no move replaced an
    entry, and no regular file of the target directory was touched. *)
Definition flat_run (base : directory) (r : bool * directory * list event) : Prop :=
  result_of r = true
  ∧ Forall no_replacement (trace_of r)
  ∧ keeps_files base (state_of r).

Definition encoded : directory :=
  list_to_map [
    ("a.dac", Dir (list_to_map [("codes.dac", EFile "A")]));
    ("a.dac_1", File "older run");
    ("b.dac", Dir (list_to_map [("x.dac", EFile "B1"); ("y.dac", EFile "B2");
                                ("tmp", EOther)]));
    ("b--x.dac", File "kept");
    ("c.dac", Dir ∅);
    ("readme.txt", File "text")
  ].

End rename_files.

(** ** scripts/reorganize_dac_files.py *)

Module reorganize_dac_files.

(** The file system: the directories that exist, each with its regular
    files by name.  A directory is identified by the string that names
    it on the command line, a file by its directory and its name. *)
Abbreviation filesystem := (gmap string (gmap string string)).
Abbreviation path := (string * string)%type.

Definition lookup_file (fs : filesystem) (p : path) : option string :=
  fs !! p.1 ≫= λ files, files !! p.2.

Definition write_file (fs : filesystem) (p : path) (content : string) : filesystem :=
  <[p.1 := <[p.2 := content]> (default ∅ (fs !! p.1))]> fs.

Definition remove_file (fs : filesystem) (p : path) : filesystem :=
  match fs !! p.1 with
  | Some files => <[p.1 := delete p.2 files]> fs
  | None => fs
  end.

Inductive arg :=
  | AStr (s : string)
  | AInt (z : Z)
  | AList (l : list string).

(** [Copy2 src dst replaced] and [MoveFile src dst replaced]: the calls
    of [shutil.copy2] and [shutil.move]; [replaced] tells whether the
    destination existed when the call was made. *)
Inductive event :=
  | Print (fmt : string) (args : list arg)
  | Makedirs (dir : string)
  | Copy2 (src dst : path) (replaced : bool)
  | MoveFile (src dst : path) (replaced : bool).

Inductive outcome :=
  | Returned
  | SameFileError (src dst : path)
  | FileNotFoundError (dir : string).

(** What the two spreadsheets hold: the [Full File Name] column of
    the sheet at a path, or the text of the exception that reading it
    raises. *)
Record world := {
  read_excel : string → string + list string
}.

Record arguments := {
  train_excel : string;
  val_excel : string;
  source_dir : string;
  train_dir : string;
  val_dir : string;
  move : bool
}.

Abbreviation script := (prog filesystem event).

Definition print (fmt : string) (args : list arg) : script unit :=
  emit (Print fmt args).

(** [os.makedirs(dir, exist_ok=True)] *)
Definition makedirs (dir : string) : script unit :=
  fs ← get_state;
  emit (Makedirs dir);;
  put_state (<[dir := default ∅ (fs !! dir)]> fs).

(** [os.path.join(dir, name)], shown in messages. *)
Definition path_text (p : path) : string := p.1 +:+ "/" +:+ p.2.

(** [shutil.copy2(src, dst)]: the same file as source and destination
    is an error; an existing destination is overwritten. *)
Definition shutil_copy2 (src dst : path) (content : string) : script outcome :=
  if bool_decide (src = dst) then mret (SameFileError src dst)
  else
    fs ← get_state;
    emit (Copy2 src dst (bool_decide (is_Some (lookup_file fs dst))));;
    put_state (write_file fs dst content);;
    mret Returned.

(** [shutil.move(src, dst)] on a regular file: [os.rename], which
    replaces an existing destination. *)
Definition shutil_move (src dst : path) (content : string) : script outcome :=
  fs ← get_state;
  emit (MoveFile src dst (bool_decide (is_Some (lookup_file fs dst))));;
  put_state (write_file (remove_file fs src) dst content);;
  mret Returned.

(** [process_files(file_list, dest_dir, desc)], after its first print. *)
Fixpoint for_each_name (args : arguments) (file_list : list string)
    (dest_dir : string) : script outcome :=
  match file_list with
  | [] => mret Returned
  | file_name :: rest =>
      let src_path := (source_dir args, file_name) in
      let dest_path := (dest_dir, file_name) in
      fs ← get_state;
      match lookup_file fs src_path with
      | Some content =>
          r ← (if move args
               then shutil_move src_path dest_path content
               else shutil_copy2 src_path dest_path content);
          match r with
          | Returned => for_each_name args rest dest_dir
          | e => mret e
          end
      | None =>
          print "Warning: File not found: {src_path}" [AStr (path_text src_path)];;
          for_each_name args rest dest_dir
      end
  end.

Definition process_files (args : arguments) (file_list : list string)
    (dest_dir desc : string) : script outcome :=
  print "Processing {desc} files..." [AStr desc];;
  for_each_name args file_list dest_dir.

(** [os.listdir(dir)] *)
Definition listdir (fs : filesystem) (dir : string) : option (list string) :=
  (λ files : gmap string string, (map_to_list files).*1) <$> fs !! dir.

Definition report_missing (desc : string) (missing : list string) : script unit :=
  match missing with
  | [] => mret tt
  | _ =>
      print "Warning: {len(missing)} {desc} files not found in source directory"
        [AInt (Z.of_nat (length missing)); AStr desc];;
      if (length missing <? 10)%nat
      then print "Missing files: {missing}" [AList missing]
      else mret tt
  end.

Definition main (w : world) (args : arguments) : script outcome :=
  makedirs (train_dir args);;
  makedirs (val_dir args);;
  print "Reading Excel files..." [];;
  match read_excel w (train_excel args), read_excel w (val_excel args) with
  | inl e, _ | inr _, inl e =>
      print "Error reading Excel files: {e}" [AStr e];;
      mret Returned
  | inr train_files, inr val_files =>
      print "Found {len(train_files)} training files and {len(val_files)} validation files"
        [AInt (Z.of_nat (length train_files)); AInt (Z.of_nat (length val_files))];;
      fs ← get_state;
      match listdir fs (source_dir args) with
      | None => mret (FileNotFoundError (source_dir args))
      | Some all_files =>
          report_missing "training" (filter (λ f, f ∉ all_files) train_files);;
          report_missing "validation" (filter (λ f, f ∉ all_files) val_files);;
          r ← process_files args train_files (train_dir args) "training";
          match r with
          | Returned =>
              r ← process_files args val_files (val_dir args) "validation";
              match r with
              | Returned => print "Done!" [];; mret Returned
              | e => mret e
              end
          | e => mret e
          end
      end
  end.




(** What the specification says of a run whose validation sheet
    cannot be read: only that sheet is skipped, the rows of the
    training sheet are routed all the same. *)
Definition missing_sheet_skips_only_its_rows (w : world) (args : arguments)
    (fs : filesystem) : Prop :=
  ∀ train_files e,
    read_excel w (train_excel args) = inr train_files →
    read_excel w (val_excel args) = inl e →
    ∀ file_name content,
      file_name ∈ train_files →
      lookup_file fs (source_dir args, file_name) = Some content →
      lookup_file (state_of (main w args fs)) (train_dir args, file_name)
        = Some content.

Definition sheets : world := {|
  read_excel := λ p,
    if String.eqb p "dac-train.xlsx" then inr ["a.dac"; "b.dac"; "gone.dac"]
    else if String.eqb p "dac-val.xlsx" then inr ["c.dac"; "a.dac"]
    else inl "[Errno 2] No such file or directory"
|}.

Definition raw : filesystem :=
  list_to_map [
    ("data/dac-raw",
     list_to_map [("a.dac", "A"); ("b.dac", "B"); ("c.dac", "C")]);
    ("data/dac-train", list_to_map [("a.dac", "stale A")])
  ].



(** The training directory set to the source directory. *)
Definition in_place_args : arguments := {|
  train_excel := "dac-train.xlsx";
  val_excel := "dac-val.xlsx";
  source_dir := "data/dac-raw";
  train_dir := "data/dac-raw";
  val_dir := "data/dac-val";
  move := false
|}.

(** The validation sheet is missing. *)
Definition no_val_args : arguments := {|
  train_excel := "dac-train.xlsx";
  val_excel := "missing.xlsx";
  source_dir := "data/dac-raw";
  train_dir := "data/dac-train";
  val_dir := "data/dac-val";
  move := false
|}.

End reorganize_dac_files.
(** ** Runs of scripts/dac_encode.py *)

Section dac_encode_runs.
Import dac_encode.

(** [max(0.0, min(1.0, value))], the clamp written twice in the
    script: in [main] on [args.param1] and in [format_param_value]. *)
Definition clamp (value : py.float) : py.float :=
  py.max2 (py.Finite 0) (py.min2 (py.Finite 1) value).

(** The text of [k] hundredths in the five-character format. *)
Definition five_chars (k : nat) : string :=
  py.take 5 (py.zero_pad 5 "" (py.hundredths (Z.of_nat k))).

(** The files of a directory in the order in which [main] encodes
    them: the [.wav] entries, then the [.mp3] entries. *)
Definition audio_files (entries : list string) : list string :=
  glob_suffix entries ".wav" ++ glob_suffix entries ".mp3".

(** The parameter of the [k]-th file of a run entered after [s]
    random draws. *)
Definition param1_of (w : world) (args : arguments) (s k : nat) : py.float :=
  if arg_randomize_param1 args then py.Finite (random_random w (s + k))
  else clamp (arg_param1 args).

(** The arguments [main] passes to the codec for the [k]-th file. *)
Definition call_for (w : world) (args : arguments) (s : nat) (dev : string)
    (k : nat) (name : string) : encode_call := {|
  input := py.joinpath (arg_input_dir args) name;
  output := py.joinpath (arg_output_dir args)
              (generate_output_filename (py.stem name) (arg_class_name args)
                 (param1_of w args s k));
  model_bitrate := arg_model_bitrate args;
  n_quantizers := arg_n_quantizers args;
  device := dev;
  batch_size := arg_batch_size args
|}.

(** The calls of a list that are made when the first exception ends
    the loop: all up to the first call that raises, that one included. *)
Fixpoint until_raise (w : world) (calls : list encode_call) : list encode_call :=
  match calls with
  | [] => []
  | c :: rest =>
      c :: match encode_raises w c with
           | Some _ => []
           | None => until_raise w rest
           end
  end.

Definition completed : event := Log INFO "Encoding completed successfully!" [].

Definition is_completed (e : event) : bool :=
  match e with
  | Log INFO fmt [] => String.eqb fmt "Encoding completed successfully!"
  | _ => false
  end.

(** The records of level [ERROR]. *)
Definition is_error (e : event) : bool :=
  match e with
  | Log ERROR _ _ => true
  | _ => false
  end.

(** The events that are neither a call of the codec, nor an error
    record, nor the closing record. *)
Definition is_routine (e : event) : bool :=
  match e with
  | Encode _ => false
  | _ => negb (is_error e) && negb (is_completed e)
  end.

(** The call [main] makes when its input is a single file. *)
Definition single_call (w : world) (args : arguments) (s : nat) (dev : string)
    : encode_call := {|
  input := arg_input_dir args;
  output := py.joinpath (arg_output_dir args)
              (generate_output_filename (py.stem (arg_input_dir args))
                 (arg_class_name args) (param1_of w args s 0));
  model_bitrate := arg_model_bitrate args;
  n_quantizers := arg_n_quantizers args;
  device := dev;
  batch_size := arg_batch_size args
|}.

(** The test behind the ordering theorem, on the hundredths [i <= j]. *)
Definition five_chars_sorted (i j : nat) : bool :=
  String.leb (five_chars i) (five_chars j).

(** The test behind the pattern theorem: the name the encoder gives
    for [k] hundredths in the class [Zelda] is matched whole. *)
Definition zelda_name_matches (k : nat) : bool :=
  bool_decide
    (rename_dac_files.re_match ("Zelda--param1-" +:+ five_chars k +:+ ".dac")
     = Some ("Zelda--param1-" +:+ five_chars k, ".dac")).

End dac_encode_runs.

(** ** Runs of split_excel_data.py *)

Section split_excel_data_runs.
Import split_excel_data.
Context `{numpy_random}.

(** The two frames the loop has put together when it ends, the rows
    with their index labels in the sheet. *)
Definition assigned_frames (df : frame) (samples_per_class : Z) (train_ratio : Q)
    (random_seed : seed) (g : rng) : outcome (frame * frame) :=
  let train_count := py.int (inject_Z samples_per_class * train_ratio) in
  let val_count := (samples_per_class - train_count)%Z in
  let unique_classes := unique ((λ ir, Class_Name ir.2) <$> df) in
  match result_of (for_each_class df samples_per_class train_ratio random_seed
                     train_count val_count unique_classes [] [] g) with
  | Raise e => Raise e
  | Ok (train_samples, val_samples) => Ok (mjoin train_samples, mjoin val_samples)
  end.

(** The spreadsheets a trace writes, in order, and the directories it
    makes. *)
Definition to_excel (t : list event) : list (string * list row) :=
  omap (λ e, match e with ToExcel p rows => Some (p, rows) | _ => None end) t.

Definition made_directories (t : list event) : list string :=
  omap (λ e, match e with Makedirs p => Some p | _ => None end) t.

Definition is_print (e : event) : bool :=
  match e with
  | Print _ _ => true
  | _ => false
  end.

(** What the loop sends to the two sets for a class: rows of that
    class, and all of them when the class is short of
    [samples_per_class]. *)
Definition part_of (df : frame) (samples_per_class : Z)
    (cls : option string) (part : frame) : Prop :=
  part ⊆+ select_class df cls
  ∧ ((Z.of_nat (length (select_class df cls)) < samples_per_class)%Z →
     part = select_class df cls).

(** The directory the two files are written to. *)
Definition output_directory (input_excel_path : string) (output_dir : option string)
    : string :=
  default (dirname input_excel_path) output_dir.

End split_excel_data_runs.

(** A sheet whose only row has an empty class cell. *)
Definition orphan_sheet : list split_excel_data.row := [
  {| split_excel_data.Full_File_Name := "orphan.dac";
     split_excel_data.Class_Name := None |}
].

(** ** Runs of wav-extract.py *)

Section wav_extract_runs.
Import wav_extract.

(** The calls of [sf.write] of a trace: path, signal, sample rate. *)
Definition sf_writes (t : list event) : list (string * audio * positive) :=
  omap (λ e, match e with
             | SfWrite path data samplerate => Some (path, data, samplerate)
             | _ => None
             end) t.

End wav_extract_runs.

(** ** Runs of scripts/rename_dac_files.py *)

Section rename_dac_files_runs.
Import rename_dac_files.

(** A name the pattern matches whole: the name the script would give
    it is the name it has. *)
Definition canonical (name : string) : bool :=
  match re_match name with
  | Some (base, ext) => String.eqb name (base +:+ ext)
  | None => false
  end.

(** The names [glob] lists: those ending in [.dac] that do not start
    with a dot. *)
Definition listed (name : string) : Prop :=
  py.endswith name ".dac" = true ∧ py.startswith name "." = false.

Definition starts_with_digit (s : string) : bool :=
  match s with
  | String c _ => is_digit c
  | "" => false
  end.

End rename_dac_files_runs.

(** ** Runs of scripts/rename_files.py *)

Section rename_files_runs.
Import rename_files.

(** What is left of the entries of a sub-directory once the regular
    files among [files] have been moved out, one after the other. *)
Definition left_over (files : list (string * entry)) (entries : gmap string entry)
    : gmap string entry :=
  foldl (λ m '(name, e), match e with
                         | EFile _ => delete name m
                         | EOther => m
                         end) entries files.

(** Entries none of which is a regular file. *)
Definition no_regular_file (entries : gmap string entry) : Prop :=
  ∀ name e, entries !! name = Some e → e = EOther.

(** The target directory when [main] returns. *)
Definition flattened (target_dir : string) (base : directory) : directory :=
  default ∅ (main target_dir (Some base)).1.2.

End rename_files_runs.

(** ** Runs of scripts/reorganize_dac_files.py *)

Section reorganize_dac_files_runs.
Import reorganize_dac_files.

(** The names a spreadsheet lists, as far as it can be read. *)
Definition names_of (w : world) (sheet : string) : list string :=
  match read_excel w sheet with
  | inr names => names
  | inl _ => []
  end.

(** The file system when [main] is over, normally or not. *)
Definition reorganized (w : world) (args : arguments) (fs : filesystem)
    : filesystem :=
  state_of (main w args fs).

End reorganize_dac_files_runs.

(** * Properties *)

(** ** Traces of sequenced programs *)

Section prog_rules.
Context {S E : Type}.
Implicit Types (P : E → Prop).

Lemma run_bind {A B} (m : prog S E A) (k : A → prog S E B) (s : S) :
  (m ≫= k) s =
  let r := m s in
  let r' := k (result_of r) (state_of r) in
  (result_of r', state_of r', trace_of r ++ trace_of r').
Proof.
  unfold mbind, prog_bind, result_of, state_of, trace_of.
  destruct (m s) as [[a s1] t1]; simpl.
  destruct (k a s1) as [[b s2] t2]; reflexivity.
Qed.

Lemma follows_ret {A} P (Q : A → Prop) (a : A) :
  Q a → follows P Q (mret a : prog S E A).
Proof. intros Ha s. split; [constructor | exact Ha]. Qed.

Lemma follows_bind {A B} P (Q : A → Prop) (R : B → Prop)
    (m : prog S E A) (k : A → prog S E B) :
  follows P Q m → (∀ a, Q a → follows P R (k a)) → follows P R (m ≫= k).
Proof.
  intros Hm Hk s. rewrite run_bind. cbn zeta.
  destruct (Hm s) as [Ht Hq].
  destruct (Hk _ Hq (state_of (m s))) as [Ht' Hr].
  split; [apply Forall_app; split; assumption | exact Hr].
Qed.

Lemma follows_emit P (Q : unit → Prop) (e : E) :
  P e → Q tt → follows P Q (emit e : prog S E unit).
Proof. intros He Hq s. split; [repeat constructor; exact He | exact Hq]. Qed.

Lemma follows_get P (Q : S → Prop) :
  (∀ s, Q s) → follows P Q (get_state : prog S E S).
Proof. intros Hq s. split; [constructor | apply Hq]. Qed.

Lemma follows_put P (Q : unit → Prop) (s' : S) :
  Q tt → follows P Q (put_state s' : prog S E unit).
Proof. intros Hq s. split; [constructor | exact Hq]. Qed.

Lemma follows_weaken {A} P (Q Q' : A → Prop) (m : prog S E A) :
  follows P Q m → (∀ a, Q a → Q' a) → follows P Q' m.
Proof. intros Hm Hq s. destruct (Hm s). split; auto. Qed.

End prog_rules.

Section prog_rules_any.
Context {S E : Type}.

Lemma follows_seq {A B} (P : E → Prop) (R : B → Prop)
    (m : prog S E A) (k : A → prog S E B) :
  follows P (λ _, True) m → (∀ a, follows P R (k a)) → follows P R (m ≫= k).
Proof. intros Hm Hk. eapply follows_bind; [exact Hm | auto]. Qed.

Lemma follows_trace {A} (P : E → Prop) (Q : A → Prop) (m : prog S E A) (s : S) :
  follows P Q m → Forall P (trace_of (m s)).
Proof. intros Hm. apply Hm. Qed.

End prog_rules_any.

(** ** Python's [int] on non-negative values *)




(** ** Rounding and the five-character parameter format *)

Section rounding.

Lemma round_half_even_close (x : Q) :
  (Qabs (inject_Z (py.round_half_even x) - x) <= 1 # 2)%Q.
Proof.
  unfold py.round_half_even.
  pose proof (Qfloor_le x) as Hlo.
  pose proof (Qlt_floor x) as Hhi.
  rewrite inject_Z_plus in Hhi. change (inject_Z 1) with 1%Q in Hhi.
  apply Qabs_Qle_condition.
  destruct (Qcompare_spec (x - inject_Z (Qfloor x)) (1 # 2)) as [He|Hl|Hg].
  - destruct (Z.even (Qfloor x)).
    + split; lra.
    + rewrite inject_Z_plus. change (inject_Z 1) with 1%Q. split; lra.
  - split; lra.
  - rewrite inject_Z_plus. change (inject_Z 1) with 1%Q. split; lra.
Qed.

Lemma round_half_even_range (x : Q) (lo hi : Z) :
  (inject_Z lo <= x)%Q → (x <= inject_Z hi)%Q →
  (lo ≤ py.round_half_even x ≤ hi)%Z.
Proof.
  intros Hlo Hhi.
  pose proof (round_half_even_close x) as Hc.
  apply Qabs_Qle_condition in Hc as [Hc1 Hc2].
  split.
  - assert (inject_Z lo < inject_Z (py.round_half_even x + 1))%Q as H.
    { rewrite inject_Z_plus. change (inject_Z 1) with 1%Q. lra. }
    rewrite <- Zlt_Qlt in H. lia.
  - assert (inject_Z (py.round_half_even x) < inject_Z (hi + 1))%Q as H.
    { rewrite inject_Z_plus. change (inject_Z 1) with 1%Q. lra. }
    rewrite <- Zlt_Qlt in H. lia.
Qed.

End rounding.

Section format.
Import dac_encode.

(** Python's [max(0.0, min(1.0, value))] on a finite value is the
    mathematical clamp. *)
Lemma clamp_finite (q : Q) :
  ∃ c : Q,
    py.max2 (py.Finite 0) (py.min2 (py.Finite 1) (py.Finite q)) = py.Finite c
    ∧ (0 <= c)%Q ∧ (c <= 1)%Q ∧ (c == clamp01 q)%Q.
Proof.
  unfold py.max2, py.min2, py.gt, py.lt, py.Qltb, clamp01.
  destruct (Qle_bool 1 q) eqn:H1; simpl.
  - apply Qle_bool_iff in H1.
    exists 1%Q. repeat split; try lra.
    rewrite (Q.min_l 1 q) by exact H1. rewrite Q.max_r; lra.
  - assert (q < 1)%Q as H1'.
    { apply Qnot_le_lt. intros H. apply Qle_bool_iff in H. congruence. }
    destruct (Qle_bool q 0) eqn:H0; simpl.
    + apply Qle_bool_iff in H0.
      exists 0%Q. repeat split; try lra.
      rewrite (Q.min_r 1 q) by lra. rewrite Q.max_l; lra.
    + assert (0 < q)%Q as H0'.
      { apply Qnot_le_lt. intros H. apply Qle_bool_iff in H. congruence. }
      exists q. repeat split; try lra.
      rewrite (Q.min_r 1 q) by lra. rewrite Q.max_r; lra.
Qed.

(** The values that are not real numbers are clamped too. *)
Lemma format_param_value_not_finite :
  format_param_value py.NaN = "01.00"
  ∧ format_param_value py.PosInf = "01.00"
  ∧ format_param_value py.NegInf = "00.00".
Proof. vm_compute. auto. Qed.

Lemma hundredths_shape_all : forallb hundredths_shape_ok (seq 0 101) = true.
Proof. vm_compute. reflexivity. Qed.

Lemma hundredths_shape (k : nat) :
  (k ≤ 100)%nat → hundredths_shape_ok k = true.
Proof.
  intros Hk. pose proof hundredths_shape_all as H.
  rewrite forallb_forall in H. apply H. apply in_seq. lia.
Qed.

(** The formatted parameter is [d1 d2 . d3 d4], the clamped value
    rounded to the nearest hundredth. *)
Lemma format_param_value_finite (q : Q) :
  ∃ d1 d2 d3 d4 : nat,
    (d1 < 10 ∧ d2 < 10 ∧ d3 < 10 ∧ d4 < 10)%nat
    ∧ format_param_value (py.Finite q) = NN_NN d1 d2 d3 d4
    ∧ (Qabs (NN_NN_value d1 d2 d3 d4 - clamp01 q) <= 1 # 200)%Q.
Proof.
  destruct (clamp_finite q) as (c & Hc & Hc0 & Hc1 & Hcq).
  unfold format_param_value. rewrite Hc. unfold py.format_05_2f.
  assert (py.Qltb c 0 = false) as ->.
  { unfold py.Qltb. apply negb_false_iff, Qle_bool_iff. exact Hc0. }
  unfold py.fixed_2f.
  set (n := py.round_half_even (c * 100)).
  assert (0 ≤ n ≤ 100)%Z as Hn.
  { apply round_half_even_range;
      [change (inject_Z 0) with 0%Q | change (inject_Z 100) with 100%Q]; lra. }
  pose proof (round_half_even_close (c * 100)) as Hclose. fold n in Hclose.
  set (k := Z.to_nat n).
  assert (n = Z.of_nat k) as Hk by (unfold k; lia).
  assert (k ≤ 100)%nat as Hk100 by lia.
  pose proof (hundredths_shape k Hk100) as Hs.
  unfold hundredths_shape_ok in Hs.
  repeat (apply andb_prop in Hs as [Hs ?]).
  apply String.eqb_eq in Hs.
  exists 0%nat, (k / 100)%nat, (k mod 100 / 10)%nat, (k mod 10)%nat.
  split; [|split].
  - repeat split; try (apply Nat.ltb_lt; assumption). lia.
  - rewrite Hk. exact Hs.
  - unfold NN_NN_value.
    assert (Z.of_nat k =
      100 * Z.of_nat (10 * 0 + k / 100)
      + Z.of_nat (10 * (k mod 100 / 10) + k mod 10))%Z as Hdec.
    { match goal with H : (_ =? k)%nat = true |- _ =>
        apply Nat.eqb_eq in H end. lia. }
    rewrite <- Hk in Hdec.
    apply (f_equal inject_Z) in Hdec.
    rewrite inject_Z_plus, inject_Z_mult in Hdec.
    change (inject_Z 100) with 100%Q in Hdec.
    apply Qabs_Qle_condition in Hclose as [Hl Hu].
    rewrite Hdec in Hl, Hu.
    apply Qabs_Qle_condition.
    unfold Qdiv. change (/ 100)%Q with (1 # 100)%Q. split; lra.
Qed.

(** C1.  For every class name and every real [param1], the output
    file name is the class name, then [--param1-], then five
    characters [d1 d2 . d3 d4] (two digits, a point, two digits)
    denoting [param1] clamped to the unit interval and rounded to the
    nearest hundredth, then the extension [.dac]. *)
Theorem C1_output_filename_format
    (original_name class_name : string) (param1 : Q) :
  ∃ d1 d2 d3 d4 : nat,
    (d1 < 10 ∧ d2 < 10 ∧ d3 < 10 ∧ d4 < 10)%nat
    ∧ generate_output_filename original_name class_name (py.Finite param1)
      = class_name +:+ "--param1-" +:+ NN_NN d1 d2 d3 d4 +:+ ".dac"
    ∧ String.length (NN_NN d1 d2 d3 d4) = 5%nat
    ∧ (Qabs (NN_NN_value d1 d2 d3 d4 - clamp01 param1) <= 1 # 200)%Q.
Proof.
  destruct (format_param_value_finite param1)
    as (d1 & d2 & d3 & d4 & Hd & Hfmt & Hval).
  exists d1, d2, d3, d4. unfold generate_output_filename.
  rewrite Hfmt. repeat split; tauto.
Qed.

End format.

(** ** Device selection *)

Section device.
Import dac_encode.

Ltac sublist_greedy :=
  repeat first [apply sublist_nil | apply sublist_skip | apply sublist_cons].

Lemma device_auto (w : world) (requested_device : string) (s : nat) :
  py.lower requested_device = "auto" →
  let r := get_available_device w requested_device s in
  result_of r = expected_device w
  ∧ sublist (probes (trace_of r)) probe_order
  ∧ head (probes (trace_of r)) = Some (IsAvailable "mps").
Proof.
  intros Hauto. cbn zeta.
  unfold get_available_device. rewrite Hauto.
  cbn [String.eqb Ascii.eqb Bool.eqb negb].
  unfold try_mps, try_cuda, is_available, test_tensor, expected_device.
  destruct (mps_is_available w), (zeros_to w "mps"),
    (cuda_is_available w), (zeros_to w "cuda");
    vm_compute; (split; [reflexivity | split; [sublist_greedy | reflexivity]]).
Qed.

Lemma device_explicit (w : world) (requested_device : string) (s : nat) :
  py.lower requested_device ≠ "auto" →
  let r := get_available_device w requested_device s in
  result_of r = requested_device ∧ probes (trace_of r) = [].
Proof.
  intros Hne. cbn zeta. unfold get_available_device.
  destruct (String.eqb (py.lower requested_device) "auto") eqn:He.
  - apply String.eqb_eq in He. contradiction.
  - split; reflexivity.
Qed.

(** C5, as stated, fails: the request ["AUTO"] differs from ["auto"],
    yet it is not returned unchanged; the selector probes and, on a
    machine without accelerator, answers ["cpu"]. *)
Lemma C5_uppercase_auto_is_probed : ¬ selects_literally cpu_only "AUTO".
Proof.
  intros [_ H]. destruct H as [H _]; [discriminate|].
  vm_compute in H. discriminate.
Qed.

(** C5 (amended).  The request is compared with ["auto"] after
    lower-casing.  When it is ["auto"] in any letter case, the selector
    returns ["mps"] if MPS is available and its test allocation works,
    otherwise ["cuda"] if CUDA is available and its test allocation
    works, otherwise ["cpu"]; its probes form a sub-sequence of MPS
    availability, MPS allocation, CUDA availability, CUDA allocation,
    starting with the MPS availability check.  Any other request is
    returned unchanged without a single probe. *)
Theorem C5_device_selection (w : world) (requested_device : string) (s : nat) :
  let r := get_available_device w requested_device s in
  (py.lower requested_device = "auto" →
     result_of r = expected_device w
     ∧ sublist (probes (trace_of r)) probe_order
     ∧ head (probes (trace_of r)) = Some (IsAvailable "mps"))
  ∧ (py.lower requested_device ≠ "auto" →
     result_of r = requested_device ∧ probes (trace_of r) = []).
Proof.
  split; intros H; [apply device_auto | apply device_explicit]; exact H.
Qed.

Lemma C5_device_selection_witness :
  (py.lower "Auto" = "auto"
   ∧ result_of (get_available_device cuda_box "Auto" 0%nat) = "cuda")
  ∧ (py.lower "cuda:1" ≠ "auto"
     ∧ result_of (get_available_device cpu_only "cuda:1" 0%nat) = "cuda:1").
Proof.
  split.
  - split; [reflexivity|].
    destruct (C5_device_selection cuda_box "Auto" 0%nat) as [H _].
    destruct (H eq_refl) as [Hr _]. exact Hr.
  - assert (py.lower "cuda:1" ≠ "auto") as Hne by discriminate.
    split; [exact Hne|].
    destruct (C5_device_selection cpu_only "cuda:1" 0%nat) as [_ H].
    destruct (H Hne) as [Hr _]. exact Hr.
Defined.

End device.

(** ** Output paths of a run *)

Section outputs.
Import dac_encode.



Lemma log_follows (P : event → Prop) lv fmt args :
  P (Log lv fmt args) → follows P (λ _, True) (log lv fmt args).
Proof. intros H. apply follows_emit; auto. Qed.

Lemma get_available_device_writes (path : string) (w : world) (req : string) :
  follows (writes_to path) (λ _, True) (get_available_device w req).
Proof.
  intros s. split; [|exact I].
  unfold get_available_device, try_mps, try_cuda, is_available, test_tensor.
  destruct (negb _), (mps_is_available w), (zeros_to w "mps"),
    (cuda_is_available w), (zeros_to w "cuda");
    vm_compute; repeat constructor.
Qed.

Lemma pick_param1_fixed (path : string) (w : world) (args : arguments) (p : py.float) :
  arg_randomize_param1 args = false →
  follows (writes_to path) (λ r, r = p) (pick_param1 w args p).
Proof.
  intros Hfix. unfold pick_param1. rewrite Hfix. apply follows_ret. reflexivity.
Qed.

Lemma encode_writes (path : string) (w : world) (c : encode_call) :
  output c = path → follows (writes_to path) (λ _, True) (encode w c).
Proof.
  intros Hc. unfold encode. apply follows_seq; [apply follows_emit; simpl; auto|].
  intros _. apply follows_ret. exact I.
Qed.

Ltac logs := apply log_follows; exact I.

Lemma encode_each_writes (w : world) (args : arguments) (dev : string)
    (audio_files : list string) :
  arg_randomize_param1 args = false →
  follows (writes_to (fixed_output args)) (λ _, True)
    (encode_each w args
       (py.max2 (py.Finite 0) (py.min2 (py.Finite 1) (arg_param1 args)))
       dev audio_files).
Proof.
  intros Hfix. induction audio_files as [|name rest IH]; simpl.
  - apply follows_ret. exact I.
  - eapply follows_bind; [apply pick_param1_fixed; exact Hfix|].
    intros p ->. apply follows_seq; [logs|]. intros _.
    apply follows_seq; [apply encode_writes; reflexivity|].
    intros [e|]; [apply follows_ret; exact I | exact IH].
Qed.

Lemma main_writes (w : world) (args : arguments) :
  arg_randomize_param1 args = false →
  follows (writes_to (fixed_output args)) (λ _, True) (main w args).
Proof.
  intros Hfix. unfold main.
  apply follows_seq; [apply follows_emit; simpl; auto|]. intros _.
  destruct (lookup_path w (arg_input_dir args)) as [nd|]; [|logs].
  apply follows_seq; [apply get_available_device_writes|]. intros dev.
  do 5 (apply follows_seq; [logs|]; intros _).
  apply follows_seq; [rewrite Hfix; logs|]. intros _.
  apply follows_seq.
  - destruct nd as [entries|].
    + apply follows_seq; [logs|]. intros _.
      apply follows_seq; [apply encode_each_writes; exact Hfix|].
      intros [e|]; [apply follows_ret; exact I|].
      apply follows_seq; [logs|]. intros _. apply follows_ret. exact I.
    + unfold encode_single.
      eapply follows_bind; [apply pick_param1_fixed; exact Hfix|].
      intros p ->.
      apply follows_seq; [apply encode_writes; reflexivity|].
      intros [e|]; [apply follows_ret; exact I|].
      apply follows_seq; [logs|]. intros _. apply follows_ret. exact I.
  - intros [[e|e]|].
    + apply follows_seq; [logs|]. intros _.
      destruct (negb _); [logs | apply follows_ret; exact I].
    + apply follows_seq; [logs|]. intros _. logs.
    + logs.
Qed.

Lemma encode_calls_writes (path : string) (t : list event) :
  Forall (writes_to path) t → Forall (λ c, output c = path) (encode_calls t).
Proof.
  unfold encode_calls. induction 1 as [|e t He Ht IH]; simpl; [constructor|].
  destruct e; simpl; auto.
Qed.

(** C8.  The output file name does not depend on the original file
    name; consequently, in a run with a fixed (not randomized)
    [param1], every call of the encoder writes to one and the same
    output path. *)
Theorem C8_output_ignores_original_name :
  (∀ (a b class_name : string) (param1 : py.float),
     generate_output_filename a class_name param1
     = generate_output_filename b class_name param1)
  ∧ (∀ (w : world) (args : arguments) (s : nat),
       arg_randomize_param1 args = false →
       Forall (λ c, output c = fixed_output args)
         (encode_calls (trace_of (main w args s)))).
Proof.
  split.
  - intros a b class_name param1. reflexivity.
  - intros w args s Hfix. apply encode_calls_writes.
    eapply follows_trace. apply main_writes. exact Hfix.
Qed.

Lemma C8_output_ignores_original_name_witness :
  arg_randomize_param1 sample_args = false
  ∧ Forall (λ c, output c = "out/Zelda--param1-00.50.dac")
      (encode_calls (trace_of (main cuda_box sample_args 0%nat)))
  ∧ length (encode_calls (trace_of (main cuda_box sample_args 0%nat))) = 2%nat.
Proof.
  split; [reflexivity|]. split; [|reflexivity].
  exact (proj2 C8_output_ignores_original_name cuda_box sample_args 0%nat eq_refl).
Defined.

End outputs.

(** ** The train/validation splitter *)

Section sampling.
Import split_excel_data.
Context `{numpy_random}.

Lemma omap_lookup_seq {A} (k l : list A) :
  omap (λ i, (k ++ l) !! i) (seq (length k) (length l)) = l.
Proof.
  revert k. induction l as [|x l IH]; intros k; simpl; [reflexivity|].
  rewrite list_lookup_middle by reflexivity. simpl. f_equal.
  specialize (IH (k ++ [x])).
  rewrite length_app, Nat.add_1_r, <- app_assoc in IH. exact IH.
Qed.

Lemma omap_length_le {A B} (f : A → option B) (l : list A) :
  (length (omap f l) ≤ length l)%nat.
Proof.
  induction l as [|x l IH]; csimpl; [lia|].
  destruct (f x); csimpl; lia.
Qed.

(** The rows at the first [k] positions of a permutation of the
    positions: [k] rows, a part of the frame. *)
Lemma take_rows {A} (l : list A) (ps : list nat) (k : nat) :
  ps ≡ₚ seq 0 (length l) → (k ≤ length l)%nat →
  let out := omap (λ i, l !! i) (take k ps) in
  length out = k ∧ out ⊆+ l.
Proof.
  intros Hps Hk. cbn zeta.
  assert (omap (λ i, l !! i) ps ≡ₚ l) as Hall.
  { rewrite Hps. pose proof (omap_lookup_seq [] l) as E. simpl in E.
    rewrite E. reflexivity. }
  assert (length ps = length l) as Hlen.
  { rewrite Hps. apply length_seq. }
  split.
  - pose proof (Permutation_length Hall) as Hl.
    rewrite <- (take_drop k ps), omap_app, length_app in Hl.
    pose proof (omap_length_le (λ i, l !! i) (take k ps)) as H1.
    pose proof (omap_length_le (λ i, l !! i) (list.drop k ps)) as H2.
    rewrite length_take in H1. rewrite length_drop in H2. lia.
  - rewrite <- Hall. apply sublist_submseteq.
    rewrite <- (take_drop k ps) at 2. rewrite omap_app.
    apply sublist_inserts_r. reflexivity.
Qed.


Lemma filter_none {A} (P : A → Prop) `{∀ x, Decision (P x)} (l : list A) :
  Forall (λ x, ¬ P x) l → filter P l = [].
Proof.
  induction 1 as [|x l Hx Hl IH]; [reflexivity|].
  rewrite filter_cons_False by exact Hx. exact IH.
Qed.

Lemma filter_all {A} (P : A → Prop) `{∀ x, Decision (P x)} (l : list A) :
  Forall P l → filter P l = l.
Proof.
  induction 1 as [|x l Hx Hl IH]; [reflexivity|].
  rewrite filter_cons_True by exact Hx. f_equal. exact IH.
Qed.



Lemma submseteq_NoDup_fst (l k : frame) : l ⊆+ k → NoDup k.*1 → NoDup l.*1.
Proof.
  intros Hsub Hnd. apply (fmap_submseteq fst) in Hsub.
  apply submseteq_Permutation in Hsub as [rest Hperm].
  rewrite Hperm in Hnd. apply NoDup_app in Hnd. tauto.
Qed.


Lemma label_eqb_true (a b : option string) :
  label_eqb a b = true ↔ ∃ x, a = Some x ∧ b = Some x.
Proof.
  destruct a as [x|], b as [y|]; simpl; split; try discriminate.
  - intros E. apply String.eqb_eq in E. subst. eauto.
  - intros (z & [= ->] & [= ->]). apply String.eqb_refl.
  - intros (z & _ & [=]).
  - intros (z & [=] & _).
  - intros (z & [=] & _).
Qed.



Lemma select_class_NoDup (df : frame) (cls : option string) :
  NoDup df.*1 → NoDup (select_class df cls).*1.
Proof.
  intros Hnd. eapply sublist_NoDup; [exact Hnd|].
  apply fmap_sublist. apply sublist_filter.
Qed.



Lemma result_print {A} (fmt : string) (args : list arg) (k : unit → prog rng event A) (g : rng) :
  result_of ((print fmt args ≫= k) g) = result_of (k tt g).
Proof. rewrite run_bind. reflexivity. Qed.


Section loop.
Variables (df : frame) (samples_per_class : Z) (train_ratio : Q) (random_seed : seed).
Hypothesis df_index : NoDup df.*1.
Hypothesis samples_nonneg : (0 ≤ samples_per_class)%Z.
Hypothesis ratio_lo : (0 <= train_ratio)%Q.
Hypothesis ratio_hi : (train_ratio <= 1)%Q.


End loop.

Lemma range_index_fst (rows : list row) :
  (range_index rows).*1 = seq 0 (length rows).
Proof.
  apply list_eq. intros i. unfold range_index.
  rewrite list_lookup_fmap, list_lookup_imap.
  destruct (rows !! i) as [r|] eqn:E; simpl; symmetry.
  - apply lookup_seq. split; [reflexivity|]. eapply lookup_lt_Some, E.
  - apply lookup_seq_ge. eapply lookup_ge_None, E.
Qed.

Lemma range_index_snd (rows : list row) : (range_index rows).*2 = rows.
Proof.
  apply list_eq. intros i. unfold range_index.
  rewrite list_lookup_fmap, list_lookup_imap.
  destruct (rows !! i); reflexivity.
Qed.

Lemma unique_elem_of (l : list (option string)) (x : option string) :
  x ∈ unique l ↔ x ∈ l.
Proof.
  induction l as [|y l IH]; simpl; [reflexivity|].
  rewrite !elem_of_cons, list_elem_of_filter, IH.
  destruct (decide (x = y)); tauto.
Qed.

Lemma unique_NoDup (l : list (option string)) : NoDup (unique l).
Proof.
  induction l as [|y l IH]; simpl; constructor.
  - rewrite list_elem_of_filter. intros [Hne _]. apply Hne. reflexivity.
  - apply NoDup_filter. exact IH.
Qed.

Lemma select_class_length (rows : list row) (cls : option string) :
  Z.of_nat (length (select_class (range_index rows) cls)) = count_class rows cls.
Proof.
  unfold count_class, select_class.
  rewrite <- (range_index_snd rows) at 2.
  generalize (range_index rows). intros f. f_equal.
  induction f as [|ir f IH]; [reflexivity|].
  rewrite fmap_cons, !filter_cons. simpl.
  destruct (decide (label_eqb (Class_Name ir.2) cls = true)); simpl; lia.
Qed.



End sampling.

Section splitter_examples.
Import split_excel_data.



End splitter_examples.

Section determinism.
Import split_excel_data.
Context `{numpy_random}.

Lemma run_print {A} (fmt : string) (args : list arg)
    (k : unit → prog rng event A) (g : rng) :
  (print fmt args ≫= k) g =
  (result_of (k tt g), state_of (k tt g), Print fmt args :: trace_of (k tt g)).
Proof. rewrite run_bind. reflexivity. Qed.

(** The loop neither reads nor writes numpy's global generator. *)
Lemma for_each_class_ignores_generator
    (df : frame) (samples_per_class : Z) (train_ratio : Q) (random_seed : seed)
    (train_count val_count : Z) (unique_classes : list (option string)) :
  ∀ (train_samples val_samples : list frame) (g : rng),
    ∃ r t, ∀ g' : rng,
      for_each_class df samples_per_class train_ratio random_seed
        train_count val_count unique_classes train_samples val_samples g'
      = (r, g', t).
Proof.
  induction unique_classes as [|cls rest IH]; intros train_samples val_samples g.
  - eexists _, _. intros g'. reflexivity.
  - cbn [for_each_class].
    set (class_samples := select_class df cls).
    destruct (Z.of_nat (length class_samples) <? samples_per_class)%Z.
    + destruct (Z.of_nat (length class_samples) =? 0)%Z.
      * destruct (IH train_samples val_samples g) as (r & t & Hr).
        eexists _, _. intros g'. rewrite !run_print, Hr.
        unfold result_of, state_of, trace_of. simpl. reflexivity.
      * destruct (sample class_samples _ random_seed) as [train_data|e].
        -- destruct (IH (train_samples ++ [train_data])
                        (val_samples ++ [drop class_samples train_data.*1]) g)
             as (r & t & Hr).
           eexists _, _. intros g'. rewrite run_print, Hr.
           unfold result_of, state_of, trace_of. simpl. reflexivity.
        -- eexists _, _. intros g'. rewrite run_print.
           unfold result_of, state_of, trace_of. simpl. reflexivity.
    + destruct (sample class_samples samples_per_class random_seed)
        as [sampled_data|e].
      * destruct (sample sampled_data train_count random_seed) as [train_data|e].
        -- apply IH. exact g.
        -- eexists _, _. intros g'. reflexivity.
      * eexists _, _. intros g'. reflexivity.
Qed.

(** C10.  Two runs on the same spreadsheet with the same
    [samples_per_class], [train_ratio] and [random_seed] behave alike
    whatever state numpy's global generator is in when each starts:
    they assign the same rows to the training and to the validation
    set, print the same lines and write the same two files. *)
Theorem C10_split_is_deterministic
    (input_excel_path : string) (sheet : list row) (output_dir : option string)
    (samples_per_class : Z) (train_ratio : Q) (random_seed : seed)
    (g1 g2 : rng) :
  assigned (range_index sheet) samples_per_class train_ratio random_seed g1
  = assigned (range_index sheet) samples_per_class train_ratio random_seed g2
  ∧ create_train_val_split input_excel_path sheet output_dir
      samples_per_class train_ratio random_seed g1
    = create_train_val_split input_excel_path sheet output_dir
        samples_per_class train_ratio random_seed g2.
Proof.
  split.
  - unfold assigned.
    destruct (for_each_class_ignores_generator (range_index sheet)
                samples_per_class train_ratio random_seed
                (py.int (inject_Z samples_per_class * train_ratio))
                (samples_per_class - py.int (inject_Z samples_per_class * train_ratio))
                (unique ((λ ir, Class_Name ir.2) <$> range_index sheet))
                [] [] g1) as (r & t & Hr).
    rewrite !Hr. reflexivity.
  - unfold create_train_val_split. rewrite !run_bind. reflexivity.
Qed.

End determinism.

(** ** Random segment extraction *)

Section segment.
Import wav_extract.






End segment.

(** ** Renaming in place *)

Section renaming.
Import rename_dac_files.

Lemma contents_rename (d : directory) (old new c : string) :
  d !! old = Some c → d !! new = None → old ≠ new →
  contents (<[new := c]> (delete old d)) ≡ₚ contents d.
Proof.
  intros Hold Hnew Hne. unfold contents.
  rewrite map_to_list_insert by (rewrite lookup_delete_ne by exact Hne; exact Hnew).
  rewrite <- (map_to_list_delete d old c Hold). reflexivity.
Qed.

Lemma for_each_file_safe (dac_files : list string) (d : directory) :
  safe_run d (for_each_file dac_files d).
Proof.
  revert d. induction dac_files as [|filename rest IH]; intros d.
  - split; [reflexivity | constructor].
  - cbn [for_each_file].
    destruct (re_match filename) as [[base ext]|].
    + destruct (String.eqb_spec filename (base +:+ ext)) as [Heq|Hne]; cbn [negb].
      { apply IH. }
      cbv [mbind prog_bind mret prog_ret emit get_state put_state print
           os_path_exists os_rename].
      destruct (d !! (base +:+ ext)) as [c'|] eqn:Hnew.
      * rewrite bool_decide_eq_true_2 by eauto.
        specialize (IH d). destruct (for_each_file rest d) as [[r d'] t].
        exact IH.
      * rewrite bool_decide_eq_false_2 by apply is_Some_None.
        destruct (d !! filename) as [c|] eqn:Hold.
        -- rewrite bool_decide_eq_false_2
             by (rewrite Hnew; apply is_Some_None).
           specialize (IH (<[base +:+ ext := c]> (delete filename d))).
           destruct (for_each_file rest _) as [[r d'] t].
           destruct IH as [Hc Ht]. cbn in *.
           destruct r; (split; [rewrite Hc; apply contents_rename; auto
                               | constructor; [reflexivity | exact Ht]]).
        -- split; [reflexivity | constructor].
    + cbv [mbind prog_bind mret prog_ret emit print].
      specialize (IH d). destruct (for_each_file rest d) as [[r d'] t].
      exact IH.
Qed.

(** A file whose intended name is taken stays where it is. *)
Lemma for_each_file_skips (filename base ext : string) (rest : list string)
    (d : directory) :
  re_match filename = Some (base, ext) →
  filename ≠ base +:+ ext →
  is_Some (d !! (base +:+ ext)) →
  for_each_file (filename :: rest) d =
  let r := for_each_file rest d in
  (result_of r, state_of r,
   Print "Warning: {new_filename} already exists, skipping {filename}"
     [AStr (base +:+ ext); AStr filename] :: trace_of r).
Proof.
  intros Hm Hne Htaken. cbn [for_each_file]. rewrite Hm.
  destruct (String.eqb_spec filename (base +:+ ext)) as [Heq|_]; [contradiction|].
  cbn [negb].
  cbv [mbind prog_bind mret prog_ret emit get_state print os_path_exists].
  rewrite bool_decide_eq_true_2 by exact Htaken.
  destruct (for_each_file rest d) as [[r d'] t]. reflexivity.
Qed.

End renaming.

(** ** Flattening the [.dac] sub-directories *)

Section flattening.
Import rename_files.

Lemma suffixed_inj (name : string) : Inj (=) (=) (suffixed name).
Proof.
  intros j k Hjk. unfold suffixed in Hjk.
  apply String.app_inj in Hjk. apply String.app_inj in Hjk.
  apply (inj pretty). exact Hjk.
Qed.

(** The loop stops at the first free candidate, provided there is one
    within its fuel. *)
Lemma while_exists_finds (base : directory) (name : string) (fuel suffix : nat) :
  (∃ k, suffix ≤ k < suffix + fuel ∧ base !! suffixed name k = None)%nat →
  ∃ k, while_exists base name suffix fuel = Some (suffixed name k)
       ∧ (suffix ≤ k)%nat
       ∧ base !! suffixed name k = None
       ∧ ∀ j, (suffix ≤ j < k)%nat → is_Some (base !! suffixed name j).
Proof.
  revert suffix. induction fuel as [|fuel IH]; intros suffix (k & Hk & Hfree).
  - lia.
  - cbn [while_exists].
    destruct (base !! suffixed name suffix) as [nd|] eqn:Hs.
    + rewrite bool_decide_eq_true_2 by eauto.
      destruct (IH (S suffix)) as (k' & Hw & Hle & Hf & Hbelow).
      { exists k. split; [|exact Hfree].
        destruct (decide (k = suffix)) as [->|]; [congruence | lia]. }
      exists k'. repeat split; auto; try lia.
      intros j Hj. destruct (decide (j = suffix)) as [->|]; [eauto|].
      apply Hbelow. lia.
    + rewrite bool_decide_eq_false_2 by apply is_Some_None.
      exists suffix. repeat split; auto. intros j Hj. lia.
Qed.

(** Among more candidates than the directory has entries, one is free. *)
Lemma candidate_free (base : directory) (name : string) (first : nat) :
  ∃ k, (first ≤ k < first + S (size base))%nat ∧ base !! suffixed name k = None.
Proof.
  set (cands := seq first (S (size base))).
  destruct (decide (Exists (λ k, base !! suffixed name k = None) cands))
    as [Hex|Hall].
  - apply Exists_exists in Hex as (k & Hin & Hk).
    exists k. split; [|exact Hk]. apply elem_of_seq in Hin. lia.
  - exfalso. apply not_Exists_Forall in Hall; [|intros k; apply _].
    assert (suffixed name <$> cands ⊆+ (map_to_list base).*1) as Hsub.
    { apply NoDup_submseteq.
      - apply NoDup_fmap_2; [apply suffixed_inj | apply NoDup_seq].
      - intros x Hx. apply list_elem_of_fmap in Hx as (k & -> & Hk).
        rewrite Forall_forall in Hall. specialize (Hall k Hk). simpl in Hall.
        destruct (base !! suffixed name k) as [nd|] eqn:E; [|contradiction].
        apply list_elem_of_fmap. exists (suffixed name k, nd). split; [reflexivity|].
        apply elem_of_map_to_list. exact E. }
    apply submseteq_length in Hsub.
    rewrite !length_fmap, length_map_to_list in Hsub.
    unfold cands in Hsub. rewrite length_seq in Hsub. lia.
Qed.

(** The destination search always ends, on a name that is free: the
    intended name when it is free, and otherwise the intended name
    followed by [_k] for the least [k >= 1] whose candidate is free. *)
Lemma free_destination_spec (base : directory) (name : string) :
  ∃ dest,
    free_destination base name = Some dest
    ∧ base !! dest = None
    ∧ (base !! name = None → dest = name)
    ∧ (is_Some (base !! name) →
       ∃ k, (1 ≤ k)%nat ∧ dest = suffixed name k
            ∧ ∀ j, (1 ≤ j < k)%nat → is_Some (base !! suffixed name j)).
Proof.
  unfold free_destination.
  destruct (base !! name) as [nd|] eqn:Hname.
  - rewrite bool_decide_eq_true_2 by eauto.
    destruct (while_exists_finds base name (S (size base)) 1
                (candidate_free base name 1)) as (k & Hw & Hle & Hf & Hbelow).
    exists (suffixed name k). repeat split; auto; [discriminate|].
    intros _. exists k. auto.
  - rewrite bool_decide_eq_false_2 by apply is_Some_None.
    exists name. repeat split; auto. intros [? ?]. discriminate.
Qed.

Lemma keeps_files_refl (base : directory) : keeps_files base base.
Proof. intros name content H. exact H. Qed.

Lemma keeps_files_trans (b1 b2 b3 : directory) :
  keeps_files b1 b2 → keeps_files b2 b3 → keeps_files b1 b3.
Proof. intros H12 H23 name content H. apply H23, H12, H. Qed.

(** Moving a file of a sub-directory to a free name, and removing a
    sub-directory, leave the regular files of the target directory
    alone. *)
Lemma keeps_files_move (base : directory) (subdir file content dest : string) :
  base !! dest = None →
  keeps_files base
    (<[dest := File content]>
       match base !! subdir with
       | Some (Dir entries) => <[subdir := Dir (delete file entries)]> base
       | _ => base
       end).
Proof.
  intros Hfree name c Hname.
  assert (name ≠ dest) as Hne by congruence.
  rewrite lookup_insert_ne by auto.
  destruct (base !! subdir) as [[c'|entries]|] eqn:Hs; try exact Hname.
  rewrite lookup_insert_ne by congruence. exact Hname.
Qed.

Lemma keeps_files_rmdir (base : directory) (subdir : string) (entries : gmap string entry) :
  base !! subdir = Some (Dir entries) → keeps_files base (delete subdir base).
Proof.
  intros Hs name c Hname. rewrite lookup_delete_ne by congruence. exact Hname.
Qed.

Ltac run_script :=
  cbv [mbind prog_bind mret prog_ret emit get_state put_state log
       shutil_move rmdir].

Lemma move_each_flat (subdir : string) (files : list (string * entry)) :
  ∀ base, flat_run base (move_each subdir files base).
Proof.
  induction files as [|[name [content|]] rest IH]; intros base.
  - repeat split; [constructor | apply keeps_files_refl].
  - cbn [move_each]. run_script.
    destruct (free_destination_spec base (py.stem subdir +:+ "--" +:+ name))
      as (dest & -> & Hfree & _).
    rewrite bool_decide_eq_false_2 by (rewrite Hfree; apply is_Some_None).
    match goal with |- context [move_each subdir rest ?b] =>
      specialize (IH b); destruct (move_each subdir rest b) as [[ok b'] t] end.
    destruct IH as (Hok & Ht & Hk). cbn in *.
    repeat split; [exact Hok | repeat constructor; exact Ht |].
    eapply keeps_files_trans; [|exact Hk]. apply keeps_files_move. exact Hfree.
  - cbn [move_each]. apply IH.
Qed.

Lemma move_each_keeps_subdir (subdir : string) (files : list (string * entry)) :
  ∀ base entries,
    base !! subdir = Some (Dir entries) →
    ∃ entries', state_of (move_each subdir files base) !! subdir = Some (Dir entries').
Proof.
  induction files as [|[name [content|]] rest IH]; intros base entries Hs.
  - exists entries. exact Hs.
  - cbn [move_each]. run_script.
    destruct (free_destination_spec base (py.stem subdir +:+ "--" +:+ name))
      as (dest & -> & Hfree & _).
    rewrite Hs.
    match goal with |- context [move_each subdir rest ?b] =>
      destruct (IH b (delete name entries)) as (entries' & He);
      [|destruct (move_each subdir rest b) as [[ok b'] t]] end.
    + rewrite lookup_insert_ne by congruence. apply lookup_insert_eq.
    + exists entries'. exact He.
  - cbn [move_each]. eapply IH. exact Hs.
Qed.

Lemma move_all_flat (subdir : string) (files : list (string * entry))
    (base : directory) (entries : gmap string entry) :
  base !! subdir = Some (Dir entries) →
  flat_run base (move_all subdir files base).
Proof.
  intros Hs. unfold move_all. run_script.
  pose proof (move_each_flat subdir files base) as (Hok & Ht & Hk).
  destruct (move_each_keeps_subdir subdir files base entries Hs) as (entries' & He).
  destruct (move_each subdir files base) as [[ok b'] t]. cbn in *. subst ok.
  unfold glob_all. rewrite He.
  destruct (map_to_list entries') as [|x l]; cbn.
  - repeat split; [repeat constructor; rewrite Forall_app; split;
                   [exact Ht | repeat constructor] |].
    eapply keeps_files_trans; [exact Hk|]. eapply keeps_files_rmdir, He.
  - repeat split; [|exact Hk].
    repeat constructor. rewrite Forall_app. split; [exact Ht | repeat constructor].
Qed.

Lemma process_flat (subdir : string) (base : directory) :
  flat_run base (process subdir base).
Proof.
  unfold process. run_script.
  destruct (base !! subdir) as [[c|entries]|] eqn:Hs;
    try (repeat split; [constructor | apply keeps_files_refl]).
  destruct (py.endswith subdir ".dac");
    [|repeat split; [constructor | apply keeps_files_refl]].
  unfold glob_all at 1. rewrite Hs.
  destruct (map_to_list entries) as [|[name [content|]] [|x l]] eqn:Hl;
    try (pose proof (move_all_flat subdir (glob_all base subdir) base entries Hs)
           as Hall;
         destruct (move_all subdir (glob_all base subdir) base) as [[ok b'] t];
         exact Hall).
  - repeat split; [repeat constructor | eapply keeps_files_rmdir, Hs].
  - destruct (free_destination_spec base subdir) as (dest & -> & Hfree & _).
    rewrite bool_decide_eq_false_2 by (rewrite Hfree; apply is_Some_None).
    rewrite Hs. repeat split; [repeat constructor|]. cbn.
    eapply keeps_files_trans.
    + apply (keeps_files_move base subdir name content dest Hfree).
    + rewrite Hs. eapply keeps_files_rmdir.
      rewrite lookup_insert_ne by congruence. apply lookup_insert_eq.
Qed.

Lemma for_each_subdir_flat (names : list string) :
  ∀ base, flat_run base (for_each_subdir names base).
Proof.
  induction names as [|subdir rest IH]; intros base.
  - repeat split; [constructor | apply keeps_files_refl].
  - cbn [for_each_subdir]. run_script.
    pose proof (process_flat subdir base) as (Hok & Ht & Hk).
    destruct (process subdir base) as [[ok b'] t]. cbn in *. subst ok.
    specialize (IH b'). destruct (for_each_subdir rest b') as [[ok b''] t'].
    destruct IH as (Hok' & Ht' & Hk'). cbn in *.
    repeat split; [exact Hok' | apply Forall_app; auto |].
    eapply keeps_files_trans; eauto.
Qed.
(** A [.dac] sub-directory holding one regular file: its own name is
    taken (by the sub-directory itself), so the file always lands on a
    numbered name, the first free one, and the sub-directory goes. *)
Lemma process_single_file (base : directory) (subdir name content : string) :
  base !! subdir = Some (Dir {[name := EFile content]}) →
  py.endswith subdir ".dac" = true →
  ∃ k, (1 ≤ k)%nat
       ∧ (∀ j, (1 ≤ j < k)%nat → is_Some (base !! suffixed subdir j))
       ∧ base !! suffixed subdir k = None
       ∧ process subdir base =
         (true, <[suffixed subdir k := File content]> (delete subdir base),
          [Log INFO "Renaming {src_file} to {dest_file}"
             [AStr (py.joinpath subdir name); AStr (suffixed subdir k)];
           Move (subdir, name) (suffixed subdir k) false;
           Rmdir subdir]).
Proof.
  intros Hs Hdac.
  destruct (free_destination_spec base subdir) as (dest & Hd & Hfree & _ & Hk).
  destruct Hk as (k & Hk1 & -> & Hbelow); [eauto|].
  exists k. repeat split; auto.
  unfold process. run_script. rewrite Hs, Hdac.
  unfold glob_all. rewrite Hs, map_to_list_singleton, Hd.
  rewrite bool_decide_eq_false_2 by (rewrite Hfree; apply is_Some_None).
  rewrite Hs. f_equal. f_equal.
  assert (suffixed subdir k ≠ subdir) as Hne by congruence.
  rewrite delete_insert_ne by auto.
  rewrite delete_insert_eq. reflexivity.
Qed.

(** One turn of the loop over several files: the file goes to the
    destination found for [stem--name], which did not exist. *)
Lemma move_each_file (base : directory) (subdir name content : string)
    (rest : list (string * entry)) :
  ∃ dest,
    free_destination base (py.stem subdir +:+ "--" +:+ name) = Some dest
    ∧ base !! dest = None
    ∧ move_each subdir ((name, EFile content) :: rest) base =
      let base' :=
        <[dest := File content]>
          match base !! subdir with
          | Some (Dir entries) => <[subdir := Dir (delete name entries)]> base
          | _ => base
          end in
      let r := move_each subdir rest base' in
      (result_of r, state_of r,
       Log INFO "Moving {file} to {dest_file}"
         [AStr (py.joinpath subdir name); AStr dest]
       :: Move (subdir, name) dest false :: trace_of r).
Proof.
  destruct (free_destination_spec base (py.stem subdir +:+ "--" +:+ name))
    as (dest & Hd & Hfree & _).
  exists dest. split; [exact Hd|]. split; [exact Hfree|].
  cbn [move_each]. run_script. rewrite Hd.
  rewrite bool_decide_eq_false_2 by (rewrite Hfree; apply is_Some_None).
  cbn zeta.
  destruct (move_each subdir rest _) as [[ok b'] t]. reflexivity.
Qed.
End flattening.

(** ** No destination is overwritten *)

(** C3, as stated, fails for the renaming script: the intended name
    [Zelda--param1-00.50.dac] of [Zelda--param1-00.50_v2.dac] is
    taken, and the file is not moved to a numbered name; it is skipped
    and stays where it is. *)
Lemma C3_rename_skips_on_collision :
  ¬ rename_dac_files.suffixed_on_collision rename_dac_files.zelda_dir
      (rename_dac_files.glob_dac rename_dac_files.zelda_dir).
Proof.
  intros H.
  destruct (H "Zelda--param1-00.50_v2.dac" "Zelda--param1-00.50" ".dac")
    as (k & b & Hin).
  - vm_compute. repeat constructor.
  - reflexivity.
  - discriminate.
  - vm_compute. eauto.
  - assert (rename_dac_files.renames
              (trace_of (rename_dac_files.for_each_file
                           (rename_dac_files.glob_dac rename_dac_files.zelda_dir)
                           rename_dac_files.zelda_dir))
            = [("Zelda--param1-00.75-raw.dac", "Zelda--param1-00.75.dac", false)])
      as Ht by (vm_compute; reflexivity).
    rewrite Ht in Hin. apply list_elem_of_singleton in Hin.
    injection Hin as Hname _ _. discriminate Hname.
Qed.

(** C3 (amended).  Neither script ever overwrites an existing
    destination.  The flattening script always ends, every move of a
    run goes to a name that did not exist, and every regular file of
    the target directory is still there afterwards, unchanged; the
    destination it picks is the intended name when that is free and
    otherwise the intended name followed by [_k], for the least
    [k >= 1] that gives a free name.  The file of a sub-directory
    holding one file lands on such a numbered name (the intended name
    is that of the sub-directory), and each file of a sub-directory
    holding several is moved to the destination picked for
    [stem--name].  The renaming script uses no
    numeric suffix: no rename of a run replaces an entry and the
    contents of the directory are the same files afterwards, and a
    file whose intended name is taken is skipped with a warning and
    stays where it is. *)
Theorem C3_no_destination_overwritten :
  (∀ (target_dir : string) (base : rename_files.directory),
     ∃ base' t,
       rename_files.main target_dir (Some base) = (true, Some base', t)
       ∧ Forall rename_files.no_replacement t
       ∧ rename_files.keeps_files base base')
  ∧ (∀ (base : rename_files.directory) (name : string),
       ∃ dest,
         rename_files.free_destination base name = Some dest
         ∧ base !! dest = None
         ∧ (base !! name = None → dest = name)
         ∧ (is_Some (base !! name) →
            ∃ k, (1 ≤ k)%nat ∧ dest = rename_files.suffixed name k
                 ∧ ∀ j, (1 ≤ j < k)%nat →
                        is_Some (base !! rename_files.suffixed name j)))
  ∧ (∀ (base : rename_files.directory) (subdir name content : string),
       base !! subdir = Some (rename_files.Dir {[name := rename_files.EFile content]}) →
       py.endswith subdir ".dac" = true →
       ∃ k, (1 ≤ k)%nat
            ∧ (∀ j, (1 ≤ j < k)%nat →
                    is_Some (base !! rename_files.suffixed subdir j))
            ∧ base !! rename_files.suffixed subdir k = None
            ∧ state_of (rename_files.process subdir base)
              = <[rename_files.suffixed subdir k := rename_files.File content]>
                  (delete subdir base))
  ∧ (∀ (base : rename_files.directory) (subdir name content : string)
       (rest : list (string * rename_files.entry)),
       ∃ dest,
         rename_files.free_destination base (py.stem subdir +:+ "--" +:+ name)
           = Some dest
         ∧ rename_files.moves
             (trace_of (rename_files.move_each subdir
                          ((name, rename_files.EFile content) :: rest) base))
           = (subdir, name, dest, false)
             :: rename_files.moves
                  (trace_of (rename_files.move_each subdir rest
                     (<[dest := rename_files.File content]>
                        match base !! subdir with
                        | Some (rename_files.Dir entries) =>
                            <[subdir := rename_files.Dir (delete name entries)]> base
                        | _ => base
                        end))))
  ∧ (∀ d : rename_dac_files.directory,
       rename_dac_files.safe_run d (rename_dac_files.rename_dac_files d))
  ∧ (∀ (d : rename_dac_files.directory) (filename base ext : string)
       (rest : list string),
       rename_dac_files.re_match filename = Some (base, ext) →
       filename ≠ base +:+ ext →
       is_Some (d !! (base +:+ ext)) →
       rename_dac_files.for_each_file (filename :: rest) d =
       let r := rename_dac_files.for_each_file rest d in
       (result_of r, state_of r,
        rename_dac_files.Print
          "Warning: {new_filename} already exists, skipping {filename}"
          [rename_dac_files.AStr (base +:+ ext); rename_dac_files.AStr filename]
        :: trace_of r)).
Proof.
  split; [|split; [|split; [|split; [|split]]]].
  - intros target_dir base. unfold rename_files.main.
    pose proof (for_each_subdir_flat (map_to_list base).*1 base) as (Hok & Ht & Hk).
    destruct (rename_files.for_each_subdir _ base) as [[ok base'] t].
    cbn in *. subst ok. exists base', t. auto.
  - apply free_destination_spec.
  - intros base subdir name content Hs Hdac.
    destruct (process_single_file base subdir name content Hs Hdac)
      as (k & Hk & Hbelow & Hfree & Hrun).
    exists k. rewrite Hrun. auto.
  - intros base subdir name content rest.
    destruct (move_each_file base subdir name content rest)
      as (dest & Hd & _ & Hrun).
    exists dest. split; [exact Hd|]. rewrite Hrun. reflexivity.
  - intros d. unfold rename_dac_files.rename_dac_files.
    cbv [mbind prog_bind get_state].
    pose proof (for_each_file_safe (rename_dac_files.glob_dac d) d) as Hs.
    destruct (rename_dac_files.for_each_file _ d) as [[r d'] t]. exact Hs.
  - intros d filename base ext rest. apply for_each_file_skips.
Qed.

Lemma C3_no_destination_overwritten_witness :
  (is_Some (rename_files.encoded !! "a.dac")
   ∧ ∃ k, (1 ≤ k)%nat
          ∧ rename_files.free_destination rename_files.encoded "a.dac"
            = Some (rename_files.suffixed "a.dac" k))
  ∧ (rename_dac_files.re_match "Zelda--param1-00.50_v2.dac"
       = Some ("Zelda--param1-00.50", ".dac")
     ∧ "Zelda--param1-00.50_v2.dac" ≠ "Zelda--param1-00.50" +:+ ".dac"
     ∧ is_Some (rename_dac_files.zelda_dir !! ("Zelda--param1-00.50" +:+ ".dac"))
     ∧ state_of (rename_dac_files.for_each_file ["Zelda--param1-00.50_v2.dac"]
                   rename_dac_files.zelda_dir)
       = rename_dac_files.zelda_dir).
Proof.
  destruct C3_no_destination_overwritten as (_ & Hdest & _ & _ & _ & Hskip).
  split.
  - assert (is_Some (rename_files.encoded !! "a.dac")) as Hsome
      by (vm_compute; eauto).
    split; [exact Hsome|].
    destruct (Hdest rename_files.encoded "a.dac") as (dest & Hd & _ & _ & Hk).
    destruct (Hk Hsome) as (k & Hk1 & -> & _). exists k. auto.
  - assert (rename_dac_files.re_match "Zelda--param1-00.50_v2.dac"
            = Some ("Zelda--param1-00.50", ".dac")) as H1 by reflexivity.
    assert ("Zelda--param1-00.50_v2.dac" ≠ "Zelda--param1-00.50" +:+ ".dac")
      as H2 by discriminate.
    assert (is_Some (rename_dac_files.zelda_dir !! ("Zelda--param1-00.50" +:+ ".dac")))
      as H3 by (vm_compute; eauto).
    split; [exact H1|]. split; [exact H2|]. split; [exact H3|].
    rewrite (Hskip rename_dac_files.zelda_dir _ _ _ [] H1 H2 H3). reflexivity.
Defined.

(** ** Routing files by spreadsheet *)

Section routing.
Import reorganize_dac_files.


Lemma lookup_write_ne (fs : filesystem) (p q : path) (c : string) :
  p ≠ q → lookup_file (write_file fs p c) q = lookup_file fs q.
Proof.
  intros Hne. unfold lookup_file, write_file.
  destruct (decide (p.1 = q.1)) as [Hd|Hd].
  - rewrite Hd, lookup_insert_eq. simpl.
    rewrite lookup_insert_ne.
    + destruct (fs !! q.1); [reflexivity | simpl; apply lookup_empty].
    + intros Hn. apply Hne. destruct p, q; simpl in *; congruence.
  - rewrite lookup_insert_ne by exact Hd. reflexivity.
Qed.



Lemma lookup_makedirs (fs : filesystem) (dir : string) (q : path) :
  lookup_file (<[dir := default ∅ (fs !! dir)]> fs) q = lookup_file fs q.
Proof.
  unfold lookup_file. destruct (decide (dir = q.1)) as [<-|Hd].
  - rewrite lookup_insert_eq. destruct (fs !! dir); reflexivity.
  - rewrite lookup_insert_ne by exact Hd. reflexivity.
Qed.



Lemma report_missing_run (desc : string) (missing : list string) :
  ∃ t, ∀ fs : filesystem, report_missing desc missing fs = (tt, fs, t).
Proof.
  unfold report_missing. destruct missing as [|m l].
  - eexists. intros fs. reflexivity.
  - destruct (length (m :: l) <? 10)%nat; eexists; intros fs; reflexivity.
Qed.








End routing.

(** ** Missing inputs *)

(** C4, as stated, fails: when the validation sheet cannot be read the
    run of the reorganize script ends at once, and the rows of the
    training sheet, which was read, are not routed either. *)
Lemma C4_missing_sheet_ends_run :
  ¬ reorganize_dac_files.missing_sheet_skips_only_its_rows
      reorganize_dac_files.sheets reorganize_dac_files.no_val_args
      reorganize_dac_files.raw.
Proof.
  intros H.
  specialize (H ["a.dac"; "b.dac"; "gone.dac"] "[Errno 2] No such file or directory"
                eq_refl eq_refl "b.dac" "B").
  assert ("b.dac" ∈ ["a.dac"; "b.dac"; "gone.dac"]) as Hin by (right; left).
  specialize (H Hin eq_refl). vm_compute in H. discriminate.
Qed.

(** C4 (amended).  A file name that does not match the pattern is
    reported by a warning and only that file is skipped: the renaming
    loop goes on with the other files.  A missing input directory of
    the encode script is logged at level ERROR and the run ends there:
    nothing is probed or encoded.  A spreadsheet that cannot be read
    makes the reorganize script print an error and return at once,
    without an exception: no row of either sheet is routed and every
    file stays as it was. *)
Theorem C4_missing_inputs :
  (∀ (d : rename_dac_files.directory) (filename : string) (rest : list string),
     rename_dac_files.re_match filename = None →
     rename_dac_files.for_each_file (filename :: rest) d =
     let r := rename_dac_files.for_each_file rest d in
     (result_of r, state_of r,
      rename_dac_files.Print
        "Warning: {filename} does not match the expected pattern, skipping"
        [rename_dac_files.AStr filename] :: trace_of r))
  ∧ (∀ (w : dac_encode.world) (args : dac_encode.arguments) (s : nat),
       dac_encode.lookup_path w (dac_encode.arg_input_dir args) = None →
       dac_encode.main w args s =
       (tt, s,
        [dac_encode.Mkdir (dac_encode.arg_output_dir args);
         dac_encode.Log dac_encode.ERROR
           "Input directory {input_dir} does not exist"
           [dac_encode.AStr (dac_encode.arg_input_dir args)]]))
  ∧ (∀ (w : reorganize_dac_files.world) (args : reorganize_dac_files.arguments)
       (fs : reorganize_dac_files.filesystem) (e : string),
       reorganize_dac_files.read_excel w (reorganize_dac_files.train_excel args) = inl e
       ∨ (∃ train_files,
            reorganize_dac_files.read_excel w (reorganize_dac_files.train_excel args)
              = inr train_files
            ∧ reorganize_dac_files.read_excel w (reorganize_dac_files.val_excel args)
              = inl e) →
       let r := reorganize_dac_files.main w args fs in
       result_of r = reorganize_dac_files.Returned
       ∧ trace_of r =
         [reorganize_dac_files.Makedirs (reorganize_dac_files.train_dir args);
          reorganize_dac_files.Makedirs (reorganize_dac_files.val_dir args);
          reorganize_dac_files.Print "Reading Excel files..." [];
          reorganize_dac_files.Print "Error reading Excel files: {e}"
            [reorganize_dac_files.AStr e]]
       ∧ ∀ p, reorganize_dac_files.lookup_file (state_of r) p
              = reorganize_dac_files.lookup_file fs p).
Proof.
  split; [|split].
  - intros d filename rest Hm. cbn [rename_dac_files.for_each_file]. rewrite Hm.
    cbv [mbind prog_bind mret prog_ret emit rename_dac_files.print].
    destruct (rename_dac_files.for_each_file rest d) as [[r d'] t]. reflexivity.
  - intros w args s Hin. unfold dac_encode.main.
    cbv [mbind prog_bind mret prog_ret emit dac_encode.log]. rewrite Hin.
    reflexivity.
  - intros w args fs e Hread. cbn zeta.
    unfold reorganize_dac_files.main, reorganize_dac_files.makedirs.
    cbv [mbind prog_bind mret prog_ret emit get_state put_state
         reorganize_dac_files.print].
    destruct Hread as [Ht|(train_files & Ht & Hv)]; rewrite Ht; [|rewrite Hv];
      (split; [reflexivity|]; split; [reflexivity|]);
      intros p; unfold state_of; cbn [fst snd];
      rewrite !lookup_makedirs; reflexivity.
Qed.

Lemma C4_missing_inputs_witness :
  (rename_dac_files.re_match "notes.dac" = None
   ∧ state_of (rename_dac_files.for_each_file ["notes.dac"] rename_dac_files.zelda_dir)
     = rename_dac_files.zelda_dir)
  ∧ (dac_encode.lookup_path dac_encode.cpu_only "nowhere" = None
     ∧ dac_encode.encode_calls
         (trace_of (dac_encode.main dac_encode.cpu_only
                      {| dac_encode.arg_input_dir := "nowhere";
                         dac_encode.arg_output_dir := "out";
                         dac_encode.arg_model_bitrate := "8kbps";
                         dac_encode.arg_n_quantizers := 4;
                         dac_encode.arg_device := "auto";
                         dac_encode.arg_batch_size := 1;
                         dac_encode.arg_class_name := "Zelda";
                         dac_encode.arg_param1 := py.Finite 1;
                         dac_encode.arg_randomize_param1 := false |} 0%nat)) = [])
  ∧ (reorganize_dac_files.read_excel reorganize_dac_files.sheets
       (reorganize_dac_files.val_excel reorganize_dac_files.no_val_args)
     = inl "[Errno 2] No such file or directory"
     ∧ result_of (reorganize_dac_files.main reorganize_dac_files.sheets
                    reorganize_dac_files.no_val_args reorganize_dac_files.raw)
       = reorganize_dac_files.Returned).
Proof.
  destruct C4_missing_inputs as (Hpat & Hdir & Hsheet).
  split; [|split].
  - split; [reflexivity|].
    rewrite (Hpat rename_dac_files.zelda_dir "notes.dac" [] eq_refl). reflexivity.
  - split; [reflexivity|]. rewrite Hdir by reflexivity. reflexivity.
  - split; [reflexivity|].
    apply (Hsheet reorganize_dac_files.sheets reorganize_dac_files.no_val_args
             reorganize_dac_files.raw "[Errno 2] No such file or directory").
    right. exists ["a.dac"; "b.dac"; "gone.dac"]. split; reflexivity.
Defined.
(** ** More on the parameter format *)

Section format_more.
Import dac_encode.

Lemma clamp_cases (q : Q) :
  ((q <= 0)%Q ∧ clamp (py.Finite q) = py.Finite 0)
  ∨ ((1 <= q)%Q ∧ clamp (py.Finite q) = py.Finite 1)
  ∨ ((0 < q)%Q ∧ (q < 1)%Q ∧ clamp (py.Finite q) = py.Finite q).
Proof.
  unfold clamp, py.max2, py.min2, py.gt, py.lt, py.Qltb.
  destruct (Qle_bool 1 q) eqn:H1; simpl.
  - apply Qle_bool_iff in H1. right. left. split; [exact H1 | reflexivity].
  - assert (q < 1)%Q as H1'.
    { apply Qnot_le_lt. intros H. apply Qle_bool_iff in H. congruence. }
    destruct (Qle_bool q 0) eqn:H0; simpl.
    + apply Qle_bool_iff in H0. left. split; [exact H0 | reflexivity].
    + right. right. repeat split; try assumption.
      apply Qnot_le_lt. intros H. apply Qle_bool_iff in H. congruence.
Qed.

Lemma format_param_value_clamp (v : py.float) :
  format_param_value v = py.take 5 (py.format_05_2f (clamp v)).
Proof. reflexivity. Qed.

Lemma clamp_not_finite :
  clamp py.NaN = py.Finite 1 ∧ clamp py.PosInf = py.Finite 1
  ∧ clamp py.NegInf = py.Finite 0.
Proof. repeat split. Qed.

(** X1.  Out-of-range parameters saturate: everything at or below zero,
    minus infinity included, is written [00.00]; everything at or
    above one, plus infinity included, is written [01.00], and so is
    NaN (which [min(1.0, nan)] turns into [1.0]). *)
Theorem format_param_value_saturates :
  (∀ q : Q, (q <= 0)%Q → format_param_value (py.Finite q) = "00.00")
  ∧ (∀ q : Q, (1 <= q)%Q → format_param_value (py.Finite q) = "01.00")
  ∧ format_param_value py.NegInf = "00.00"
  ∧ format_param_value py.PosInf = "01.00"
  ∧ format_param_value py.NaN = "01.00".
Proof.
  split; [|split; [|repeat split]].
  - intros q Hq. rewrite format_param_value_clamp.
    destruct (clamp_cases q) as [[_ ->]|[[H1 _]|(H0 & _ & _)]];
      [reflexivity | lra | lra].
  - intros q Hq. rewrite format_param_value_clamp.
    destruct (clamp_cases q) as [[H0 _]|[[_ ->]|(_ & H1 & _)]];
      [lra | reflexivity | lra].
Qed.

Lemma format_param_value_saturates_witness :
  format_param_value (py.Finite (-3)) = "00.00"
  ∧ format_param_value (py.Finite (7 # 2)) = "01.00".
Proof.
  destruct format_param_value_saturates as (Hlo & Hhi & _).
  split; [apply Hlo | apply Hhi]; unfold Qle; simpl; lia.
Defined.

Lemma clamp_idempotent (v : py.float) : clamp (clamp v) = clamp v.
Proof.
  destruct v as [q| | |]; try reflexivity.
  destruct (clamp_cases q) as [[_ ->]|[[_ ->]|(H0 & H1 & E)]];
    [reflexivity | reflexivity |].
  rewrite E.
  destruct (clamp_cases q) as [[H _]|[[H _]|(_ & _ & E')]]; [lra | lra | exact E'].
Qed.

(** X2.  The clamp of [main] and the clamp of [format_param_value] compose
    to one clamp: the parameter [main] has clamped, logs and hands to
    [generate_output_filename] gives the file name of the raw
    [--param1] value. *)
Theorem clamped_param1_same_filename
    (original_name class_name : string) (param1 : py.float) :
  clamp (clamp param1) = clamp param1
  ∧ generate_output_filename original_name class_name (clamp param1)
    = generate_output_filename original_name class_name param1.
Proof.
  split; [apply clamp_idempotent|].
  unfold generate_output_filename.
  rewrite !format_param_value_clamp, clamp_idempotent. reflexivity.
Qed.

Lemma round_half_even_cases (x : Q) :
  py.round_half_even x = Qfloor x ∨ py.round_half_even x = (Qfloor x + 1)%Z.
Proof.
  unfold py.round_half_even.
  destruct (_ ?= _)%Q; [destruct (Z.even _)| |]; auto.
Qed.

Lemma round_half_even_mono (x y : Q) :
  (x <= y)%Q → (py.round_half_even x ≤ py.round_half_even y)%Z.
Proof.
  intros Hxy.
  pose proof (Qfloor_resp_le _ _ Hxy) as Hfg.
  destruct (Z.eq_dec (Qfloor x) (Qfloor y)) as [E|Hne].
  - unfold py.round_half_even. rewrite <- E.
    destruct (Qcompare_spec (x - inject_Z (Qfloor x)) (1 # 2)) as [He|Hl|Hg];
      destruct (Qcompare_spec (y - inject_Z (Qfloor x)) (1 # 2)) as [He'|Hl'|Hg'];
      try destruct (Z.even (Qfloor x)); try lia; lra.
  - destruct (round_half_even_cases x) as [->| ->].
    + destruct (round_half_even_cases y) as [->| ->]; lia.
    + destruct (round_half_even_cases y) as [->| ->]; lia.
Qed.

(** The formatted text of a value of the unit interval. *)
Lemma format_unit_interval (c : Q) :
  (0 <= c)%Q → (c <= 1)%Q →
  let k := Z.to_nat (py.round_half_even (c * 100)) in
  (k ≤ 100)%nat ∧ py.take 5 (py.format_05_2f (py.Finite c)) = five_chars k.
Proof.
  intros Hc0 Hc1. cbn zeta.
  assert (0 ≤ py.round_half_even (c * 100) ≤ 100)%Z as Hn.
  { apply round_half_even_range;
      [change (inject_Z 0) with 0%Q | change (inject_Z 100) with 100%Q]; lra. }
  split; [lia|].
  unfold py.format_05_2f.
  assert (py.Qltb c 0 = false) as ->.
  { unfold py.Qltb. apply negb_false_iff, Qle_bool_iff. exact Hc0. }
  unfold py.fixed_2f, five_chars. rewrite Z2Nat.id by lia. reflexivity.
Qed.

Lemma clamp_finite_value (q : Q) :
  ∃ c, clamp (py.Finite q) = py.Finite c ∧ (0 <= c)%Q ∧ (c <= 1)%Q
       ∧ ∀ q' c', (q <= q')%Q → clamp (py.Finite q') = py.Finite c' → (c <= c')%Q.
Proof.
  destruct (clamp_cases q) as [[H ->]|[[H ->]|(H0 & H1 & ->)]];
    eexists; (split; [reflexivity|]); (split; [lra|]); (split; [lra|]);
    intros q' c' Hq' E;
    destruct (clamp_cases q') as [[H' E']|[[H' E']|(H0' & H1' & E')]];
    rewrite E' in E; injection E as <-; lra.
Qed.

Lemma format_param_value_hundredths (v : py.float) :
  ∃ k, (k ≤ 100)%nat ∧ format_param_value v = five_chars k.
Proof.
  rewrite format_param_value_clamp.
  destruct v as [q| | |].
  - destruct (clamp_finite_value q) as (c & -> & H0 & H1 & _).
    eexists. apply format_unit_interval; assumption.
  - exists 100%nat. split; [lia | reflexivity].
  - exists 0%nat. split; [lia | reflexivity].
  - exists 100%nat. split; [lia | reflexivity].
Qed.

Lemma five_chars_sorted_all :
  forallb (λ i, forallb (λ j, (j <? i)%nat || five_chars_sorted i j) (seq 0 101))
    (seq 0 101) = true.
Proof. vm_compute. reflexivity. Qed.

(** X3.  Zero padding makes the names sort like the numbers: when
    [p <= q], the text written for [p] comes no later than the text
    written for [q] in the order of strings. *)
Theorem format_param_value_sorted (p q : Q) :
  (p <= q)%Q →
  String.leb (format_param_value (py.Finite p))
             (format_param_value (py.Finite q)) = true.
Proof.
  intros Hpq. rewrite !format_param_value_clamp.
  destruct (clamp_finite_value p) as (c & -> & Hc0 & Hc1 & Hmono).
  destruct (clamp_finite_value q) as (c' & Eq & Hc0' & Hc1' & _).
  specialize (Hmono q c' Hpq Eq). rewrite Eq.
  destruct (format_unit_interval c Hc0 Hc1) as [Hk ->].
  destruct (format_unit_interval c' Hc0' Hc1') as [Hk' ->].
  set (k := Z.to_nat (py.round_half_even (c * 100))) in *.
  set (k' := Z.to_nat (py.round_half_even (c' * 100))) in *.
  assert (k ≤ k')%nat as Hkk.
  { unfold k, k'. apply Z2Nat.inj_le.
    - apply (round_half_even_range _ 0 100);
        [change (inject_Z 0) with 0%Q | change (inject_Z 100) with 100%Q]; lra.
    - apply (round_half_even_range _ 0 100);
        [change (inject_Z 0) with 0%Q | change (inject_Z 100) with 100%Q]; lra.
    - apply round_half_even_mono. lra. }
  pose proof five_chars_sorted_all as Hall.
  rewrite forallb_forall in Hall.
  specialize (Hall k ltac:(apply in_seq; lia)).
  rewrite forallb_forall in Hall.
  specialize (Hall k' ltac:(apply in_seq; lia)).
  apply orb_prop in Hall as [Hlt|Hs]; [|exact Hs].
  apply Nat.ltb_lt in Hlt. lia.
Qed.

Lemma format_param_value_sorted_witness :
  ((1 # 4) <= (1 # 2))%Q
  ∧ String.leb (format_param_value (py.Finite (1 # 4)))
               (format_param_value (py.Finite (1 # 2))) = true
  ∧ format_param_value (py.Finite (1 # 4)) = "00.25"
  ∧ format_param_value (py.Finite (1 # 2)) = "00.50".
Proof.
  assert ((1 # 4) <= (1 # 2))%Q as H by (unfold Qle; simpl; lia).
  split; [exact H|]. split; [exact (format_param_value_sorted _ _ H)|].
  split; reflexivity.
Defined.

Lemma zelda_name_matches_all : forallb zelda_name_matches (seq 0 101) = true.
Proof. vm_compute. reflexivity. Qed.

Lemma for_each_file_canonical (filename base ext : string) (rest : list string)
    (d : rename_dac_files.directory) :
  rename_dac_files.re_match filename = Some (base, ext) →
  filename = base +:+ ext →
  rename_dac_files.for_each_file (filename :: rest) d
  = rename_dac_files.for_each_file rest d.
Proof.
  intros Hm Hc. cbn [rename_dac_files.for_each_file]. rewrite Hm.
  rewrite <- Hc, String.eqb_refl. reflexivity.
Qed.

(** X4.  The names the encoder gives in the class [Zelda] are the
    canonical names of the rename script: its pattern matches such a
    name whole, so the rename loop passes over the file without
    printing or renaming anything. *)
Theorem encoder_names_are_canonical
    (original_name : string) (param1 : py.float)
    (rest : list string) (d : rename_dac_files.directory) :
  let name := generate_output_filename original_name "Zelda" param1 in
  rename_dac_files.re_match name
    = Some ("Zelda--param1-" +:+ format_param_value param1, ".dac")
  ∧ rename_dac_files.for_each_file (name :: rest) d
    = rename_dac_files.for_each_file rest d.
Proof.
  cbn zeta. unfold generate_output_filename.
  destruct (format_param_value_hundredths param1) as (k & Hk & ->).
  pose proof zelda_name_matches_all as Hall.
  rewrite forallb_forall in Hall.
  specialize (Hall k ltac:(apply in_seq; lia)).
  apply bool_decide_eq_true in Hall.
  split; [exact Hall|].
  eapply for_each_file_canonical; [exact Hall | reflexivity].
Qed.

End format_more.

(** ** The calls of the codec in a run *)

Section calls.
Import dac_encode.

Lemma encode_calls_app (t1 t2 : list event) :
  encode_calls (t1 ++ t2) = encode_calls t1 ++ encode_calls t2.
Proof. apply omap_app. Qed.

Lemma encode_calls_routine (t : list event) :
  Forall (λ e, is_routine e = true) t → encode_calls t = [].
Proof.
  induction 1 as [|e t He Ht IH]; [reflexivity|].
  destruct e; try discriminate; exact IH.
Qed.

Lemma is_routine_quiet (e : event) :
  is_routine e = true → is_error e = false ∧ is_completed e = false.
Proof.
  destruct e; cbn [is_routine]; try discriminate; intros He;
    apply andb_prop in He as [H1 H2]; apply negb_true_iff in H1, H2; auto.
Qed.

Lemma is_completed_spec (e : event) : is_completed e = true ↔ e = completed.
Proof.
  split; [|intros ->; reflexivity].
  destruct e as [lv fmt l| | | |]; try discriminate.
  destruct lv, l; try discriminate. simpl.
  intros E. apply String.eqb_eq in E. subst. reflexivity.
Qed.

Lemma get_available_device_run (w : world) (req : string) (s : nat) :
  state_of (get_available_device w req s) = s
  ∧ Forall (λ e, is_routine e = true) (trace_of (get_available_device w req s)).
Proof.
  unfold get_available_device, try_mps, try_cuda, is_available, test_tensor.
  destruct (negb _), (mps_is_available w), (zeros_to w "mps"),
    (cuda_is_available w), (zeros_to w "cuda");
    (split; [reflexivity | vm_compute; repeat constructor]).
Qed.

Lemma call_for_shift (w : world) (args : arguments) (s : nat) (dev : string)
    (k : nat) (name : string) :
  call_for w args s dev (S k) name
  = call_for w args (if arg_randomize_param1 args then S s else s) dev k name.
Proof.
  unfold call_for, param1_of.
  destruct (arg_randomize_param1 args); [|reflexivity].
  replace (s + S k)%nat with (S s + k)%nat by lia. reflexivity.
Qed.

(** The loop over the audio files: its calls, its result, and the
    records it logs besides. *)
Lemma encode_each_run (w : world) (args : arguments) (dev : string)
    (files : list string) :
  ∀ s : nat,
    let r := encode_each w args (clamp (arg_param1 args)) dev files s in
    let calls := imap (call_for w args s dev) files in
    encode_calls (trace_of r) = until_raise w calls
    ∧ (result_of r = None ↔ Forall (λ c, encode_raises w c = None) calls)
    ∧ (result_of r = None → until_raise w calls = calls)
    ∧ (∀ e, result_of r = Some e →
         ∃ c, last (until_raise w calls) = Some c ∧ encode_raises w c = Some e)
    ∧ Forall (λ e, is_error e = false ∧ is_completed e = false) (trace_of r).
Proof.
  induction files as [|name rest IH]; intros s; cbn zeta.
  - cbn. repeat split; try constructor; try discriminate.
  - set (X := encode_each w args (clamp (arg_param1 args)) dev (name :: rest) s).
    cbn [imap until_raise].
    assert (imap (call_for w args s dev ∘ S) rest
            = imap (call_for w args
                      (if arg_randomize_param1 args then S s else s) dev) rest)
      as Eshift.
    { apply imap_ext. intros k x _. apply call_for_shift. }
    rewrite Eshift.
    set (s' := if arg_randomize_param1 args then S s else s).
    specialize (IH s'). cbn zeta in IH.
    destruct IH as (IHc & IHr & IHu & IHe & IHq).
    set (c := call_for w args s dev 0 name).
    set (r' := encode_each w args (clamp (arg_param1 args)) dev rest s').
    assert (∃ t,
      result_of X = match encode_raises w c with
                    | Some e => Some e
                    | None => result_of r'
                    end
      ∧ trace_of X = t ++ Encode c :: match encode_raises w c with
                                      | Some _ => []
                                      | None => trace_of r'
                                      end
      ∧ Forall (λ e, is_routine e = true) t) as (t & Hres & Htr & Ht).
    { unfold X, r', c, s', call_for, param1_of. cbn [encode_each].
      unfold pick_param1, random, encode, log.
      cbv [mbind prog_bind mret prog_ret emit get_state put_state].
      destruct (arg_randomize_param1 args).
      - rewrite Nat.add_0_r.
        eexists [_]. split; [|split].
        + destruct (encode_raises w _); [reflexivity|].
          destruct (encode_each _ _ _ _ _ _) as [[r s1] t1]. reflexivity.
        + destruct (encode_raises w _); [reflexivity|].
          destruct (encode_each _ _ _ _ _ _) as [[r s1] t1]. reflexivity.
        + repeat constructor.
      - eexists [_]. split; [|split].
        + destruct (encode_raises w _); [reflexivity|].
          destruct (encode_each _ _ _ _ _ _) as [[r s1] t1]. reflexivity.
        + destruct (encode_raises w _); [reflexivity|].
          destruct (encode_each _ _ _ _ _ _) as [[r s1] t1]. reflexivity.
        + repeat constructor. }
    fold r' in IHc, IHr, IHu, IHe, IHq.
    assert (encode_calls t = []) as Hct by (apply encode_calls_routine; exact Ht).
    assert (Forall (λ e, is_error e = false ∧ is_completed e = false) t) as Hqt.
    { eapply Forall_impl; [exact Ht|]. apply is_routine_quiet. }
    destruct (encode_raises w c) as [e|] eqn:Hraise.
    + rewrite Hres, Htr.
      rewrite encode_calls_app, Hct. cbn.
      split; [reflexivity|]. split; [|split; [|split]].
      * split; [discriminate|]. intros H. apply Forall_cons in H as [H _].
        congruence.
      * discriminate.
      * intros e' [= <-]. exists c. split; [reflexivity | exact Hraise].
      * apply Forall_app. split; [exact Hqt|]. repeat constructor.
    + rewrite Hres, Htr.
      rewrite encode_calls_app, Hct. cbn [app].
      change (encode_calls (Encode c :: trace_of r'))
        with (c :: encode_calls (trace_of r')).
      rewrite IHc. split; [reflexivity|]. split; [|split; [|split]].
      * rewrite IHr. split; intros H.
        -- constructor; assumption.
        -- apply Forall_cons in H. tauto.
      * intros H. rewrite (IHu H). reflexivity.
      * intros e He. destruct (IHe e He) as (c' & Hl & Hc').
        exists c'. split; [|exact Hc'].
        destruct (until_raise w _) as [|x l] eqn:El; [discriminate|].
        exact Hl.
      * apply Forall_app. split; [exact Hqt|]. constructor; [split; reflexivity|].
        exact IHq.
Qed.

(** The shape of a run whose input exists: routine records, then the
    calls of the codec, then the closing records, which tell whether
    a call raised. *)
Lemma main_shape (w : world) (args : arguments) (s : nat) (nd : node) :
  lookup_path w (arg_input_dir args) = Some nd →
  let dev := result_of (get_available_device w (arg_device args) s) in
  ∃ (t0 tb t1 : list event) (res : option exn),
    trace_of (main w args s) = t0 ++ tb ++ t1
    ∧ Forall (λ e, is_routine e = true) t0
    ∧ match nd with
      | Directory entries =>
          let r := encode_each w args (clamp (arg_param1 args)) dev
                     (audio_files entries) s in
          tb = trace_of r ∧ res = result_of r
      | RegularFile =>
          tb = [Encode (single_call w args s dev)]
          ∧ res = encode_raises w (single_call w args s dev)
      end
    ∧ encode_calls t1 = []
    ∧ match res with
      | None => Forall (λ e, is_error e = false) t1 ∧ completed ∈ t1
      | Some _ =>
          Forall (λ e, is_completed e = false) t1
          ∧ Exists (λ e, is_error e = true) t1
      end.
Proof.
  intros Hlook. cbn zeta.
  destruct (get_available_device_run w (arg_device args) s) as [Hs Ht].
  unfold main. rewrite Hlook.
  unfold encode_single, pick_param1, random, encode, log, single_call, param1_of.
  cbv [mbind prog_bind mret prog_ret emit get_state put_state].
  fold (clamp (arg_param1 args)).
  destruct (get_available_device w (arg_device args) s) as [[dev s'] t].
  unfold result_of, state_of, trace_of in *. cbn [fst snd] in *. subst s'.
  assert (∀ l : list event, Forall (λ e, is_routine e = true) l →
            Forall (λ e, is_routine e = true)
              (Mkdir (arg_output_dir args) :: t ++ l)) as Hpre.
  { intros l Hl. constructor; [reflexivity|]. apply Forall_app. auto. }
  destruct nd as [entries|].
  - fold (audio_files entries).
    destruct (arg_randomize_param1 args); cbv beta iota zeta;
      (destruct (encode_each w args (clamp (arg_param1 args)) dev
                   (audio_files entries) s) as [[r s1] t1]);
      cbn [fst snd];
      (destruct r as [[e|e]|]; [destruct (negb (String.eqb dev "cpu"))| |]);
      eexists (Mkdir _ :: t ++ [_; _; _; _; _; _; _]), t1, _, _;
      (split; [cbn [app]; rewrite <- !app_assoc; cbn [app]; reflexivity|]);
      (split; [apply Hpre; repeat constructor|]);
      (split; [split; reflexivity|]);
      (split; [reflexivity|]);
      cbn; (split; [repeat constructor | ]);
      first [ apply Exists_cons_hd; reflexivity
            | apply elem_of_cons; right; apply elem_of_cons; left; reflexivity ].
  - rewrite Nat.add_0_r.
    destruct (arg_randomize_param1 args); cbv beta iota zeta;
      (destruct (encode_raises w _) as [[e|e]|];
         [destruct (negb (String.eqb dev "cpu"))| |]);
      eexists (Mkdir _ :: t ++ [_; _; _; _; _; _]), [_], _, _;
      (split; [cbn [app]; rewrite <- !app_assoc; cbn [app]; reflexivity|]);
      (split; [apply Hpre; repeat constructor|]);
      (split; [split; reflexivity|]);
      (split; [reflexivity|]);
      cbn; (split; [repeat constructor | ]);
      first [ apply Exists_cons_hd; reflexivity
            | apply elem_of_cons; right; apply elem_of_cons; left; reflexivity ].
Qed.

Lemma not_completed (t : list event) :
  Forall (λ e, is_completed e = false) t → completed ∉ t.
Proof.
  intros Ht Hin. rewrite Forall_forall in Ht. specialize (Ht _ Hin).
  discriminate.
Qed.

Lemma some_error (t : list event) :
  Exists (λ e, is_error e = true) t → ¬ Forall (λ e, is_error e = false) t.
Proof.
  intros Hex Hall. apply Exists_exists in Hex as (e & Hin & He).
  rewrite Forall_forall in Hall. specialize (Hall _ Hin). congruence.
Qed.

Lemma until_raise_single (w : world) (c : encode_call) : until_raise w [c] = [c].
Proof. cbn. destruct (encode_raises w c); reflexivity. Qed.

(** What a run whose input exists tells about its calls. *)
Lemma main_outcome (w : world) (args : arguments) (s : nat) (nd : node) :
  lookup_path w (arg_input_dir args) = Some nd →
  let dev := result_of (get_available_device w (arg_device args) s) in
  let t := trace_of (main w args s) in
  let calls :=
    match nd with
    | Directory entries => imap (call_for w args s dev) (audio_files entries)
    | RegularFile => [single_call w args s dev]
    end in
  encode_calls t = until_raise w calls
  ∧ ((Forall (λ c, encode_raises w c = None) calls
      ∧ until_raise w calls = calls
      ∧ completed ∈ t ∧ Forall (λ e, is_error e = false) t)
     ∨ ((∃ c, c ∈ until_raise w calls ∧ is_Some (encode_raises w c))
        ∧ (completed ∉ t) ∧ Exists (λ e, is_error e = true) t)).
Proof.
  intros Hlook. cbn zeta.
  destruct (main_shape w args s nd Hlook) as (t0 & tb & t1 & res & Ht & H0 & Hb & Hc1 & Hres).
  rewrite Ht. rewrite !encode_calls_app, Hc1, app_nil_r.
  rewrite (encode_calls_routine t0 H0). cbn [app].
  assert (Forall (λ e, is_error e = false ∧ is_completed e = false) t0) as Hq0.
  { eapply Forall_impl; [exact H0|]. apply is_routine_quiet. }
  set (dev := result_of (get_available_device w (arg_device args) s)) in *.
  assert (∃ calls,
    calls = match nd with
            | Directory entries => imap (call_for w args s dev) (audio_files entries)
            | RegularFile => [single_call w args s dev]
            end
    ∧ encode_calls tb = until_raise w calls
    ∧ (res = None ↔ Forall (λ c, encode_raises w c = None) calls)
    ∧ (res = None → until_raise w calls = calls)
    ∧ (∀ e, res = Some e →
         ∃ c, last (until_raise w calls) = Some c ∧ encode_raises w c = Some e)
    ∧ Forall (λ e, is_error e = false ∧ is_completed e = false) tb)
    as (calls & <- & Hcalls & Hnone & Hall & Hlast & Hqb).
  { destruct nd as [entries|].
    - destruct Hb as [-> ->]. eexists. split; [reflexivity|].
      apply (encode_each_run w args dev (audio_files entries) s).
    - destruct Hb as [-> ->]. eexists. split; [reflexivity|].
      rewrite until_raise_single.
      split; [reflexivity|]. split; [|split; [|split]].
      + split; intros H.
        * repeat constructor. exact H.
        * apply Forall_cons in H as [H _]. exact H.
      + reflexivity.
      + intros e He. eexists. split; [reflexivity | exact He].
      + repeat constructor. }
  split; [exact Hcalls|].
  destruct res as [e|].
  - right. destruct Hres as [Hnc Herr].
    destruct (Hlast e eq_refl) as (c & Hl & Hc).
    split; [|split].
    + exists c. split; [|rewrite Hc; eauto].
      apply last_Some in Hl as [l' ->]. apply elem_of_app. right.
      apply list_elem_of_here.
    + apply not_completed. apply Forall_app. split.
      * eapply Forall_impl; [exact Hq0|]. tauto.
      * apply Forall_app. split; [|exact Hnc].
        eapply Forall_impl; [exact Hqb|]. tauto.
    + apply Exists_app. right. apply Exists_app. right. exact Herr.
  - left. destruct Hres as [Hne Hin].
    split; [apply Hnone; reflexivity|]. split; [apply Hall; reflexivity|].
    split.
    + apply elem_of_app. right. apply elem_of_app. right. exact Hin.
    + apply Forall_app. split.
      * eapply Forall_impl; [exact Hq0|]. tauto.
      * apply Forall_app. split; [|exact Hne].
        eapply Forall_impl; [exact Hqb|]. tauto.
Qed.

(** X5.  The calls of the codec in a run.  For an input directory they are
    the calls for its [.wav] entries followed by those for its [.mp3]
    entries, in the order of the listing, every other entry being
    passed over, up to and including the first call that raises; the
    [k]-th call names its output after the clamped [--param1], or
    after the [k]-th random draw of the run when the parameter is
    randomized, and carries the device selected once at the start.
    For an input that is a single file there is one call, on that
    path; for a missing input there is none. *)
Theorem main_encode_calls (w : world) (args : arguments) (s : nat) :
  let dev := result_of (get_available_device w (arg_device args) s) in
  encode_calls (trace_of (main w args s))
  = match lookup_path w (arg_input_dir args) with
    | Some (Directory entries) =>
        until_raise w (imap (call_for w args s dev) (audio_files entries))
    | Some RegularFile => [single_call w args s dev]
    | None => []
    end.
Proof.
  cbn zeta. destruct (lookup_path w (arg_input_dir args)) as [nd|] eqn:Hlook.
  - destruct (main_outcome w args s nd Hlook) as [Hc _].
    rewrite Hc. destruct nd; [reflexivity | apply until_raise_single].
  - unfold main. rewrite Hlook. reflexivity.
Qed.

(** X6.  The closing record [Encoding completed successfully!] is logged
    exactly when the run logs no record of level [ERROR]; and, when
    the input exists, exactly when no call of the codec raised. *)
Theorem main_completion_record (w : world) (args : arguments) (s : nat) :
  let t := trace_of (main w args s) in
  (completed ∈ t ↔ Forall (λ e, is_error e = false) t)
  ∧ (is_Some (lookup_path w (arg_input_dir args)) →
     (completed ∈ t
      ↔ Forall (λ c, encode_raises w c = None) (encode_calls t))).
Proof.
  cbn zeta. destruct (lookup_path w (arg_input_dir args)) as [nd|] eqn:Hlook.
  - destruct (main_outcome w args s nd Hlook) as [Hc Hcase].
    cbn zeta in Hc, Hcase. rewrite Hc.
    destruct Hcase as [(Hok & Hu & Hin & Hne)|((c & Hcin & Hraise) & Hnin & Herr)].
    + split; [tauto|]. intros _. rewrite Hu. tauto.
    + split.
      * split; [contradiction|]. intros H. destruct (some_error _ Herr H).
      * intros _. split; [contradiction|]. intros H.
        rewrite Forall_forall in H. specialize (H c Hcin).
        rewrite H in Hraise. destruct (is_Some_None Hraise).
  - split; [|intros [? [=]]].
    unfold main. rewrite Hlook. cbn. split.
    + intros Hin. apply elem_of_cons in Hin as [[=]|Hin].
      apply elem_of_cons in Hin as [[=]|Hin]. inversion Hin.
    + intros H. apply Forall_cons in H as [_ H]. apply Forall_cons in H as [H _].
      discriminate.
Qed.

Lemma main_completion_record_witness :
  is_Some (lookup_path cuda_box (arg_input_dir sample_args))
  ∧ completed ∈ trace_of (main cuda_box sample_args 0%nat).
Proof.
  assert (is_Some (lookup_path cuda_box (arg_input_dir sample_args))) as H.
  { eexists. reflexivity. }
  split; [exact H|].
  apply (proj2 (main_completion_record cuda_box sample_args 0%nat) H).
  repeat constructor.
Defined.

End calls.

(** ** The rows of the two output files *)

Section split_rows.
Import split_excel_data.
Context `{numpy_random}.

Lemma sample_sub (df out : frame) (n : Z) (random_state : seed) :
  sample df n random_state = Ok out → out ⊆+ df.
Proof.
  unfold sample.
  destruct (Z.ltb_spec n 0); [discriminate|].
  destruct (Z.ltb_spec (Z.of_nat (length df)) n); [discriminate|].
  intros [= <-].
  apply (take_rows df (permutation (RandomState random_state) (length df))
           (Z.to_nat n)).
  - apply permutation_Permutation.
  - lia.
Qed.

(** The rows drawn and the rows left make up the frame drawn from. *)
Lemma sample_drop_Permutation (df train : frame) :
  NoDup df.*1 → train ⊆+ df → train ++ drop df train.*1 ≡ₚ df.
Proof.
  intros Hnd Hsub.
  apply submseteq_Permutation in Hsub as [rest Hperm].
  assert (drop df train.*1 ≡ₚ rest) as ->; [|symmetry; exact Hperm].
  unfold drop. rewrite Hperm. rewrite Hperm in Hnd.
  rewrite fmap_app in Hnd. apply NoDup_app in Hnd as (_ & Hdisj & _).
  rewrite filter_app, filter_none, filter_all; [reflexivity| |].
  - apply Forall_forall. intros ir Hir Hn. apply (Hdisj ir.1).
    + exact Hn.
    + apply list_elem_of_fmap. exists ir. auto.
  - apply Forall_forall. intros ir Hir Hn. apply Hn.
    apply list_elem_of_fmap. exists ir. auto.
Qed.

Lemma select_class_without (df : frame) (cls c : option string) :
  c ≠ cls →
  select_class
    (filter (λ ir : nat * row, ¬ (label_eqb (Class_Name ir.2) cls = true)) df) c
  = select_class df c.
Proof.
  intros Hne. unfold select_class. rewrite list_filter_filter.
  apply list_filter_iff. intros ir. split; [tauto|].
  intros Hc. split; [exact Hc|]. intros Hcls. apply Hne.
  apply label_eqb_true in Hc as (x & Hx & ->).
  apply label_eqb_true in Hcls as (y & Hy & ->).
  congruence.
Qed.

(** The rows of distinct classes are distinct rows of the frame. *)
Lemma select_classes_sub (classes : list (option string)) :
  NoDup classes → ∀ df : frame, mjoin (select_class df <$> classes) ⊆+ df.
Proof.
  induction 1 as [|cls rest Hnotin Hnd IH]; intros df.
  - apply submseteq_nil_l.
  - cbn [fmap list_fmap mjoin list_join].
    set (others := filter (λ ir : nat * row,
                     ¬ (label_eqb (Class_Name ir.2) cls = true)) df).
    assert (select_class df <$> rest = select_class others <$> rest) as ->.
    { apply Forall_fmap_ext, Forall_forall. intros c Hc. symmetry.
      apply select_class_without. intros ->. contradiction. }
    rewrite <- (filter_app_complement
                  (λ ir : nat * row, label_eqb (Class_Name ir.2) cls = true) df)
      at 2.
    apply submseteq_skips_l. apply IH.
Qed.

Lemma parts_sub (df : frame) (classes : list (option string)) (parts : list frame) :
  Forall2 (λ cls part, part ⊆+ select_class df cls) classes parts →
  mjoin parts ⊆+ mjoin (select_class df <$> classes).
Proof.
  induction 1 as [|cls part classes parts Hp _ IH]; [reflexivity|].
  cbn [fmap list_fmap mjoin list_join]. apply submseteq_app; assumption.
Qed.

Section loop.
Variables (df : frame) (samples_per_class : Z) (train_ratio : Q) (random_seed : seed).
Variables (train_count val_count : Z).
Hypothesis df_index : NoDup df.*1.

Lemma for_each_class_parts (unique_classes : list (option string)) :
  ∀ (train_samples val_samples : list frame) (g : rng) (ts vs : list frame),
    result_of (for_each_class df samples_per_class train_ratio random_seed
                 train_count val_count unique_classes train_samples val_samples g)
      = Ok (ts, vs) →
    ∃ parts : list frame,
      mjoin ts ++ mjoin vs
        ≡ₚ (mjoin train_samples ++ mjoin val_samples) ++ mjoin parts
      ∧ Forall2 (part_of df samples_per_class) unique_classes parts.
Proof.
  induction unique_classes as [|cls rest IH];
    intros train_samples val_samples g ts vs Hres.
  - injection Hres as <- <-. exists []. split; [|constructor].
    simpl. rewrite app_nil_r. reflexivity.
  - cbn [for_each_class] in Hres.
    set (class_samples := select_class df cls) in *.
    pose proof (select_class_NoDup df cls df_index) as Hcnd.
    fold class_samples in Hcnd.
    assert (∀ (sampled_data train_data : frame),
              NoDup sampled_data.*1 → train_data ⊆+ sampled_data →
              result_of (for_each_class df samples_per_class train_ratio
                           random_seed train_count val_count rest
                           (train_samples ++ [train_data])
                           (val_samples ++ [drop sampled_data train_data.*1]) g)
                = Ok (ts, vs) →
              ∃ parts' : list frame,
                mjoin ts ++ mjoin vs
                  ≡ₚ (mjoin train_samples ++ mjoin val_samples)
                     ++ sampled_data ++ mjoin parts'
                ∧ Forall2 (part_of df samples_per_class) rest parts') as Hsplit.
    { intros sampled_data train_data Hnd Hsub Hr.
      destruct (IH _ _ _ _ _ Hr) as (parts' & Hperm & Hparts).
      exists parts'. split; [|exact Hparts].
      rewrite Hperm, !join_app. cbn [mjoin list_join]. rewrite !app_nil_r.
      rewrite <- (sample_drop_Permutation sampled_data train_data Hnd Hsub) at 2.
      rewrite <- !app_assoc. apply Permutation_app_head.
      apply Permutation_app_swap_app. }
    destruct (Z.ltb_spec (Z.of_nat (length class_samples)) samples_per_class)
      as [Hlt|Hge].
    + rewrite result_print in Hres.
      destruct (Z.eqb_spec (Z.of_nat (length class_samples)) 0) as [Hz|Hnz].
      * rewrite result_print in Hres.
        destruct (IH _ _ _ _ _ Hres) as (parts' & Hperm & Hparts).
        exists ([] :: parts'). split; [exact Hperm|].
        constructor; [|exact Hparts].
        assert (class_samples = []) as E.
        { destruct class_samples; [reflexivity | simpl in Hz; lia]. }
        split; [apply submseteq_nil_l|]. intros _. symmetry. exact E.
      * destruct (sample class_samples _ random_seed) as [train_data|e] eqn:Hs;
          [|discriminate].
        destruct (Hsplit class_samples train_data Hcnd (sample_sub _ _ _ _ Hs) Hres)
          as (parts' & Hperm & Hparts).
        exists (class_samples :: parts'). split; [exact Hperm|].
        constructor; [|exact Hparts]. split; reflexivity.
    + destruct (sample class_samples samples_per_class random_seed)
        as [sampled_data|e] eqn:Hs; [|discriminate].
      pose proof (sample_sub _ _ _ _ Hs) as Hsub.
      destruct (sample sampled_data train_count random_seed)
        as [train_data|e] eqn:Hs'; [|discriminate].
      destruct (Hsplit sampled_data train_data
                  (submseteq_NoDup_fst _ _ Hsub Hcnd) (sample_sub _ _ _ _ Hs') Hres)
        as (parts' & Hperm & Hparts).
      exists (sampled_data :: parts'). split; [exact Hperm|].
      constructor; [|exact Hparts]. split; [exact Hsub|].
      fold class_samples. lia.
Qed.

End loop.

Lemma print_follows (fmt : string) (args : list arg) :
  follows (λ e, is_print e = true) (λ _, True) (print fmt args : prog rng event unit).
Proof. apply follows_emit; reflexivity. Qed.

Lemma for_each_class_prints
    (df : frame) (samples_per_class : Z) (train_ratio : Q) (random_seed : seed)
    (train_count val_count : Z) (unique_classes : list (option string)) :
  ∀ train_samples val_samples : list frame,
    follows (λ e, is_print e = true) (λ _, True)
      (for_each_class df samples_per_class train_ratio random_seed
         train_count val_count unique_classes train_samples val_samples).
Proof.
  induction unique_classes as [|cls rest IH]; intros train_samples val_samples.
  - apply follows_ret. exact I.
  - cbn [for_each_class].
    destruct (_ <? samples_per_class)%Z.
    + apply follows_seq; [apply print_follows|]. intros _.
      destruct (_ =? 0)%Z.
      * apply follows_seq; [apply print_follows|]. intros _. apply IH.
      * destruct (sample _ _ random_seed); [apply IH | apply follows_ret; exact I].
    + destruct (sample _ samples_per_class random_seed);
        [|apply follows_ret; exact I].
      destruct (sample _ train_count random_seed);
        [apply IH | apply follows_ret; exact I].
Qed.

Lemma report_prints (train_df val_df : list row) (unique_classes : list (option string)) :
  follows (λ e, is_print e = true) (λ _, True)
    (report train_df val_df unique_classes : prog rng event unit).
Proof.
  induction unique_classes as [|cls rest IH]; [apply follows_ret; exact I|].
  cbn [report]. apply follows_seq; [|intros _; exact IH].
  destruct (0 <? _)%Z; apply print_follows.
Qed.

Lemma prints_write_nothing (t : list event) :
  Forall (λ e, is_print e = true) t → to_excel t = [] ∧ made_directories t = [].
Proof.
  induction 1 as [|e t He Ht [IH1 IH2]]; [split; reflexivity|].
  destruct e; try discriminate. split; assumption.
Qed.

Lemma to_excel_app (t1 t2 : list event) :
  to_excel (t1 ++ t2) = to_excel t1 ++ to_excel t2.
Proof. apply omap_app. Qed.

Lemma made_directories_app (t1 t2 : list event) :
  made_directories (t1 ++ t2) = made_directories t1 ++ made_directories t2.
Proof. apply omap_app. Qed.

Lemma unique_classes_of_sheet (sheet : list row) :
  unique ((λ ir : nat * row, Class_Name ir.2) <$> range_index sheet)
  = unique (Class_Name <$> sheet).
Proof.
  change (λ ir : nat * row, Class_Name ir.2) with (Class_Name ∘ @snd nat row).
  rewrite list_fmap_compose, range_index_snd. reflexivity.
Qed.

(** A run of the function, case by case on what the loop returns. *)
Lemma create_train_val_split_run
    (input_excel_path : string) (sheet : list row) (output_dir : option string)
    (samples_per_class : Z) (train_ratio : Q) (random_seed : seed) (g : rng) :
  let r := create_train_val_split input_excel_path sheet output_dir
             samples_per_class train_ratio random_seed g in
  let t := trace_of r in
  let dir := output_directory input_excel_path output_dir in
  let train_count := py.int (inject_Z samples_per_class * train_ratio) in
  match result_of (for_each_class (range_index sheet) samples_per_class train_ratio
                     random_seed train_count (samples_per_class - train_count)
                     (unique (Class_Name <$> sheet)) [] [] g) with
  | Raise e => result_of r = Raise e ∧ to_excel t = [] ∧ made_directories t = []
  | Ok (ts, vs) =>
      if bool_decide (ts = [] ∨ vs = []) then
        result_of r = Raise (ValueError "No objects to concatenate")
        ∧ to_excel t = [] ∧ made_directories t = []
      else if String.eqb dir "" then
        result_of r
          = Raise (FileNotFoundError "[Errno 2] No such file or directory: ''")
        ∧ to_excel t = [] ∧ made_directories t = []
      else
        result_of r = Ok tt
        ∧ to_excel t = [(join dir "dac-train.xlsx", (mjoin ts).*2);
                        (join dir "dac-val.xlsx", (mjoin vs).*2)]
        ∧ made_directories t = [dir]
  end.
Proof.
  cbn zeta. unfold create_train_val_split, output_directory.
  set (train_count := py.int (inject_Z samples_per_class * train_ratio)).
  set (classes := unique (Class_Name <$> sheet)).
  destruct (for_each_class_ignores_generator (range_index sheet) samples_per_class
              train_ratio random_seed train_count (samples_per_class - train_count)
              classes [] [] g) as (res & tl & Hloop).
  pose proof (for_each_class_prints (range_index sheet) samples_per_class
                train_ratio random_seed train_count
                (samples_per_class - train_count) classes [] [] g) as [Hpr _].
  rewrite Hloop in Hpr. rewrite (Hloop g).
  change (trace_of (res, g, tl)) with tl in Hpr.
  change (result_of (res, g, tl)) with res.
  destruct (prints_write_nothing tl Hpr) as [Hx Hm].
  unfold makedirs, print.
  cbv [mbind prog_bind mret prog_ret emit get_state put_state].
  rewrite (Hloop (RandomState random_seed)).
  destruct res as [[ts vs]|e].
  - destruct ts as [|f ts]; [|destruct vs as [|f' vs]].
    + rewrite bool_decide_eq_true_2 by (left; reflexivity).
      cbn. rewrite to_excel_app, made_directories_app, Hx, Hm. auto.
    + rewrite bool_decide_eq_true_2 by (right; reflexivity).
      cbn. rewrite to_excel_app, made_directories_app, Hx, Hm. auto.
    + rewrite bool_decide_eq_false_2 by (intros [?|?]; discriminate).
      cbn [concat].
      destruct (String.eqb (default (dirname input_excel_path) output_dir) "").
      * cbn. rewrite to_excel_app, made_directories_app, Hx, Hm. auto.
      * pose proof (report_prints (mjoin (f :: ts)).*2 (mjoin (f' :: vs)).*2
                      classes (RandomState random_seed)) as [Hrp _].
        destruct (report _ _ classes (RandomState random_seed)) as [[u g'] tr].
        change (trace_of (u, g', tr)) with tr in Hrp.
        destruct (prints_write_nothing tr Hrp) as [Hx' Hm'].
        unfold result_of, trace_of. cbn [fst snd].
        split; [reflexivity|].
        rewrite !to_excel_app, !made_directories_app, Hx, Hm, Hx', Hm'.
        split; reflexivity.
  - cbn. rewrite to_excel_app, made_directories_app, Hx, Hm. auto.
Qed.

Lemma range_index_elem_of (sheet : list row) (i : nat) (r : row) :
  (i, r) ∈ range_index sheet ↔ sheet !! i = Some r.
Proof.
  unfold range_index. rewrite elem_of_lookup_imap. split.
  - intros (j & y & [= -> ->] & Hy). exact Hy.
  - intros Hi. exists i, r. auto.
Qed.

Lemma range_index_NoDup (sheet : list row) : NoDup (range_index sheet).*1.
Proof. rewrite range_index_fst. apply NoDup_seq. Qed.

(** The rows of the two frames, class by class. *)
Lemma assigned_frames_parts (df : frame) (samples_per_class : Z) (train_ratio : Q)
    (random_seed : seed) (g : rng) (train val : frame) :
  NoDup df.*1 →
  assigned_frames df samples_per_class train_ratio random_seed g = Ok (train, val) →
  ∃ parts : list frame,
    train ++ val ≡ₚ mjoin parts
    ∧ Forall2 (part_of df samples_per_class)
        (unique ((λ ir, Class_Name ir.2) <$> df)) parts.
Proof.
  intros Hnd. unfold assigned_frames.
  destruct (result_of _) as [[ts vs]|e] eqn:Hres; [|discriminate].
  intros [= <- <-].
  destruct (for_each_class_parts df samples_per_class train_ratio random_seed
              _ _ Hnd _ _ _ _ _ _ Hres) as (parts & Hperm & Hparts).
  exists parts. split; [exact Hperm | exact Hparts].
Qed.

Lemma assigned_frames_sub (df : frame) (samples_per_class : Z) (train_ratio : Q)
    (random_seed : seed) (g : rng) (train val : frame) :
  NoDup df.*1 →
  assigned_frames df samples_per_class train_ratio random_seed g = Ok (train, val) →
  train ++ val ⊆+ df
  ∧ Forall (λ ir : nat * row, is_Some (Class_Name ir.2)) (train ++ val).
Proof.
  intros Hnd Ha.
  destruct (assigned_frames_parts _ _ _ _ _ _ _ Hnd Ha) as (parts & Hperm & Hparts).
  split.
  - rewrite Hperm.
    etransitivity;
      [|apply (select_classes_sub (unique ((λ ir, Class_Name ir.2) <$> df))
                 (unique_NoDup _) df)].
    apply parts_sub. eapply Forall2_impl; [exact Hparts|].
    intros cls part [Hsub _]. exact Hsub.
  - rewrite Hperm. apply Forall_forall. intros ir Hir.
    apply list_elem_of_join in Hir as (part & Hir & Hpart).
    apply list_elem_of_lookup in Hpart as [j Hj].
    destruct (Forall2_lookup_r _ _ _ _ _ Hparts Hj) as (cls & _ & Hsub & _).
    pose proof (elem_of_submseteq _ _ _ Hir Hsub) as Hsel.
    apply list_elem_of_filter in Hsel as [Hlab _].
    apply label_eqb_true in Hlab as (x & -> & _). eauto.
Qed.

(** X7.  In a run that ends normally the two files hold rows of the sheet:
    the training file and the validation file are written in that
    order to the output directory, every row written is a row of the
    sheet with a class, and no row of the sheet is written twice,
    neither within a file nor to both files. *)
Theorem split_files_hold_sheet_rows
    (input_excel_path : string) (sheet : list row) (output_dir : option string)
    (samples_per_class : Z) (train_ratio : Q) (random_seed : seed) (g : rng) :
  let r := create_train_val_split input_excel_path sheet output_dir
             samples_per_class train_ratio random_seed g in
  let dir := output_directory input_excel_path output_dir in
  result_of r = Ok tt →
  ∃ train val : frame,
    assigned_frames (range_index sheet) samples_per_class train_ratio
      random_seed g = Ok (train, val)
    ∧ to_excel (trace_of r) = [(join dir "dac-train.xlsx", train.*2);
                               (join dir "dac-val.xlsx", val.*2)]
    ∧ NoDup (train.*1 ++ val.*1)
    ∧ ∀ (i : nat) (row : row),
        (i, row) ∈ train ++ val →
        sheet !! i = Some row ∧ is_Some (Class_Name row).
Proof.
  cbn zeta. intros Hok.
  pose proof (create_train_val_split_run input_excel_path sheet output_dir
                samples_per_class train_ratio random_seed g) as Hrun.
  cbn zeta in Hrun.
  assert (∃ train val,
            assigned_frames (range_index sheet) samples_per_class train_ratio
              random_seed g = Ok (train, val)
            ∧ to_excel (trace_of (create_train_val_split input_excel_path sheet
                                    output_dir samples_per_class train_ratio
                                    random_seed g))
              = [(join (output_directory input_excel_path output_dir)
                    "dac-train.xlsx", train.*2);
                 (join (output_directory input_excel_path output_dir)
                    "dac-val.xlsx", val.*2)])
    as (train & val & Ha & Hx).
  { unfold assigned_frames. rewrite unique_classes_of_sheet.
    destruct (result_of (for_each_class _ _ _ _ _ _ _ _ _ _)) as [[ts vs]|e].
    - exists (mjoin ts), (mjoin vs). split; [reflexivity|].
      destruct (bool_decide _); [destruct Hrun as [Hr _]; congruence|].
      destruct (String.eqb _ _); [destruct Hrun as [Hr _]; congruence|].
      tauto.
    - destruct Hrun as [Hr _]. congruence. }
  exists train, val. split; [exact Ha|]. split; [exact Hx|].
  destruct (assigned_frames_sub _ _ _ _ _ _ _ (range_index_NoDup sheet) Ha)
    as [Hsub Hlab].
  split.
  - rewrite <- fmap_app.
    apply (submseteq_NoDup_fst _ _ Hsub (range_index_NoDup sheet)).
  - intros i row Hin. split.
    + apply range_index_elem_of. eapply elem_of_submseteq; eauto.
    + rewrite Forall_forall in Hlab. apply (Hlab _ Hin).
Qed.

(** X8.  A class with fewer rows than [samples_per_class] is kept whole:
    when the loop ends normally, every row of such a class is in the
    training set or in the validation set. *)
Theorem short_classes_are_kept_whole
    (sheet : list row) (samples_per_class : Z) (train_ratio : Q)
    (random_seed : seed) (g : rng) (train val : frame)
    (i : nat) (row : row) (cls : string) :
  assigned_frames (range_index sheet) samples_per_class train_ratio
    random_seed g = Ok (train, val) →
  sheet !! i = Some row →
  Class_Name row = Some cls →
  (count_class sheet (Some cls) < samples_per_class)%Z →
  (i, row) ∈ train ++ val.
Proof.
  intros Ha Hi Hcls Hshort.
  destruct (assigned_frames_parts _ _ _ _ _ _ _ (range_index_NoDup sheet) Ha)
    as (parts & Hperm & Hparts).
  rewrite Hperm.
  assert (Some cls ∈ unique ((λ ir : nat * split_excel_data.row, Class_Name ir.2)
                               <$> range_index sheet)) as Hin.
  { rewrite unique_classes_of_sheet. apply unique_elem_of.
    apply list_elem_of_fmap. exists row. split; [auto|].
    apply list_elem_of_lookup. eauto. }
  apply list_elem_of_lookup in Hin as [j Hj].
  destruct (Forall2_lookup_l _ _ _ _ _ Hparts Hj) as (part & Hpart & _ & Hwhole).
  rewrite select_class_length in Hwhole. specialize (Hwhole Hshort).
  apply list_elem_of_join. exists part. split.
  - rewrite Hwhole. apply list_elem_of_filter. split.
    + simpl. rewrite Hcls. simpl. apply String.eqb_refl.
    + apply range_index_elem_of. exact Hi.
  - apply list_elem_of_lookup. eauto.
Qed.

Lemma for_each_class_no_label
    (df : frame) (samples_per_class : Z) (train_ratio : Q) (random_seed : seed)
    (train_count val_count : Z) (unique_classes : list (option string)) :
  (0 < samples_per_class)%Z →
  Forall (λ cls, cls = None) unique_classes →
  ∀ (train_samples val_samples : list frame) (g : rng),
    result_of (for_each_class df samples_per_class train_ratio random_seed
                 train_count val_count unique_classes train_samples val_samples g)
    = Ok (train_samples, val_samples).
Proof.
  intros Hsp. induction 1 as [|cls rest -> _ IH]; intros train_samples val_samples g.
  - reflexivity.
  - cbn [for_each_class].
    assert (select_class df None = []) as ->.
    { unfold select_class. apply filter_none, Forall_forall.
      intros ir _. destruct (Class_Name ir.2); simpl; discriminate. }
    cbn [length]. destruct (Z.ltb_spec (Z.of_nat 0) samples_per_class); [|lia].
    change (Z.of_nat 0 =? 0)%Z with true. cbv iota.
    rewrite !result_print. apply IH.
Qed.

(** X9.  A sheet in which no row has a class (a sheet without rows is
    one) cannot be split: for a positive [samples_per_class] the run
    ends with [ValueError: No objects to concatenate], raised by
    [pd.concat], before any directory is made or file written. *)
Theorem sheet_without_classes_is_rejected
    (input_excel_path : string) (sheet : list row) (output_dir : option string)
    (samples_per_class : Z) (train_ratio : Q) (random_seed : seed) (g : rng) :
  let r := create_train_val_split input_excel_path sheet output_dir
             samples_per_class train_ratio random_seed g in
  Forall (λ row, Class_Name row = None) sheet →
  (0 < samples_per_class)%Z →
  result_of r = Raise (ValueError "No objects to concatenate")
  ∧ to_excel (trace_of r) = []
  ∧ made_directories (trace_of r) = [].
Proof.
  cbn zeta. intros Hnone Hsp.
  pose proof (create_train_val_split_run input_excel_path sheet output_dir
                samples_per_class train_ratio random_seed g) as Hrun.
  cbn zeta in Hrun.
  rewrite for_each_class_no_label in Hrun; [exact Hrun | exact Hsp |].
  apply Forall_forall. intros cls Hcls.
  apply (proj1 (unique_elem_of _ _)) in Hcls.
  apply list_elem_of_fmap in Hcls as (row & -> & Hrow).
  rewrite Forall_forall in Hnone. auto.
Qed.

(** X10.  With an input path that has no directory part and no
    [--output-dir], the output directory is the empty string, which
    [os.makedirs] refuses: the run never ends normally and writes no
    file, whatever the sheet holds. *)
Theorem bare_input_name_writes_nothing
    (input_excel_path : string) (sheet : list row)
    (samples_per_class : Z) (train_ratio : Q) (random_seed : seed) (g : rng) :
  let r := create_train_val_split input_excel_path sheet None
             samples_per_class train_ratio random_seed g in
  dirname input_excel_path = "" →
  (∃ e, result_of r = Raise e)
  ∧ to_excel (trace_of r) = []
  ∧ made_directories (trace_of r) = [].
Proof.
  cbn zeta. intros Hdir.
  pose proof (create_train_val_split_run input_excel_path sheet None
                samples_per_class train_ratio random_seed g) as Hrun.
  cbn zeta in Hrun. unfold output_directory in Hrun. cbn [default] in Hrun.
  rewrite Hdir in Hrun. cbn [String.eqb] in Hrun.
  destruct (result_of (for_each_class _ _ _ _ _ _ _ _ _ _)) as [[ts vs]|e].
  - destruct (bool_decide _); destruct Hrun as (Hr & Hx & Hm); eauto.
  - destruct Hrun as (Hr & Hx & Hm); eauto.
Qed.

End split_rows.

Section split_rows_examples.
Import split_excel_data.

Lemma split_files_hold_sheet_rows_witness :
  result_of (create_train_val_split "data/sheet.xlsx" zelda_sheet None 4 (3 # 4)
               42%Z 0%Z) = Ok tt
  ∧ ∃ train val : frame,
      assigned_frames (range_index zelda_sheet) 4 (3 # 4) 42%Z 0%Z = Ok (train, val)
      ∧ to_excel (trace_of (create_train_val_split "data/sheet.xlsx" zelda_sheet
                              None 4 (3 # 4) 42%Z 0%Z))
        = [(join (output_directory "data/sheet.xlsx" None) "dac-train.xlsx", train.*2);
           (join (output_directory "data/sheet.xlsx" None) "dac-val.xlsx", val.*2)]
      ∧ NoDup (train.*1 ++ val.*1)
      ∧ ∀ (i : nat) (row : row),
          (i, row) ∈ train ++ val →
          zelda_sheet !! i = Some row ∧ is_Some (Class_Name row).
Proof.
  assert (result_of (create_train_val_split "data/sheet.xlsx" zelda_sheet None 4
                       (3 # 4) 42%Z 0%Z) = Ok tt) as H by (vm_compute; reflexivity).
  split; [exact H|].
  exact (split_files_hold_sheet_rows "data/sheet.xlsx" zelda_sheet None 4 (3 # 4)
           42%Z 0%Z H).
Defined.

Lemma short_classes_are_kept_whole_witness :
  let b1 := {| Full_File_Name := "b--param1-00.20.dac"; Class_Name := Some "b" |} in
  let train :=
    [(2%nat, {| Full_File_Name := "a--param1-00.30.dac"; Class_Name := Some "a" |});
     (3%nat, {| Full_File_Name := "a--param1-00.40.dac"; Class_Name := Some "a" |});
     (5%nat, {| Full_File_Name := "a--param1-00.50.dac"; Class_Name := Some "a" |});
     (1%nat, b1)] in
  let val :=
    [(6%nat, {| Full_File_Name := "a--param1-00.60.dac"; Class_Name := Some "a" |})] in
  assigned_frames (range_index zelda_sheet) 4 (3 # 4) 42%Z 0%Z = Ok (train, val)
  ∧ zelda_sheet !! 1%nat = Some b1
  ∧ (count_class zelda_sheet (Some "b") < 4)%Z
  ∧ (1%nat, b1) ∈ train ++ val.
Proof.
  cbv zeta.
  assert (assigned_frames (range_index zelda_sheet) 4 (3 # 4) 42%Z 0%Z = Ok _) as H
    by (vm_compute; reflexivity).
  split; [exact H|]. split; [reflexivity|].
  assert (count_class zelda_sheet (Some "b") < 4)%Z as Hb by (vm_compute; reflexivity).
  split; [exact Hb|].
  exact (short_classes_are_kept_whole zelda_sheet 4 (3 # 4) 42%Z 0%Z _ _ 1 _ "b"
           H eq_refl eq_refl Hb).
Defined.

Lemma sheet_without_classes_is_rejected_witness :
  (Forall (λ row, Class_Name row = None) orphan_sheet ∧ (0 < 25)%Z)
  ∧ result_of (create_train_val_split "data/sheet.xlsx" orphan_sheet None 25 (4 # 5)
                 42%Z 0%Z)
    = Raise (ValueError "No objects to concatenate").
Proof.
  assert (Forall (λ row, Class_Name row = None) orphan_sheet) as H1
    by (repeat constructor).
  assert (0 < 25)%Z as H2 by lia.
  split; [split; assumption|].
  exact (proj1 (sheet_without_classes_is_rejected "data/sheet.xlsx" orphan_sheet
                  None 25 (4 # 5) 42%Z 0%Z H1 H2)).
Defined.

Lemma bare_input_name_writes_nothing_witness :
  dirname "sheet.xlsx" = ""
  ∧ to_excel (trace_of (create_train_val_split "sheet.xlsx" zelda_sheet None 4
                          (3 # 4) 42%Z 0%Z)) = []
  ∧ result_of (create_train_val_split "sheet.xlsx" zelda_sheet None 4 (3 # 4)
                 42%Z 0%Z)
    = Raise (FileNotFoundError "[Errno 2] No such file or directory: ''").
Proof.
  split; [reflexivity|]. split; [|vm_compute; reflexivity].
  exact (proj1 (proj2 (bare_input_name_writes_nothing "sheet.xlsx" zelda_sheet 4
                         (3 # 4) 42%Z 0%Z eq_refl))).
Defined.

End split_rows_examples.

(** ** What the extraction writes and reports *)

Section segment_more.
Import wav_extract.

(** X11.  Whatever [segment_duration] is, negative values included, a call
    writes exactly one file, at the output path and at the sample
    rate of the input, and the signal written is a run of consecutive
    samples of the input; a random number is drawn exactly when the
    input lasts longer than the segment. *)
Theorem written_signal_is_part_of_input (w : world) (input_wav output_wav : string)
    (segment_duration : Q) (s : nat) :
  let y := (load w input_wav).1 in
  let sr := (load w input_wav).2 in
  let r := extract_random_segment w input_wav output_wav segment_duration s in
  ∃ pre data post : audio,
    y = pre ++ data ++ post
    ∧ sf_writes (trace_of r) = [(output_wav, data, sr)]
    ∧ state_of r
      = if Qle_bool (get_duration y sr) segment_duration then s else S s.
Proof.
  cbn zeta. unfold extract_random_segment.
  destruct (load w input_wav) as [y sr]. cbn [fst snd].
  destruct (Qle_bool (get_duration y sr) segment_duration).
  - exists [], y, []. rewrite app_nil_r. repeat split.
  - unfold slice, uniform, random, print.
    cbv [mbind prog_bind mret prog_ret emit get_state put_state].
    match goal with |- context [take ?n (list.drop ?k y)] =>
      exists (take k y), (take n (list.drop k y)), (list.drop n (list.drop k y))
    end.
    split; [rewrite !take_drop; reflexivity|]. split; reflexivity.
Qed.



End segment_more.

(** ** The pattern of the rename script *)

Section pattern.
Import rename_dac_files.

Lemma string_app_cons (x : ascii) (a b : string) :
  String x a +:+ b = String x (a +:+ b).
Proof. reflexivity. Qed.

Lemma string_app_nil (b : string) : "" +:+ b = b.
Proof. reflexivity. Qed.

Lemma string_app_assoc (a b c : string) : (a +:+ b) +:+ c = a +:+ (b +:+ c).
Proof.
  induction a as [|x a IH]; [reflexivity|].
  rewrite !string_app_cons, IH. reflexivity.
Qed.

Lemma string_app_length (a b : string) :
  String.length (a +:+ b) = (String.length a + String.length b)%nat.
Proof.
  induction a as [|x a IH]; [reflexivity|].
  rewrite string_app_cons. simpl. rewrite IH. reflexivity.
Qed.

Lemma string_prefix_app (a b : string) : String.prefix a (a +:+ b) = true.
Proof.
  induction a as [|x a IH]; [destruct b; reflexivity|].
  rewrite string_app_cons. simpl.
  destruct (ascii_dec x x); [exact IH | contradiction].
Qed.

Lemma strip_prefix_Some (pre s r : string) :
  strip_prefix pre s = Some r → s = pre +:+ r.
Proof.
  revert s. induction pre as [|a pre IH]; intros s; simpl.
  - intros [= ->]. reflexivity.
  - destruct s as [|b s]; [discriminate|].
    destruct (Ascii.eqb_spec a b) as [->|]; [|discriminate].
    intros H. rewrite (IH _ H). reflexivity.
Qed.

Lemma strip_prefix_app (pre r : string) : strip_prefix pre (pre +:+ r) = Some r.
Proof.
  induction pre as [|a pre IH]; [destruct r; reflexivity|].
  rewrite string_app_cons. simpl. rewrite Ascii.eqb_refl. exact IH.
Qed.

Lemma span_digits_app (s d r : string) :
  span_digits s = (d, r) → s = d +:+ r ∧ starts_with_digit r = false.
Proof.
  revert d r. induction s as [|c s IH]; intros d r; simpl.
  - intros [= <- <-]. split; reflexivity.
  - destruct (is_digit c) eqn:Hc.
    + destruct (span_digits s) as [d' r'].
      intros [= <- <-]. destruct (IH d' r' eq_refl) as [-> Hr].
      split; [reflexivity | exact Hr].
    + intros [= <- <-]. split; [reflexivity | exact Hc].
Qed.

Lemma span_digits_no_digit (r' : string) :
  starts_with_digit r' = false → span_digits r' = ("", r').
Proof.
  destruct r' as [|c' r']; [reflexivity|]. simpl. intros ->. reflexivity.
Qed.

(** The digits found are found again in front of any text that does
    not start with a digit. *)
Lemma span_digits_again (s d r r' : string) :
  span_digits s = (d, r) → starts_with_digit r' = false →
  span_digits (d +:+ r') = (d, r').
Proof.
  revert d r. induction s as [|c s IH]; intros d r; simpl.
  - intros [= <- <-] Hr'. rewrite string_app_nil.
    apply span_digits_no_digit, Hr'.
  - destruct (is_digit c) eqn:Hc.
    + destruct (span_digits s) as [d' r0].
      intros [= <- <-] Hr'. rewrite string_app_cons. simpl. rewrite Hc.
      rewrite (IH d' r0 eq_refl Hr'). reflexivity.
    + intros [= <- <-] Hr'. rewrite string_app_nil.
      apply span_digits_no_digit, Hr'.
Qed.

Lemma lazy_then_dac_length (s : string) :
  lazy_then_dac s = true → (4 ≤ String.length s)%nat.
Proof.
  induction s as [|c s IH]; [discriminate|].
  cbn [lazy_then_dac].
  destruct (String.prefix ".dac" (String c s)) eqn:Hp.
  - intros _. apply String.prefix_correct in Hp.
    apply (f_equal String.length) in Hp. simpl in Hp.
    destruct s as [|c1 [|c2 [|c3 s]]]; simpl in *; try discriminate; lia.
  - destruct (Ascii.eqb c "010"); [discriminate|].
    intros H. specialize (IH H). simpl. lia.
Qed.

(** The parts of a name the pattern matches. *)
Lemma re_match_inv (filename base ext : string) :
  re_match filename = Some (base, ext) →
  ∃ rest d1 r1 r2 d2 r3 : string,
    filename = "Zelda--param1-" +:+ rest
    ∧ span_digits rest = (d1, r1) ∧ d1 ≠ ""
    ∧ r1 = "." +:+ r2
    ∧ span_digits r2 = (d2, r3) ∧ d2 ≠ ""
    ∧ lazy_then_dac r3 = true
    ∧ base = "Zelda--param1-" +:+ d1 +:+ "." +:+ d2
    ∧ ext = ".dac".
Proof.
  unfold re_match. intros H.
  destruct (strip_prefix "Zelda--param1-" filename) as [rest|] eqn:H0;
    [|discriminate].
  cbn [mbind option_bind] in H.
  destruct (span_digits rest) as [d1 r1] eqn:H1.
  destruct (String.eqb_spec d1 "") as [|Hd1]; [discriminate|].
  destruct (strip_prefix "." r1) as [r2|] eqn:H2; [|discriminate].
  cbn [mbind option_bind] in H.
  destruct (span_digits r2) as [d2 r3] eqn:H3.
  destruct (String.eqb_spec d2 "") as [|Hd2]; [discriminate|].
  destruct (lazy_then_dac r3) eqn:H4; [|discriminate].
  injection H as <- <-.
  apply strip_prefix_Some in H0, H2.
  exists rest, d1, r1, r2, d2, r3. repeat split; assumption.
Qed.

(** The new name is matched again, with the same two groups. *)
Lemma re_match_again (filename base ext : string) :
  re_match filename = Some (base, ext) →
  re_match (base +:+ ext) = Some (base, ext).
Proof.
  intros H.
  destruct (re_match_inv _ _ _ H)
    as (rest & d1 & r1 & r2 & d2 & r3 & _ & H1 & Hd1 & _ & H3 & Hd2 & _ & -> & ->).
  unfold re_match.
  assert (("Zelda--param1-" +:+ d1 +:+ "." +:+ d2) +:+ ".dac"
          = "Zelda--param1-" +:+ (d1 +:+ ("." +:+ (d2 +:+ ".dac")))) as ->.
  { rewrite !string_app_assoc. reflexivity. }
  rewrite strip_prefix_app. cbn [mbind option_bind].
  rewrite (span_digits_again rest d1 r1 _ H1) by reflexivity.
  destruct (String.eqb_spec d1 "") as [|_]; [contradiction|].
  change (strip_prefix "." ("." +:+ d2 +:+ ".dac")) with (Some (d2 +:+ ".dac")).
  cbn [mbind option_bind].
  rewrite (span_digits_again r2 d2 r3 _ H3) by reflexivity.
  destruct (String.eqb_spec d2 "") as [|_]; [contradiction|].
  reflexivity.
Qed.

(** X13.  What the pattern keeps of a name it matches: the extension is
    [.dac], the base is the beginning of the name, what is dropped
    after it holds at least the four characters of the extension (so
    the new name is never longer than the old one), and the new name
    is matched again with the same two groups: it is canonical. *)
Theorem re_match_keeps_a_prefix (filename base ext : string) :
  re_match filename = Some (base, ext) →
  ext = ".dac"
  ∧ (∃ tail, filename = base +:+ tail ∧ (4 ≤ String.length tail)%nat)
  ∧ String.prefix base filename = true
  ∧ (String.length (base +:+ ext) ≤ String.length filename)%nat
  ∧ re_match (base +:+ ext) = Some (base, ext)
  ∧ canonical (base +:+ ext) = true.
Proof.
  intros H. pose proof (re_match_again _ _ _ H) as Hagain.
  destruct (re_match_inv _ _ _ H)
    as (rest & d1 & r1 & r2 & d2 & r3 & H0 & H1 & _ & H2 & H3 & _ & H4 & Hb & He).
  destruct (span_digits_app _ _ _ H1) as [E1 _].
  destruct (span_digits_app _ _ _ H3) as [E3 _].
  pose proof (lazy_then_dac_length r3 H4) as Hlen.
  assert (filename = base +:+ r3) as Hfile.
  { rewrite Hb, H0, E1, H2, E3, !string_app_assoc. reflexivity. }
  split; [exact He|]. split; [|split; [|split; [|split]]].
  - exists r3. split; [exact Hfile | exact Hlen].
  - rewrite Hfile. apply string_prefix_app.
  - rewrite Hfile, He, !string_app_length. simpl. lia.
  - exact Hagain.
  - unfold canonical. rewrite Hagain. apply String.eqb_refl.
Qed.

Lemma re_match_keeps_a_prefix_witness :
  re_match "Zelda--param1-00.75-raw.dac" = Some ("Zelda--param1-00.75", ".dac")
  ∧ re_match ("Zelda--param1-00.75" +:+ ".dac")
    = Some ("Zelda--param1-00.75", ".dac").
Proof.
  split; [reflexivity|].
  exact (proj1 (proj2 (proj2 (proj2 (proj2
           (re_match_keeps_a_prefix "Zelda--param1-00.75-raw.dac"
              "Zelda--param1-00.75" ".dac" eq_refl)))))).
Defined.

Lemma canonical_spec (name : string) :
  canonical name = true ↔ ∃ base ext, re_match name = Some (base, ext)
                                      ∧ name = base +:+ ext.
Proof.
  unfold canonical. destruct (re_match name) as [[b e]|]; split.
  - intros E. apply String.eqb_eq in E. eauto.
  - intros (b' & e' & [= <- <-] & ->). apply String.eqb_refl.
  - discriminate.
  - intros (b' & e' & [=] & _).
Qed.

Lemma new_name_canonical (filename base ext : string) :
  re_match filename = Some (base, ext) → canonical (base +:+ ext) = true.
Proof.
  intros H. unfold canonical. rewrite (re_match_again _ _ _ H).
  apply String.eqb_refl.
Qed.

Lemma not_canonical (filename base ext : string) :
  re_match filename = Some (base, ext) → filename ≠ base +:+ ext →
  canonical filename = false.
Proof.
  intros Hm Hne. unfold canonical. rewrite Hm.
  apply String.eqb_neq. exact Hne.
Qed.

End pattern.

(** ** Runs of the rename script *)

Section rename_runs.
Import rename_dac_files.

Lemma rename_dac_files_unfold (d : directory) :
  rename_dac_files d = for_each_file (glob_dac d) d.
Proof.
  unfold rename_dac_files. cbv [mbind prog_bind get_state].
  destruct (for_each_file (glob_dac d) d) as [[r d'] t]. reflexivity.
Qed.

Lemma glob_dac_elem_of (d : directory) (name : string) :
  name ∈ glob_dac d ↔ listed name ∧ is_Some (d !! name).
Proof.
  unfold glob_dac, listed. rewrite list_elem_of_filter, list_elem_of_fmap.
  split.
  - intros [Hl ([n c] & -> & Hin)]. split; [exact Hl|].
    apply elem_of_map_to_list in Hin. simpl. eauto.
  - intros [Hl [c Hc]]. split; [exact Hl|]. exists (name, c).
    split; [reflexivity|]. apply elem_of_map_to_list. exact Hc.
Qed.

Lemma glob_dac_NoDup (d : directory) : NoDup (glob_dac d).
Proof. apply NoDup_filter, NoDup_fst_map_to_list. Qed.

(** The four ways one turn of the loop can go. *)
Lemma for_each_file_turn (filename : string) (rest : list string) (d : directory) :
  let r := for_each_file (filename :: rest) d in
  match re_match filename with
  | None =>
      ∃ e, r = (result_of (for_each_file rest d), state_of (for_each_file rest d),
                e :: trace_of (for_each_file rest d))
           ∧ renames [e] = []
  | Some (base, ext) =>
      let new := base +:+ ext in
      if String.eqb filename new then r = for_each_file rest d
      else
        match d !! new, d !! filename with
        | Some _, _ =>
            ∃ e, r = (result_of (for_each_file rest d),
                      state_of (for_each_file rest d),
                      e :: trace_of (for_each_file rest d))
                 ∧ renames [e] = []
        | None, Some c =>
            let d1 := <[new := c]> (delete filename d) in
            ∃ e, r = (result_of (for_each_file rest d1),
                      state_of (for_each_file rest d1),
                      e :: Rename filename new false
                        :: trace_of (for_each_file rest d1))
                 ∧ renames [e] = []
        | None, None =>
            result_of r = FileNotFoundError filename ∧ state_of r = d
        end
  end.
Proof.
  cbn zeta. cbn [for_each_file].
  destruct (re_match filename) as [[base ext]|].
  - destruct (String.eqb filename (base +:+ ext)); cbn [negb]; [reflexivity|].
    cbv [mbind prog_bind mret prog_ret emit get_state put_state print
         os_path_exists os_rename].
    destruct (d !! (base +:+ ext)) as [c'|] eqn:Hnew.
    + rewrite bool_decide_eq_true_2 by eauto.
      destruct (for_each_file rest d) as [[r d'] t].
      eexists. split; reflexivity.
    + rewrite bool_decide_eq_false_2 by apply is_Some_None.
      destruct (d !! filename) as [c|] eqn:Hold.
      * rewrite bool_decide_eq_false_2 by (rewrite Hnew; apply is_Some_None).
        destruct (for_each_file rest _) as [[r d'] t].
        eexists. split; reflexivity.
      * split; reflexivity.
  - cbv [mbind prog_bind mret prog_ret emit print].
    destruct (for_each_file rest d) as [[r d'] t].
    eexists. split; reflexivity.
Qed.

Lemma renames_cons_quiet (e : event) (t : list event) :
  renames [e] = [] → renames (e :: t) = renames t.
Proof. unfold renames. destruct e; [reflexivity | discriminate]. Qed.

(** What a pass over distinct names that all exist does: it ends
    normally; a file that is not in the list, not matched, or
    canonical keeps its name and content; every name present
    afterwards was present before or is canonical; and a listed file
    that is still there under a name that is not canonical has its
    canonical name taken. *)
Lemma for_each_file_pass (dac_files : list string) :
  NoDup dac_files →
  ∀ d : directory,
    (∀ f, f ∈ dac_files → is_Some (d !! f)) →
    let r := for_each_file dac_files d in
    result_of r = Returned
    ∧ (∀ n c, d !! n = Some c →
         n ∉ dac_files ∨ re_match n = None ∨ canonical n = true →
         state_of r !! n = Some c)
    ∧ (∀ n, is_Some (state_of r !! n) → is_Some (d !! n) ∨ canonical n = true)
    ∧ (∀ f base ext, f ∈ dac_files → is_Some (state_of r !! f) →
         re_match f = Some (base, ext) → f ≠ base +:+ ext →
         is_Some (state_of r !! (base +:+ ext))).
Proof.
  induction 1 as [|filename rest Hnotin Hnd IH]; intros d Hex; cbn zeta.
  - cbn. repeat split; auto. intros f base ext Hf. inversion Hf.
  - pose proof (for_each_file_turn filename rest d) as Hturn. cbn zeta in Hturn.
    assert (∀ f, f ∈ rest → is_Some (d !! f)) as Hex'.
    { intros f Hf. apply Hex. right. exact Hf. }
    assert (∀ n, n ∉ filename :: rest ∨ re_match n = None ∨ canonical n = true →
                 n ∉ rest ∨ re_match n = None ∨ canonical n = true) as Hcond.
    { intros n [Hn|Hn]; [left | right; exact Hn].
      intros Hr. apply Hn. right. exact Hr. }
    (* the turns that leave the directory as it is *)
    assert (∀ t,
      for_each_file (filename :: rest) d
        = (result_of (for_each_file rest d), state_of (for_each_file rest d), t) →
      (∀ base ext, re_match filename = Some (base, ext) →
                   filename ≠ base +:+ ext → is_Some (d !! (base +:+ ext))) →
      result_of (for_each_file (filename :: rest) d) = Returned
      ∧ (∀ n c, d !! n = Some c →
           n ∉ filename :: rest ∨ re_match n = None ∨ canonical n = true →
           state_of (for_each_file (filename :: rest) d) !! n = Some c)
      ∧ (∀ n, is_Some (state_of (for_each_file (filename :: rest) d) !! n) →
              is_Some (d !! n) ∨ canonical n = true)
      ∧ (∀ f base ext, f ∈ filename :: rest →
           is_Some (state_of (for_each_file (filename :: rest) d) !! f) →
           re_match f = Some (base, ext) → f ≠ base +:+ ext →
           is_Some (state_of (for_each_file (filename :: rest) d)
                      !! (base +:+ ext)))) as Hsame.
    { intros t -> Htaken.
      destruct (IH d Hex') as (Hr & Hkeep & Horigin & Hsettled).
      unfold result_of, state_of in *. cbn [fst snd] in *.
      split; [exact Hr|]. split; [|split].
      - intros n c Hn Hc. apply (Hkeep n c Hn), Hcond, Hc.
      - exact Horigin.
      - intros f base ext Hf Hpres Hm Hne.
        apply elem_of_cons in Hf as [->|Hf]; [|eauto].
        destruct (Htaken base ext Hm Hne) as [c Hc].
        rewrite (Hkeep _ c Hc); [eauto|].
        right. right. eapply new_name_canonical, Hm. }
    destruct (re_match filename) as [[base ext]|] eqn:Hm.
    + destruct (String.eqb_spec filename (base +:+ ext)) as [Heq|Hne].
      { apply (Hsame (trace_of (for_each_file rest d))).
        - rewrite Hturn. destruct (for_each_file rest d) as [[? ?] ?]. reflexivity.
        - intros b e [= <- <-] Hb. contradiction. }
      destruct (d !! (base +:+ ext)) as [c'|] eqn:Hnew.
      { destruct Hturn as (e & Hrun & _).
        apply (Hsame _ Hrun). intros b e' [= <- <-] _. rewrite Hnew. eauto. }
      destruct (Hex filename ltac:(left)) as [c Hold]. rewrite Hold in Hturn.
      destruct Hturn as (e & Hrun & _). rewrite Hrun.
      set (d1 := <[base +:+ ext := c]> (delete filename d)) in *.
      assert (∀ f, f ∈ rest → is_Some (d1 !! f)) as Hex1.
      { intros f Hf. unfold d1.
        destruct (decide (f = base +:+ ext)) as [->|Hfn].
        - rewrite lookup_insert_eq. eauto.
        - rewrite lookup_insert_ne by auto.
          rewrite lookup_delete_ne; [apply Hex'; exact Hf|].
          intros ->. contradiction. }
      destruct (IH d1 Hex1) as (Hr & Hkeep & Horigin & Hsettled).
      unfold result_of, state_of in *. cbn [fst snd] in *.
      pose proof (not_canonical _ _ _ Hm Hne) as Hnc.
      split; [exact Hr|]. split; [|split].
      * intros n c0 Hn Hc.
        assert (n ≠ filename) as Hnf.
        { intros ->. destruct Hc as [Hc|[Hc|Hc]].
          - apply Hc. left.
          - congruence.
          - congruence. }
        assert (n ≠ base +:+ ext) as Hnn by (intros ->; congruence).
        apply Hkeep; [|apply Hcond, Hc].
        unfold d1. rewrite lookup_insert_ne by auto.
        rewrite lookup_delete_ne by auto. exact Hn.
      * intros n Hn. destruct (Horigin n Hn) as [H1|H1]; [|right; exact H1].
        unfold d1 in H1.
        destruct (decide (n = base +:+ ext)) as [->|Hnn].
        -- right. eapply new_name_canonical, Hm.
        -- rewrite lookup_insert_ne in H1 by auto.
           left. destruct (decide (n = filename)) as [->|Hnf].
           ++ rewrite lookup_delete_eq in H1. destruct (is_Some_None H1).
           ++ rewrite lookup_delete_ne in H1 by auto. exact H1.
      * intros f b e' Hf Hpres Hmf Hnef.
        apply elem_of_cons in Hf as [->|Hf]; [|eauto].
        exfalso. destruct (Horigin _ Hpres) as [H1|H1]; [|congruence].
        unfold d1 in H1. rewrite lookup_insert_ne in H1 by auto.
        rewrite lookup_delete_eq in H1. destruct (is_Some_None H1).
    + destruct Hturn as (e & Hrun & _).
      apply (Hsame _ Hrun). intros b e' [=].
Qed.

(** A pass over names whose canonical names are all taken does
    nothing but print. *)
Lemma for_each_file_settled (dac_files : list string) (d : directory) :
  (∀ f base ext, f ∈ dac_files → re_match f = Some (base, ext) →
                 f ≠ base +:+ ext → is_Some (d !! (base +:+ ext))) →
  let r := for_each_file dac_files d in
  result_of r = Returned ∧ state_of r = d ∧ renames (trace_of r) = [].
Proof.
  induction dac_files as [|filename rest IH]; intros Hset; cbn zeta.
  - repeat split.
  - pose proof (for_each_file_turn filename rest d) as Hturn. cbn zeta in Hturn.
    destruct IH as (Hr & Hs & Ht).
    { intros f base ext Hf. apply Hset. right. exact Hf. }
    destruct (re_match filename) as [[base ext]|] eqn:Hm.
    + destruct (String.eqb_spec filename (base +:+ ext)) as [Heq|Hne].
      { rewrite Hturn. auto. }
      destruct (Hset filename base ext ltac:(left) Hm Hne) as [c' Hnew].
      rewrite Hnew in Hturn. destruct Hturn as (e & -> & He).
      unfold result_of, state_of, trace_of in *. cbn [fst snd] in *.
      rewrite (renames_cons_quiet _ _ He). auto.
    + destruct Hturn as (e & -> & He).
      unfold result_of, state_of, trace_of in *. cbn [fst snd] in *.
      rewrite (renames_cons_quiet _ _ He). auto.
Qed.

(** X14.  Files the script has no business with are left alone: a file
    that [glob] does not list (its name does not end in [.dac], or
    starts with a dot), that the pattern does not match, or whose
    name is already canonical, keeps its name and its content. *)
Theorem rename_leaves_other_files (d : directory) (name content : string) :
  d !! name = Some content →
  ¬ listed name ∨ re_match name = None ∨ canonical name = true →
  state_of (rename_dac_files d) !! name = Some content.
Proof.
  intros Hn Hc. rewrite rename_dac_files_unfold.
  destruct (for_each_file_pass (glob_dac d) (glob_dac_NoDup d) d) as (_ & Hkeep & _).
  { intros f Hf. apply glob_dac_elem_of in Hf. tauto. }
  apply Hkeep; [exact Hn|].
  destruct Hc as [Hc|Hc]; [left | right; exact Hc].
  intros Hin. apply glob_dac_elem_of in Hin. tauto.
Qed.

Lemma rename_leaves_other_files_witness :
  zelda_dir !! "notes.dac" = Some "not a sample"
  ∧ re_match "notes.dac" = None
  ∧ state_of (rename_dac_files zelda_dir) !! "notes.dac" = Some "not a sample".
Proof.
  assert (zelda_dir !! "notes.dac" = Some "not a sample") as H1
    by (vm_compute; reflexivity).
  split; [exact H1|]. split; [reflexivity|].
  exact (rename_leaves_other_files zelda_dir "notes.dac" "not a sample" H1
           (or_intror (or_introl eq_refl))).
Defined.

(** X15.  The script is idempotent.  A run always ends normally; a second
    run on the directory it leaves ends normally too, renames nothing
    and leaves the directory as it found it. *)
Theorem rename_twice_changes_nothing (d : directory) :
  let r1 := rename_dac_files d in
  let r2 := rename_dac_files (state_of r1) in
  result_of r1 = Returned
  ∧ result_of r2 = Returned
  ∧ state_of r2 = state_of r1
  ∧ renames (trace_of r2) = [].
Proof.
  cbn zeta. rewrite !rename_dac_files_unfold.
  destruct (for_each_file_pass (glob_dac d) (glob_dac_NoDup d) d)
    as (Hr & _ & Horigin & Hsettled).
  { intros f Hf. apply glob_dac_elem_of in Hf. tauto. }
  split; [exact Hr|].
  set (d' := state_of (for_each_file (glob_dac d) d)) in *.
  apply for_each_file_settled.
  intros f base ext Hf Hm Hne.
  apply glob_dac_elem_of in Hf as [Hl Hpres].
  apply (Hsettled f base ext); try assumption.
  apply glob_dac_elem_of. split; [exact Hl|].
  destruct (Horigin f Hpres) as [H|H]; [exact H|].
  rewrite (not_canonical _ _ _ Hm Hne) in H. discriminate.
Qed.

End rename_runs.

(** ** Where the flattened files end up *)

Section flattened_files.
Import rename_files.

Lemma rev_app_snoc (x : string) (c : ascii) (acc : string) :
  String.rev_app (x +:+ String c "") acc = String c (String.rev_app x acc).
Proof.
  revert acc. induction x as [|a x IH]; intros acc; [reflexivity|].
  rewrite string_app_cons. simpl. apply IH.
Qed.

Lemma pretty_N_go_app (x : N) :
  ∀ s, ∃ p, pretty_N_go x s = p +:+ s
            ∧ ((0 < x)%N → ∃ p', p = p' +:+ String (pretty_N_char (x `mod` 10)) "").
Proof.
  induction (N.lt_wf_0 x) as [x _ IH]. intros s.
  destruct (decide (x = 0%N)) as [->|Hx].
  - exists "". rewrite pretty_N_go_0. split; [reflexivity | lia].
  - assert (0 < x)%N as Hpos by lia.
    rewrite (pretty_N_go_step x s Hpos).
    destruct (IH (x `div` 10)%N ltac:(apply N.div_lt; lia)
                (String (pretty_N_char (x `mod` 10)) s)) as (p & -> & _).
    exists (p +:+ String (pretty_N_char (x `mod` 10)) "").
    split; [rewrite string_app_assoc; reflexivity|].
    intros _. exists p. reflexivity.
Qed.

Lemma pretty_N_char_digit (x : N) :
  rename_dac_files.is_digit (pretty_N_char x) = true.
Proof.
  destruct x as [|p]; [reflexivity|].
  do 4 (try destruct p as [p|p|]); reflexivity.
Qed.

(** The decimal notation of a number ends with a digit. *)
Lemma pretty_nat_last (k : nat) :
  ∃ p c, pretty k = p +:+ String c "" ∧ rename_dac_files.is_digit c = true.
Proof.
  change (pretty k) with (pretty_N (N.of_nat k)). unfold pretty_N.
  destruct (decide (N.of_nat k = 0%N)) as [_|Hk].
  - exists "", "0"%char. split; reflexivity.
  - destruct (pretty_N_go_app (N.of_nat k) "") as (p & -> & Hp).
    destruct Hp as [p' ->]; [lia|].
    exists p', (pretty_N_char (N.of_nat k `mod` 10)).
    split; [|apply pretty_N_char_digit].
    rewrite string_app_assoc. reflexivity.
Qed.

(** A numbered name no longer ends in [.dac]. *)
Lemma suffixed_not_dac (name : string) (k : nat) :
  py.endswith (suffixed name k) ".dac" = false.
Proof.
  unfold py.endswith, suffixed.
  destruct (pretty_nat_last k) as (p & c & -> & Hc).
  rewrite <- !string_app_assoc. unfold String.rev. rewrite rev_app_snoc.
  change (String.rev_app ".dac" "") with "cad.".
  cbn [String.prefix].
  destruct (ascii_dec "c" c) as [<-|]; [discriminate | reflexivity].
Qed.

Lemma left_over_cons_file (name content : string) (rest : list (string * entry))
    (entries : gmap string entry) :
  left_over ((name, EFile content) :: rest) entries
  = left_over rest (delete name entries).
Proof. reflexivity. Qed.

Lemma left_over_cons_other (name : string) (rest : list (string * entry))
    (entries : gmap string entry) :
  left_over ((name, EOther) :: rest) entries = left_over rest entries.
Proof. reflexivity. Qed.

(** What is left over are the entries that were not moved. *)
Lemma left_over_lookup (files : list (string * entry)) :
  ∀ (entries : gmap string entry) (name : string) (e : entry),
    left_over files entries !! name = Some e
    ↔ entries !! name = Some e ∧ ∀ c, (name, EFile c) ∉ files.
Proof.
  induction files as [|[n [c|]] rest IH]; intros entries name e.
  - split; [|tauto]. intros H. split; [exact H|]. intros c Hc. inversion Hc.
  - rewrite left_over_cons_file, IH. split.
    + intros [Hd Hn].
      destruct (decide (name = n)) as [->|Hne];
        [rewrite lookup_delete_eq in Hd; discriminate|].
      rewrite lookup_delete_ne in Hd by auto. split; [exact Hd|].
      intros c' Hin. apply elem_of_cons in Hin as [[= ? ?]|Hin];
        [contradiction | apply (Hn c' Hin)].
    + intros [He Hn]. split.
      * rewrite lookup_delete_ne; [exact He|].
        intros ->. apply (Hn c). left.
      * intros c' Hin. apply (Hn c'). right. exact Hin.
  - rewrite left_over_cons_other, IH. split.
    + intros [He Hn]. split; [exact He|]. intros c' Hin.
      apply elem_of_cons in Hin as [[=]|Hin]. apply (Hn c' Hin).
    + intros [He Hn]. split; [exact He|]. intros c' Hin.
      apply (Hn c'). right. exact Hin.
Qed.

Lemma left_over_listing (entries : gmap string entry) :
  no_regular_file (left_over (map_to_list entries) entries).
Proof.
  intros name e He. apply left_over_lookup in He as [He Hn].
  destruct e as [c|]; [|reflexivity].
  exfalso. apply (Hn c). apply elem_of_map_to_list. exact He.
Qed.

(** The loop over the entries of a sub-directory: every regular file
    of the list is moved to a name of the target directory that was
    free, where it stays; the sub-directory keeps what was not moved;
    nothing else changes. *)
Lemma move_each_effect (subdir : string) (files : list (string * entry)) :
  ∀ (base : directory) (entries : gmap string entry),
    base !! subdir = Some (Dir entries) →
    let r := move_each subdir files base in
    result_of r = true
    ∧ keeps_files base (state_of r)
    ∧ state_of r !! subdir = Some (Dir (left_over files entries))
    ∧ (∀ n es, n ≠ subdir →
         state_of r !! n = Some (Dir es) ↔ base !! n = Some (Dir es))
    ∧ (∀ name content, (name, EFile content) ∈ files →
         ∃ dest, Move (subdir, name) dest false ∈ trace_of r
                 ∧ state_of r !! dest = Some (File content)).
Proof.
  induction files as [|[name [content|]] rest IH]; intros base entries Hs; cbn zeta.
  - cbn. split; [reflexivity|]. split; [apply keeps_files_refl|].
    split; [exact Hs|]. split; [tauto|].
    intros name content Hin. inversion Hin.
  - destruct (move_each_file base subdir name content rest)
      as (dest & _ & Hfree & Hrun).
    rewrite Hrun. cbn zeta. rewrite Hs.
    set (base' := <[dest := File content]>
                    (<[subdir := Dir (delete name entries)]> base)).
    assert (dest ≠ subdir) as Hds by congruence.
    assert (base' !! subdir = Some (Dir (delete name entries))) as Hs'.
    { unfold base'. rewrite lookup_insert_ne by auto. apply lookup_insert_eq. }
    destruct (IH base' (delete name entries) Hs')
      as (Hok & Hkeep & Hsub & Hdirs & Hmoved).
    unfold result_of, state_of, trace_of in *. cbn [fst snd] in *.
    assert (keeps_files base base') as Hk0.
    { pose proof (keeps_files_move base subdir name content dest Hfree) as Hk.
      rewrite Hs in Hk. exact Hk. }
    split; [exact Hok|]. split; [eapply keeps_files_trans; eauto|].
    split; [rewrite left_over_cons_file; exact Hsub|]. split.
    + intros n es Hn. rewrite (Hdirs n es Hn). unfold base'.
      destruct (decide (n = dest)) as [->|Hnd].
      * rewrite lookup_insert_eq, Hfree. split; discriminate.
      * rewrite !lookup_insert_ne by auto. reflexivity.
    + intros name' content' Hin.
      apply elem_of_cons in Hin as [[= -> ->]|Hin].
      * exists dest. split; [right; left|].
        apply Hkeep. unfold base'. apply lookup_insert_eq.
      * destruct (Hmoved name' content' Hin) as (dest' & Hin' & Hd').
        exists dest'. split; [right; right; exact Hin' | exact Hd'].
  - cbn [move_each]. rewrite left_over_cons_other.
    destruct (IH base entries Hs) as (Hok & Hkeep & Hsub & Hdirs & Hmoved).
    split; [exact Hok|]. split; [exact Hkeep|]. split; [exact Hsub|].
    split; [exact Hdirs|].
    intros name' content' Hin. apply elem_of_cons in Hin as [[=]|Hin].
    exact (Hmoved name' content' Hin).
Qed.

Ltac run_flat :=
  cbv [mbind prog_bind mret prog_ret emit get_state put_state log
       shutil_move rmdir].

(** The branch for several entries. *)
Lemma move_all_effect (subdir : string) (base : directory)
    (entries : gmap string entry) :
  base !! subdir = Some (Dir entries) →
  let r := move_all subdir (map_to_list entries) base in
  (∀ n es, n ≠ subdir →
     state_of r !! n = Some (Dir es) ↔ base !! n = Some (Dir es))
  ∧ (∀ es', state_of r !! subdir = Some (Dir es') →
       es' ≠ ∅ ∧ no_regular_file es')
  ∧ (∀ name content, entries !! name = Some (EFile content) →
       ∃ dest, Move (subdir, name) dest false ∈ trace_of r
               ∧ state_of r !! dest = Some (File content)).
Proof.
  intros Hs. cbn zeta.
  destruct (move_each_effect subdir (map_to_list entries) base entries Hs)
    as (Hok & Hkeep & Hsub & Hdirs & Hmoved).
  unfold move_all. run_flat.
  destruct (move_each subdir (map_to_list entries) base) as [[ok b1] t].
  unfold result_of, state_of, trace_of in *. cbn [fst snd] in *. subst ok.
  unfold glob_all. rewrite Hsub.
  pose proof (left_over_listing entries) as Hleft.
  set (L := left_over (map_to_list entries) entries) in *.
  assert (∀ name content, entries !! name = Some (EFile content) →
            ∃ dest, Move (subdir, name) dest false ∈ t
                    ∧ b1 !! dest = Some (File content) ∧ dest ≠ subdir) as Hmoved'.
  { intros name content He.
    destruct (Hmoved name content) as (dest & Hin & Hd).
    { apply elem_of_map_to_list. exact He. }
    exists dest. split; [exact Hin|]. split; [exact Hd|]. congruence. }
  destruct (map_to_list L) as [|x l] eqn:HL; cbn [fst snd].
  - split; [|split].
    + intros n es Hn. rewrite lookup_delete_ne by auto. apply Hdirs, Hn.
    + intros es'. rewrite lookup_delete_eq. discriminate.
    + intros name content He.
      destruct (Hmoved' name content He) as (dest & Hin & Hd & Hne).
      exists dest. split.
      * right. apply elem_of_app. left. exact Hin.
      * rewrite lookup_delete_ne by auto. exact Hd.
  - split; [|split].
    + exact Hdirs.
    + intros es'. rewrite Hsub. intros [= <-]. split; [|exact Hleft].
      intros HE. rewrite HE, map_to_list_empty in HL. discriminate.
    + intros name content He.
      destruct (Hmoved' name content He) as (dest & Hin & Hd & Hne).
      exists dest. split; [|exact Hd].
      right. apply elem_of_app. left. exact Hin.
Qed.

(** One turn of the loop of [main]. *)
Lemma process_effect (subdir : string) (base : directory) :
  let r := process subdir base in
  result_of r = true
  ∧ keeps_files base (state_of r)
  ∧ (∀ n es, n ≠ subdir →
       state_of r !! n = Some (Dir es) ↔ base !! n = Some (Dir es))
  ∧ (∀ es', state_of r !! subdir = Some (Dir es') →
       ∃ es, base !! subdir = Some (Dir es)
             ∧ if py.endswith subdir ".dac"
               then es' ≠ ∅ ∧ no_regular_file es'
               else es' = es)
  ∧ (∀ es, base !! subdir = Some (Dir es) → py.endswith subdir ".dac" = false →
       state_of r !! subdir = Some (Dir es))
  ∧ (∀ es name content,
       base !! subdir = Some (Dir es) → py.endswith subdir ".dac" = true →
       es !! name = Some (EFile content) →
       ∃ dest, Move (subdir, name) dest false ∈ trace_of r
               ∧ state_of r !! dest = Some (File content)
               ∧ (es = {[name := EFile content]} →
                  ∃ k, (1 ≤ k)%nat ∧ dest = suffixed subdir k)).
Proof.
  cbn zeta. destruct (process_flat subdir base) as (Hok & _ & Hkeep).
  split; [exact Hok|]. split; [exact Hkeep|]. clear Hok Hkeep.
  assert (process subdir base = (true, base, []) →
          (base !! subdir = None ∨ (∃ c, base !! subdir = Some (File c))
           ∨ py.endswith subdir ".dac" = false) →
          (∀ n es, n ≠ subdir →
             state_of (process subdir base) !! n = Some (Dir es)
             ↔ base !! n = Some (Dir es))
          ∧ (∀ es', state_of (process subdir base) !! subdir = Some (Dir es') →
               ∃ es, base !! subdir = Some (Dir es)
                     ∧ if py.endswith subdir ".dac"
                       then es' ≠ ∅ ∧ no_regular_file es'
                       else es' = es)
          ∧ (∀ es, base !! subdir = Some (Dir es) →
               py.endswith subdir ".dac" = false →
               state_of (process subdir base) !! subdir = Some (Dir es))
          ∧ (∀ es name content,
               base !! subdir = Some (Dir es) → py.endswith subdir ".dac" = true →
               es !! name = Some (EFile content) →
               ∃ dest, Move (subdir, name) dest false ∈ trace_of (process subdir base)
                       ∧ state_of (process subdir base) !! dest = Some (File content)
                       ∧ (es = {[name := EFile content]} →
                          ∃ k, (1 ≤ k)%nat ∧ dest = suffixed subdir k))) as Hidle.
  { intros -> Hwhy. unfold state_of, trace_of. cbn [fst snd].
    split; [tauto|]. split; [|split].
    - intros es' Hs. exists es'. split; [exact Hs|].
      destruct Hwhy as [H|[[c H]|H]]; [congruence | congruence |].
      rewrite H. reflexivity.
    - auto.
    - intros es name content Hs Hdac.
      destruct Hwhy as [H|[[c H]|H]]; congruence. }
  destruct (base !! subdir) as [[c|entries]|] eqn:Hs.
  - apply Hidle; [|eauto]. unfold process. run_flat. rewrite Hs. reflexivity.
  - destruct (py.endswith subdir ".dac") eqn:Hdac.
    2:{ apply Hidle; [|auto]. unfold process. run_flat.
        rewrite Hs, Hdac. reflexivity. }
    clear Hidle.
    assert (∀ files, map_to_list entries = files →
              match files with
              | [] | [(_, EFile _)] => True
              | _ => process subdir base = move_all subdir (map_to_list entries) base
              end) as Hrun.
    { intros files Hl.
      destruct files as [|[name [content|]] [|x l]]; try exact I;
        unfold process; run_flat; rewrite Hs, Hdac;
        unfold glob_all; rewrite Hs, Hl;
        destruct (move_all _ _ _) as [[? ?] ?]; reflexivity. }
    destruct (map_to_list entries) as [|[name [content|]] [|x l]] eqn:Hl.
    + (* no entry *)
      clear Hrun.
      assert (process subdir base
              = (true, delete subdir base,
                 [Log INFO "Directory {subdir} is empty, removing it"
                    [AStr subdir]; Rmdir subdir])) as ->.
      { unfold process. run_flat. rewrite Hs, Hdac.
        unfold glob_all. rewrite Hs, Hl. reflexivity. }
      unfold state_of, trace_of. cbn [fst snd].
      apply map_to_list_empty_iff in Hl. subst entries.
      split; [|split; [|split]].
      * intros n es Hn. rewrite lookup_delete_ne by auto. reflexivity.
      * intros es'. rewrite lookup_delete_eq. discriminate.
      * discriminate.
      * intros es name content [= <-] _ He. rewrite lookup_empty in He.
        discriminate.
    + (* one regular file *)
      clear Hrun.
      assert (entries = {[name := EFile content]}) as ->.
      { rewrite <- (list_to_map_to_list entries), Hl. reflexivity. }
      destruct (process_single_file base subdir name content Hs Hdac)
        as (k & Hk & _ & Hfree & ->).
      unfold state_of, trace_of. cbn [fst snd].
      assert (suffixed subdir k ≠ subdir) as Hne by congruence.
      split; [|split; [|split]].
      * intros n es Hn.
        destruct (decide (n = suffixed subdir k)) as [->|Hnk].
        -- rewrite lookup_insert_eq, Hfree. split; discriminate.
        -- rewrite lookup_insert_ne, lookup_delete_ne by auto. reflexivity.
      * intros es'. rewrite lookup_insert_ne, lookup_delete_eq by auto.
        discriminate.
      * discriminate.
      * intros es name' content' [= <-] _ He.
        apply lookup_singleton_Some in He as [<- [= <-]].
        exists (suffixed subdir k). split; [right; left|].
        split; [apply lookup_insert_eq|]. intros _. eauto.
    + rewrite (Hrun _ eq_refl), <- Hl.
      destruct (move_all_effect subdir base entries Hs) as (Hdirs & Hsub & Hmoved).
      split; [exact Hdirs|]. split; [|split].
      * intros es' He. exists entries. split; [reflexivity|]. apply Hsub, He.
      * discriminate.
      * intros es name' content' [= <-] _ He.
        destruct (Hmoved name' content' He) as (dest & Hin & Hd).
        exists dest. split; [exact Hin|]. split; [exact Hd|].
        intros ->. rewrite map_to_list_singleton in Hl. discriminate.
    + rewrite (Hrun _ eq_refl), <- Hl.
      destruct (move_all_effect subdir base entries Hs) as (Hdirs & Hsub & Hmoved).
      split; [exact Hdirs|]. split; [|split].
      * intros es' He. exists entries. split; [reflexivity|]. apply Hsub, He.
      * discriminate.
      * intros es name' content' [= <-] _ He.
        destruct (Hmoved name' content' He) as (dest & Hin & Hd).
        exists dest. split; [exact Hin|]. split; [exact Hd|].
        intros ->. rewrite map_to_list_singleton in Hl. discriminate.
    + rewrite (Hrun _ eq_refl), <- Hl.
      destruct (move_all_effect subdir base entries Hs) as (Hdirs & Hsub & Hmoved).
      split; [exact Hdirs|]. split; [|split].
      * intros es' He. exists entries. split; [reflexivity|]. apply Hsub, He.
      * discriminate.
      * intros es name' content' [= <-] _ He.
        destruct (Hmoved name' content' He) as (dest & Hin & Hd).
        exists dest. split; [exact Hin|]. split; [exact Hd|].
        intros ->. rewrite map_to_list_singleton in Hl. discriminate.
  - apply Hidle; [|auto]. unfold process. run_flat. rewrite Hs. reflexivity.
Qed.

(** The loop of [main] over distinct names. *)
Lemma for_each_subdir_effect (names : list string) :
  NoDup names →
  ∀ base : directory,
    let r := for_each_subdir names base in
    result_of r = true
    ∧ keeps_files base (state_of r)
    ∧ (∀ n es, n ∉ names ∨ py.endswith n ".dac" = false →
         base !! n = Some (Dir es) → state_of r !! n = Some (Dir es))
    ∧ (∀ n es', state_of r !! n = Some (Dir es') →
         ∃ es, base !! n = Some (Dir es)
               ∧ (n ∈ names → py.endswith n ".dac" = true →
                  es' ≠ ∅ ∧ no_regular_file es'))
    ∧ (∀ n es name content,
         n ∈ names → base !! n = Some (Dir es) → py.endswith n ".dac" = true →
         es !! name = Some (EFile content) →
         ∃ dest, Move (n, name) dest false ∈ trace_of r
                 ∧ state_of r !! dest = Some (File content)
                 ∧ (es = {[name := EFile content]} →
                    ∃ k, (1 ≤ k)%nat ∧ dest = suffixed n k)).
Proof.
  induction 1 as [|s0 rest Hnotin Hnd IH]; intros base; cbn zeta.
  - cbn. split; [reflexivity|]. split; [apply keeps_files_refl|].
    split; [auto|]. split.
    + intros n es' Hn. exists es'. split; [exact Hn|]. intros Hin. inversion Hin.
    + intros n es name content Hin. inversion Hin.
  - destruct (process_effect s0 base)
      as (Hok0 & Hkeep0 & Hdirs0 & Hsub0 & Hnd0 & Hmoved0).
    cbn [for_each_subdir]. run_flat.
    destruct (process s0 base) as [[ok b1] t0].
    unfold result_of, state_of, trace_of in Hok0, Hkeep0, Hdirs0, Hsub0, Hnd0, Hmoved0.
    cbn [fst snd] in Hok0, Hkeep0, Hdirs0, Hsub0, Hnd0, Hmoved0. subst ok.
    destruct (IH b1) as (Hok & Hkeep & HA & HB & HC).
    destruct (for_each_subdir rest b1) as [[ok' b2] t'].
    unfold result_of, state_of, trace_of in *. cbn [fst snd] in *.
    split; [exact Hok|]. split; [eapply keeps_files_trans; eauto|].
    split; [|split].
    + intros n es Hwhy Hn. apply HA.
      * destruct Hwhy as [Hwhy|Hwhy]; [left | right; exact Hwhy].
        intros Hin. apply Hwhy. right. exact Hin.
      * destruct (decide (n = s0)) as [->|Hne].
        -- apply Hnd0; [exact Hn|]. destruct Hwhy as [Hwhy|Hwhy]; [|exact Hwhy].
           exfalso. apply Hwhy. left.
        -- apply Hdirs0; assumption.
    + intros n es' Hn. destruct (HB n es' Hn) as (es1 & Hn1 & Hrest).
      destruct (decide (n = s0)) as [->|Hne].
      * destruct (Hsub0 es1 Hn1) as (es & Hs & Hcase).
        exists es. split; [exact Hs|]. intros _ Hdac. rewrite Hdac in Hcase.
        assert (es' = es1) as ->; [|exact Hcase].
        pose proof (HA s0 es1 (or_introl Hnotin) Hn1) as Hsame. congruence.
      * exists es1. split; [apply Hdirs0; assumption|].
        intros Hin. apply Hrest. apply elem_of_cons in Hin as [?|?]; [contradiction|].
        assumption.
    + intros n es name content Hin Hn Hdac He.
      destruct (decide (n = s0)) as [->|Hne].
      * destruct (Hmoved0 es name content Hn Hdac He) as (dest & Hm & Hd & Hk).
        exists dest. split; [apply elem_of_app; left; exact Hm|].
        split; [apply Hkeep, Hd | exact Hk].
      * apply elem_of_cons in Hin as [?|Hin]; [contradiction|].
        destruct (HC n es name content Hin (proj2 (Hdirs0 n es Hne) Hn) Hdac He)
          as (dest & Hm & Hd & Hk).
        exists dest. split; [apply elem_of_app; right; exact Hm|].
        split; [exact Hd | exact Hk].
Qed.

(** A run of [main] on a target directory that exists. *)
Lemma main_effect (target_dir : string) (base : directory) :
  let r := for_each_subdir (map_to_list base).*1 base in
  flattened target_dir base = state_of r
  ∧ trace_of (main target_dir (Some base)) = trace_of r.
Proof.
  cbn zeta. unfold flattened, main.
  destruct (for_each_subdir _ base) as [[ok b'] t]. split; reflexivity.
Qed.

Lemma listing_elem_of (base : directory) (name : string) (nd : node) :
  base !! name = Some nd → name ∈ (map_to_list base).*1.
Proof.
  intros H. apply list_elem_of_fmap. exists (name, nd). split; [reflexivity|].
  apply elem_of_map_to_list. exact H.
Qed.

(** X16.  Flattening loses no file: every regular file that is in a [.dac]
    sub-directory when [main] starts is moved, by a move that replaces
    nothing, to a name of the target directory under which its
    content is found when [main] returns. *)
Theorem flattening_loses_no_file (target_dir : string) (base : directory)
    (subdir name content : string) (entries : gmap string entry) :
  base !! subdir = Some (Dir entries) →
  py.endswith subdir ".dac" = true →
  entries !! name = Some (EFile content) →
  ∃ dest,
    Move (subdir, name) dest false ∈ trace_of (main target_dir (Some base))
    ∧ flattened target_dir base !! dest = Some (File content).
Proof.
  intros Hs Hdac He.
  destruct (main_effect target_dir base) as [-> ->].
  destruct (for_each_subdir_effect _ (NoDup_fst_map_to_list base) base)
    as (_ & _ & _ & _ & HC).
  destruct (HC subdir entries name content (listing_elem_of _ _ _ Hs) Hs Hdac He)
    as (dest & Hm & Hd & _).
  eauto.
Qed.

(** X17.  The file of a [.dac] sub-directory that holds nothing else never
    gets the name of the sub-directory: it ends under that name
    followed by [_k] with [k >= 1], a name that does not end in
    [.dac]. *)
Theorem single_file_gets_numbered_name (target_dir : string) (base : directory)
    (subdir name content : string) :
  base !! subdir = Some (Dir {[name := EFile content]}) →
  py.endswith subdir ".dac" = true →
  ∃ k, (1 ≤ k)%nat
       ∧ Move (subdir, name) (suffixed subdir k) false
           ∈ trace_of (main target_dir (Some base))
       ∧ flattened target_dir base !! suffixed subdir k = Some (File content)
       ∧ py.endswith (suffixed subdir k) ".dac" = false.
Proof.
  intros Hs Hdac.
  destruct (main_effect target_dir base) as [-> ->].
  destruct (for_each_subdir_effect _ (NoDup_fst_map_to_list base) base)
    as (_ & _ & _ & _ & HC).
  destruct (HC subdir _ name content (listing_elem_of _ _ _ Hs) Hs Hdac
              (lookup_singleton_eq _ _)) as (dest & Hm & Hd & Hk).
  destruct (Hk eq_refl) as (k & Hk1 & ->).
  exists k. repeat split; auto. apply suffixed_not_dac.
Qed.

(** X18.  When [main] returns, no regular file is left inside a [.dac]
    sub-directory and no [.dac] sub-directory is left empty: one
    that is still there is one that was there, and it holds entries
    that are not regular files. *)
Theorem no_regular_file_left_behind (target_dir : string) (base : directory)
    (subdir : string) (entries' : gmap string entry) :
  flattened target_dir base !! subdir = Some (Dir entries') →
  py.endswith subdir ".dac" = true →
  (∃ entries, base !! subdir = Some (Dir entries))
  ∧ entries' ≠ ∅
  ∧ no_regular_file entries'.
Proof.
  intros Hs Hdac.
  destruct (main_effect target_dir base) as [Hst _]. rewrite Hst in Hs.
  destruct (for_each_subdir_effect _ (NoDup_fst_map_to_list base) base)
    as (_ & _ & _ & HB & _).
  destruct (HB subdir entries' Hs) as (es & Hes & Hrest).
  split; [eauto|]. apply Hrest; [|exact Hdac].
  eapply listing_elem_of, Hes.
Qed.

(** X19.  Everything but the [.dac] sub-directories stays as it is: a
    regular file of the target directory, and a sub-directory whose
    name does not end in [.dac], are there unchanged when [main]
    returns. *)
Theorem other_entries_are_untouched (target_dir : string) (base : directory)
    (name : string) (nd : node) :
  base !! name = Some nd →
  py.endswith name ".dac" = false ∨ (∃ content, nd = File content) →
  flattened target_dir base !! name = Some nd.
Proof.
  intros Hn Hwhy.
  destruct (main_effect target_dir base) as [-> _].
  destruct (for_each_subdir_effect _ (NoDup_fst_map_to_list base) base)
    as (_ & Hkeep & HA & _).
  destruct nd as [content|es]; [apply Hkeep, Hn|].
  destruct Hwhy as [Hwhy|[c [=]]].
  apply HA; [right; exact Hwhy | exact Hn].
Qed.

Lemma flattening_loses_no_file_witness :
  encoded !! "b.dac"
    = Some (Dir (list_to_map [("x.dac", EFile "B1"); ("y.dac", EFile "B2");
                              ("tmp", EOther)]))
  ∧ py.endswith "b.dac" ".dac" = true
  ∧ ∃ dest,
      Move ("b.dac", "x.dac") dest false ∈ trace_of (main "." (Some encoded))
      ∧ flattened "." encoded !! dest = Some (File "B1").
Proof.
  assert (encoded !! "b.dac"
          = Some (Dir (list_to_map [("x.dac", EFile "B1"); ("y.dac", EFile "B2");
                                    ("tmp", EOther)]))) as H
    by (vm_compute; reflexivity).
  split; [exact H|]. split; [reflexivity|].
  apply (flattening_loses_no_file "." encoded "b.dac" "x.dac" "B1" _ H eq_refl).
  vm_compute. reflexivity.
Defined.

Lemma single_file_gets_numbered_name_witness :
  encoded !! "a.dac" = Some (Dir {[ "codes.dac" := EFile "A" ]})
  ∧ py.endswith "a.dac" ".dac" = true
  ∧ flattened "." encoded !! "a.dac_2" = Some (File "A")
  ∧ ∃ k, (1 ≤ k)%nat
         ∧ Move ("a.dac", "codes.dac") (suffixed "a.dac" k) false
             ∈ trace_of (main "." (Some encoded))
         ∧ flattened "." encoded !! suffixed "a.dac" k = Some (File "A")
         ∧ py.endswith (suffixed "a.dac" k) ".dac" = false.
Proof.
  assert (encoded !! "a.dac" = Some (Dir {[ "codes.dac" := EFile "A" ]})) as H
    by (vm_compute; reflexivity).
  split; [exact H|]. split; [reflexivity|]. split; [vm_compute; reflexivity|].
  exact (single_file_gets_numbered_name "." encoded "a.dac" "codes.dac" "A" H eq_refl).
Defined.

Lemma no_regular_file_left_behind_witness :
  flattened "." encoded !! "b.dac" = Some (Dir {[ "tmp" := EOther ]})
  ∧ py.endswith "b.dac" ".dac" = true
  ∧ no_regular_file ({[ "tmp" := EOther ]} : gmap string entry).
Proof.
  assert (flattened "." encoded !! "b.dac" = Some (Dir {[ "tmp" := EOther ]})) as H
    by (vm_compute; reflexivity).
  split; [exact H|]. split; [reflexivity|].
  exact (proj2 (proj2 (no_regular_file_left_behind "." encoded "b.dac" _ H eq_refl))).
Defined.

Lemma other_entries_are_untouched_witness :
  encoded !! "readme.txt" = Some (File "text")
  ∧ flattened "." encoded !! "readme.txt" = Some (File "text").
Proof.
  assert (encoded !! "readme.txt" = Some (File "text")) as H
    by (vm_compute; reflexivity).
  split; [exact H|].
  exact (other_entries_are_untouched "." encoded "readme.txt" _ H
           (or_introl eq_refl)).
Defined.

End flattened_files.

(** ** What a reorganisation leaves alone *)

Section leaves_alone.
Import reorganize_dac_files.

Ltac run_reorg :=
  cbv [mbind prog_bind mret prog_ret emit get_state put_state print
       shutil_move shutil_copy2].

(** A relation between file systems that every step of a pass keeps
    is kept by the pass. *)
Lemma for_each_name_invariant (R : filesystem → filesystem → Prop)
    (args : arguments) (dest_dir : string) (file_list : list string) :
  (∀ fs, R fs fs) →
  (∀ a b c, R a b → R b c → R a c) →
  (∀ fs n content,
     n ∈ file_list →
     lookup_file fs (source_dir args, n) = Some content →
     if move args
     then R fs (write_file (remove_file fs (source_dir args, n)) (dest_dir, n) content)
     else (source_dir args, n) ≠ (dest_dir, n) →
          R fs (write_file fs (dest_dir, n) content)) →
  ∀ fs, R fs (state_of (for_each_name args file_list dest_dir fs)).
Proof.
  intros Hrefl Htrans.
  induction file_list as [|file_name rest IH]; intros Hstep fs.
  - apply Hrefl.
  - cbn [for_each_name]. run_reorg.
    assert (∀ fs, R fs (state_of (for_each_name args rest dest_dir fs))) as IH'.
    { apply IH. intros fs' n content Hn. apply Hstep. right. exact Hn. }
    specialize (Hstep fs file_name).
    destruct (lookup_file fs (source_dir args, file_name)) as [content|].
    + specialize (Hstep content ltac:(left) eq_refl).
      destruct (move args).
      * match goal with |- context [for_each_name args rest dest_dir ?f] =>
          specialize (IH' f); destruct (for_each_name args rest dest_dir f)
            as [[r f'] t] end.
        eapply Htrans; [exact Hstep | exact IH'].
      * destruct (decide ((source_dir args, file_name) = (dest_dir, file_name)))
          as [E|Hne].
        -- rewrite bool_decide_eq_true_2 by exact E. apply Hrefl.
        -- rewrite bool_decide_eq_false_2 by exact Hne.
           match goal with |- context [for_each_name args rest dest_dir ?f] =>
             specialize (IH' f); destruct (for_each_name args rest dest_dir f)
               as [[r f'] t] end.
           eapply Htrans; [exact (Hstep Hne) | exact IH'].
    + specialize (IH' fs).
      destruct (for_each_name args rest dest_dir fs) as [[r f'] t]. exact IH'.
Qed.

(** The file system [main] ends in: the one with the two destination
    directories made, after none, one or both of the passes. *)
Lemma main_state (w : world) (args : arguments) (fs : filesystem) :
  let fs1 := <[train_dir args := default ∅ (fs !! train_dir args)]> fs in
  let fs0 := <[val_dir args := default ∅ (fs1 !! val_dir args)]> fs1 in
  let r1 := for_each_name args (names_of w (train_excel args)) (train_dir args) fs0 in
  let r2 := for_each_name args (names_of w (val_excel args)) (val_dir args)
              (state_of r1) in
  state_of (main w args fs) = fs0
  ∨ state_of (main w args fs) = state_of r1
  ∨ state_of (main w args fs) = state_of r2.
Proof.
  cbn zeta. unfold main, names_of, process_files, makedirs.
  cbv [mbind prog_bind mret prog_ret emit get_state put_state print].
  set (fs1 := <[train_dir args := default ∅ (fs !! train_dir args)]> fs).
  set (fs0 := <[val_dir args := default ∅ (fs1 !! val_dir args)]> fs1).
  destruct (read_excel w (train_excel args)) as [e|train_files];
    [left; reflexivity|].
  destruct (read_excel w (val_excel args)) as [e|val_files];
    [left; reflexivity|].
  destruct (listdir fs0 (source_dir args)) as [all_files|]; [|left; reflexivity].
  destruct (report_missing_run "training"
              (filter (λ f, f ∉ all_files) train_files)) as [tm1 Hm1].
  destruct (report_missing_run "validation"
              (filter (λ f, f ∉ all_files) val_files)) as [tm2 Hm2].
  rewrite Hm1, Hm2.
  destruct (for_each_name args train_files (train_dir args) fs0) as [[r1 f1] t1].
  unfold state_of. cbn [fst snd].
  destruct r1; [|right; left; reflexivity..].
  destruct (for_each_name args val_files (val_dir args) f1) as [[r2 f2] t2].
  cbn [fst snd]. right. right. destruct r2; reflexivity.
Qed.

(** A relation kept by making a directory and by every step of the
    two passes holds between the file system [main] starts in and the
    one it ends in. *)
Lemma main_invariant (R : filesystem → filesystem → Prop)
    (w : world) (args : arguments) :
  (∀ fs, R fs fs) →
  (∀ a b c, R a b → R b c → R a c) →
  (∀ fs dir, R fs (<[dir := default ∅ (fs !! dir)]> fs)) →
  (∀ fs dest_dir n content,
     n ∈ names_of w (train_excel args) ++ names_of w (val_excel args) →
     lookup_file fs (source_dir args, n) = Some content →
     if move args
     then R fs (write_file (remove_file fs (source_dir args, n)) (dest_dir, n) content)
     else (source_dir args, n) ≠ (dest_dir, n) →
          R fs (write_file fs (dest_dir, n) content)) →
  ∀ fs, R fs (reorganized w args fs).
Proof.
  intros Hrefl Htrans Hmk Hstep fs. unfold reorganized.
  assert (∀ fs, R fs (state_of (for_each_name args (names_of w (train_excel args))
                                  (train_dir args) fs))) as Hp1.
  { apply for_each_name_invariant; auto. intros fs' n content Hn.
    apply Hstep. apply elem_of_app. left. exact Hn. }
  assert (∀ fs, R fs (state_of (for_each_name args (names_of w (val_excel args))
                                  (val_dir args) fs))) as Hp2.
  { apply for_each_name_invariant; auto. intros fs' n content Hn.
    apply Hstep. apply elem_of_app. right. exact Hn. }
  pose proof (main_state w args fs) as Hst. cbn zeta in Hst.
  set (fs1 := <[train_dir args := default ∅ (fs !! train_dir args)]> fs) in *.
  set (fs0 := <[val_dir args := default ∅ (fs1 !! val_dir args)]> fs1) in *.
  assert (R fs fs0) as H0.
  { eapply Htrans; [apply (Hmk fs (train_dir args)) | apply (Hmk fs1 (val_dir args))]. }
  destruct Hst as [-> |[-> | ->]].
  - exact H0.
  - eapply Htrans; [exact H0 | apply Hp1].
  - eapply Htrans; [exact H0|]. eapply Htrans; [apply Hp1 | apply Hp2].
Qed.



(** X21.  Without [--move] the source directory is never modified: every
    name denotes in it the same file after the run as before, even
    when a destination directory is the source directory itself. *)
Theorem copying_leaves_source_alone (w : world) (args : arguments)
    (fs : filesystem) (name : string) :
  move args = false →
  lookup_file (reorganized w args fs) (source_dir args, name)
  = lookup_file fs (source_dir args, name).
Proof.
  intros Hcopy. revert name.
  apply (main_invariant
           (λ a b, ∀ name, lookup_file b (source_dir args, name)
                           = lookup_file a (source_dir args, name))).
  - reflexivity.
  - intros a b c Hab Hbc name. rewrite Hbc. apply Hab.
  - intros fs' d name. apply lookup_makedirs.
  - intros fs' dest_dir n content _ _. rewrite Hcopy.
    intros Hne name. apply lookup_write_ne.
    intros [= Hd Hn]. apply Hne. congruence.
Qed.

Lemma copying_leaves_source_alone_witness :
  move in_place_args = false
  ∧ lookup_file (reorganized sheets in_place_args raw)
      (source_dir in_place_args, "a.dac")
    = lookup_file raw (source_dir in_place_args, "a.dac").
Proof.
  split; [reflexivity|].
  exact (copying_leaves_source_alone sheets in_place_args raw "a.dac" eq_refl).
Defined.




End leaves_alone.
